(** * pdfcraft: the document-transformation pipeline core

    A shallow embedding of the processors under [src/lib/pdf/processors]
    (split, OCR, text colour, background colour, image to PDF, annotation
    removal, form creation) and the properties their specification states
    about them.

    Conventions of the embedding.
    - JavaScript numbers are rationals ([Q]); page numbers, byte values
      and counters that the code only ever uses as integers are [Z] or [nat].
      Where the rounding of binary64 arithmetic decides what the code
      does (the pixel pass of the text-colour processor, [parseInt]) every
      operation is the exact one followed by [JS.round64]; the page
      geometry of the image processor is stated in exact arithmetic.
    - JavaScript strings are Rocq strings (code units below 256).
    - A [Uint8ClampedArray] is a [list Z] read with [!!] and written with
      [<[ _ := _ ]>]; a write converts its argument as the typed array does.
    - The [async] bodies of the processors run in a small state-and-outcome
      monad; the external collaborators (pdf.js, pdf-lib, Tesseract, the
      cancellation flag) are an explicit environment record, each call of
      which may resolve or throw. *)

From Stdlib Require Import ZArith QArith Qround Qminmax Qabs Lqa String Ascii List Bool Lia.
From Stdlib Require Import DecimalString DecimalZ DecimalN DecimalPos DecimalFacts.
From stdpp Require Import base list.
Import ListNotations.

Open Scope Z_scope.

(* ================================================================== *)
(** * Part I. The model *)
(* ================================================================== *)

(** ** JavaScript built-ins used by the processors *)
Module JS.

Local Open Scope string_scope.

(** Template-literal rendering of an integer: [`${n}`]. *)
Definition show (n : Z) : string := NilZero.string_of_int (Z.to_int n).

(** White space and line terminators recognised by [trim] and [parseInt]
    (tab, LF, VT, FF, CR, space, NBSP). *)
Definition is_space (c : ascii) : bool :=
  let n := N_of_ascii c in
  ((9 <=? n) && (n <=? 13) || (n =? 32) || (n =? 160))%N.

Definition is_digit (c : ascii) : bool :=
  let n := N_of_ascii c in ((48 <=? n) && (n <=? 57))%N.

Definition non_digit (c : ascii) : bool := negb (is_digit c).

(** [x < y] on numbers. *)
Definition Qltb (x y : Q) : bool := negb (Qle_bool y x).

(** *** Binary64 numbers

    A finite double is the rational it denotes (the two zeros are one
    number); a magnitude of [2^1024], which is above every finite double,
    stands for [Infinity]. [NaN] is not a value of the model: where the
    code can produce it the model says so ([parseInt] returns [None]). *)

(** [floor (log2 x)] for [x > 0]. *)
Definition ilog2 (x : Q) : Z :=
  let c := (Z.log2 (Qnum x) - Z.log2 (Zpos (Qden x)))%Z in
  if Qle_bool (2 ^ c)%Q x then c else (c - 1)%Z.

(** The nearest integer, ties to the even one. *)
Definition round_half_even (m : Q) : Z :=
  let f := Qfloor m in
  match Qcompare (m - inject_Z f)%Q (1 # 2)%Q with
  | Lt => f
  | Gt => (f + 1)%Z
  | Eq => if Z.even f then f else (f + 1)%Z
  end.

Definition infinity : Q := (2 ^ 1024)%Q.

(** The double nearest to the real [x] (round to nearest, ties to even):
    a multiple of the unit in the last place [2^(e - 52)], where [e] is
    the binary exponent of [x], not below that of the subnormals. *)
Definition round64 (x : Q) : Q :=
  let a := Qred (Qabs x) in
  match Qnum a with
  | Z0 => 0%Q
  | _ =>
      let e := Z.max (ilog2 a) (-1022) in
      let ulp := (2 ^ (e - 52))%Q in
      let v := Qred (inject_Z (round_half_even (a / ulp)%Q) * ulp)%Q in
      let v := if Qle_bool infinity v then infinity else v in
      if Qle_bool 0%Q x then v else (- v)%Q
  end.

(** [x + y], [x * y] and [x / y] on doubles ([y] not zero). *)
Definition add64 (x y : Q) : Q := round64 (x + y)%Q.
Definition mul64 (x y : Q) : Q := round64 (x * y)%Q.
Definition div64 (x y : Q) : Q := round64 (x / y)%Q.

(** The Number value of a non-negative integer: the nearest double,
    which is again an integer; [2^1024] stands for [Infinity]. *)
Definition nearest_double (n : Z) : Z :=
  let k := (Z.log2 n - 52)%Z in
  if (k <=? 0)%Z then n
  else
    let q := (n / 2 ^ k)%Z in
    let q' :=
      match (n mod 2 ^ k ?= 2 ^ (k - 1))%Z with
      | Lt => q
      | Gt => (q + 1)%Z
      | Eq => if Z.even q then q else (q + 1)%Z
      end in
    let v := (q' * 2 ^ k)%Z in
    if (2 ^ 1024 <=? v)%Z then (2 ^ 1024)%Z else v.

(** [x] and [y] are the same fraction, numerator and denominator. *)
Definition same_number (x y : Q) : bool :=
  (Qnum x =? Qnum y)%Z && (Qden x =? Qden y)%positive.

(** The conversion a [Uint8ClampedArray] applies to a stored number:
    clamp to [0, 255], then round to the nearest integer, ties to even. *)
Definition toUint8Clamp (x : Q) : Z :=
  let clamped := Qmin (Qmax x 0) 255 in
  let f := Qfloor clamped in
  if Qltb clamped (inject_Z f + (1 # 2)) then f
  else if Qltb (inject_Z f + (1 # 2)) clamped then f + 1
  else if Z.even f then f else f + 1.

(** [s.split(sep)] for a one-character separator. *)
Fixpoint split (sep : ascii) (s : string) : list string :=
  match s with
  | EmptyString => [EmptyString]
  | String c s' =>
      if Ascii.eqb c sep then EmptyString :: split sep s'
      else match split sep s' with
           | [] => [String c EmptyString]
           | p :: ps => String c p :: ps
           end
  end.

Fixpoint trimStart (s : string) : string :=
  match s with
  | EmptyString => EmptyString
  | String c s' => if is_space c then trimStart s' else s
  end.

Fixpoint trimEnd (s : string) : string :=
  match s with
  | EmptyString => EmptyString
  | String c s' =>
      match trimEnd s' with
      | EmptyString => if is_space c then EmptyString else String c EmptyString
      | t => String c t
      end
  end.

(** [s.trim()]. *)
Definition trim (s : string) : string := trimEnd (trimStart s).

(** [s.includes(c)] for a one-character needle. *)
Fixpoint includes (c : ascii) (s : string) : bool :=
  match s with
  | EmptyString => false
  | String d s' => Ascii.eqb d c || includes c s'
  end.

Definition digit_of (c : ascii) (k : Decimal.uint) : Decimal.uint :=
  match (N_of_ascii c - 48)%N with
  | 0%N => Decimal.D0 k | 1%N => Decimal.D1 k | 2%N => Decimal.D2 k
  | 3%N => Decimal.D3 k | 4%N => Decimal.D4 k | 5%N => Decimal.D5 k
  | 6%N => Decimal.D6 k | 7%N => Decimal.D7 k | 8%N => Decimal.D8 k
  | _ => Decimal.D9 k
  end.

(** The longest prefix of decimal digits of [s], as a digit sequence. *)
Fixpoint digits_prefix (s : string) : Decimal.uint :=
  match s with
  | EmptyString => Decimal.Nil
  | String c s' =>
      if is_digit c then digit_of c (digits_prefix s') else Decimal.Nil
  end.

Definition parse_unsigned (s : string) : option Z :=
  match digits_prefix s with
  | Decimal.Nil => None
  | u => Some (Z.of_uint u)
  end.

(** [parseInt(s, 10)]: leading white space is skipped, one sign is
    accepted, then the longest digit prefix is read; [None] is [NaN].
    The value is the Number value of the integer the digits denote: the
    nearest double (beyond 20 significant digits the standard lets an
    engine round the later digits away first). *)
Definition parseInt (s : string) : option Z :=
  match trimStart s with
  | String "-" r =>
      option_map (fun n => - nearest_double n) (parse_unsigned r)
  | String "+" r => option_map nearest_double (parse_unsigned r)
  | r => option_map nearest_double (parse_unsigned r)
  end.

(** Whether [parseInt] finds an integer at the start of [s]: after the
    white space and at most one sign there is a decimal digit. *)
Definition begins_with_digit (s : string) : bool :=
  match s with
  | String c _ => is_digit c
  | EmptyString => false
  end.

Definition has_integer_prefix (s : string) : bool :=
  match trimStart s with
  | String "-" r => begins_with_digit r
  | String "+" r => begins_with_digit r
  | r => begins_with_digit r
  end.

(** Character-wise tests and filters, used to state facts about tokens. *)
Fixpoint string_forallb (p : ascii -> bool) (s : string) : bool :=
  match s with
  | EmptyString => true
  | String c s' => p c && string_forallb p s'
  end.

Fixpoint string_filter (p : ascii -> bool) (s : string) : string :=
  match s with
  | EmptyString => EmptyString
  | String c s' => if p c then String c (string_filter p s') else string_filter p s'
  end.

(** [s.startsWith(p)], [s.includes(needle)], [s.endsWith(suffix)],
    [s.toLowerCase()] on ASCII letters. *)
Fixpoint startsWith (p s : string) : bool :=
  match p, s with
  | EmptyString, _ => true
  | String a p', String c s' => Ascii.eqb a c && startsWith p' s'
  | String _ _, EmptyString => false
  end.

Fixpoint includes_str (needle s : string) : bool :=
  startsWith needle s
  || match s with
     | EmptyString => false
     | String _ s' => includes_str needle s'
     end.

Definition endsWith (suffix s : string) : bool :=
  (String.length suffix <=? String.length s)%nat
  && String.eqb (substring (String.length s - String.length suffix)
                           (String.length suffix) s) suffix.

Definition lower (c : ascii) : ascii :=
  let n := N_of_ascii c in
  if ((65 <=? n) && (n <=? 90))%N then ascii_of_N (n + 32) else c.

Fixpoint toLowerCase (s : string) : string :=
  match s with
  | EmptyString => EmptyString
  | String c s' => String (lower c) (toLowerCase s')
  end.

(** [s.lastIndexOf(c)]; [None] is [-1]. *)
Fixpoint lastIndexOf (c : ascii) (s : string) : option nat :=
  match s with
  | EmptyString => None
  | String d s' =>
      match lastIndexOf c s' with
      | Some k => Some (S k)
      | None => if Ascii.eqb d c then Some 0%nat else None
      end
  end.

Fixpoint drop_chars (n : nat) (s : string) : string :=
  match n, s with
  | O, _ => s
  | S n', String _ s' => drop_chars n' s'
  | S _, EmptyString => EmptyString
  end.

(** [s.replace(pat, rep)] with a string pattern: the first occurrence. *)
Fixpoint replace_first (pat rep s : string) : string :=
  if startsWith pat s then rep ++ drop_chars (String.length pat) s
  else match s with
       | EmptyString => EmptyString
       | String c s' => String c (replace_first pat rep s')
       end.

(** The line feed of the template literals. *)
Definition nl : string := String (ascii_of_N 10) EmptyString.

(** [xs.join(sep)]. *)
Fixpoint join (sep : string) (xs : list string) : string :=
  match xs with
  | [] => EmptyString
  | [x] => x
  | x :: rest => x ++ sep ++ join sep rest
  end.

End JS.

(** ** split.ts: range validation and the range parser *)
Module Split.

Import JS.
Local Open Scope string_scope.
Local Open Scope Z_scope.

Record PageRange := { start : Z; end_ : Z }.

(** [validatePageRanges]: the [for] loop over [ranges], [i] being the
    loop index. *)
Fixpoint validatePageRanges_from (i : Z) (ranges : list PageRange)
    (totalPages : Z) : option string :=
  match ranges with
  | [] => None
  | range :: rest =>
      if start range <? 1 then
        Some ("Range " ++ show (i + 1) ++ ": Start page must be at least 1.")
      else if end_ range <? start range then
        Some ("Range " ++ show (i + 1) ++ ": End page (" ++ show (end_ range)
              ++ ") cannot be less than start page (" ++ show (start range) ++ ").")
      else if totalPages <? end_ range then
        Some ("Range " ++ show (i + 1) ++ ": End page (" ++ show (end_ range)
              ++ ") exceeds total pages (" ++ show totalPages ++ ").")
      else if totalPages <? start range then
        Some ("Range " ++ show (i + 1) ++ ": Start page (" ++ show (start range)
              ++ ") exceeds total pages (" ++ show totalPages ++ ").")
      else validatePageRanges_from (i + 1) rest totalPages
  end.

Definition validatePageRanges (ranges : list PageRange) (totalPages : Z)
    : option string :=
  validatePageRanges_from 0 ranges totalPages.

(** A range that passes the three bounds the specification lists. *)
Definition range_ok (totalPages : Z) (r : PageRange) : Prop :=
  1 <= start r /\ start r <= end_ r /\ end_ r <= totalPages.

(** One iteration of the [for (const part of parts)] loop of
    [parsePageRanges]: [ranges] is the accumulator the body pushes to. *)
Definition parse_part (ranges : list PageRange) (part : string)
    : list PageRange :=
  if includes "-" part then
    match map trim (split "-" part) with
    | startStr :: endStr :: _ =>
        match parseInt startStr, parseInt endStr with
        | Some s, Some e => (ranges ++ [{| start := s; end_ := e |}])%list
        | _, _ => ranges
        end
    | _ => ranges
    end
  else
    match parseInt part with
    | Some pageNum => (ranges ++ [{| start := pageNum; end_ := pageNum |}])%list
    | None => ranges
    end.

(** What it takes for a token to parse: a token with a dash needs an
    integer at the start of the piece before the first dash and of the
    piece after it, any other token an integer at its own start. *)
Definition token_parses (part : string) : bool :=
  if includes "-" part then
    match map trim (split "-" part) with
    | startStr :: endStr :: _ =>
        has_integer_prefix startStr && has_integer_prefix endStr
    | _ => false
    end
  else has_integer_prefix part.

Definition parts_of (rangeString : string) : list string :=
  List.filter (fun s => (0 <? String.length s)%nat)
              (map trim (split "," rangeString)).

(** [parsePageRanges]; [totalPages] is accepted and never read. *)
Definition parsePageRanges (rangeString : string) (totalPages : Z)
    : list PageRange :=
  fold_left parse_part (parts_of rangeString) [].

End Split.

(** ** image-to-pdf.ts: page size and image placement *)
Module ImageToPDF.

Import JS.
Local Open Scope Q_scope.

Inductive PageSizeType := A4 | LETTER | LEGAL | A3 | A5 | FIT.

Record Size := { width : Q; height : Q }.

(** Page size presets in points. *)
Definition PAGE_SIZES (p : PageSizeType) : Size :=
  match p with
  | A4 => {| width := 59528 # 100; height := 84189 # 100 |}
  | LETTER => {| width := 612; height := 792 |}
  | LEGAL => {| width := 612; height := 1008 |}
  | A3 => {| width := 84189 # 100; height := 119055 # 100 |}
  | A5 => {| width := 41953 # 100; height := 59528 # 100 |}
  | FIT => {| width := 0; height := 0 |}
  end.

(** [pageSize: PageSizeType | { width; height }]. *)
Inductive PageSize :=
| Preset (p : PageSizeType)
| Custom (s : Size).

Inductive Orientation := portrait | landscape | auto.

Record ImageToPDFOptions := {
  pageSize : PageSize;
  orientation : Orientation;
  margin : Q;
  quality : Q;
  centerImage : bool;
  scaleToFit : bool;
  svgScale : Q
}.

Definition DEFAULT_OPTIONS : ImageToPDFOptions :=
  {| pageSize := Preset A4; orientation := auto; margin := 36;
     quality := 92 # 100; centerImage := true; scaleToFit := true;
     svgScale := 2 |}.

Record PageDimensions := { pageWidth : Q; pageHeight : Q }.

Definition is_string (ps : PageSize) : bool :=
  match ps with Preset _ => true | Custom _ => false end.

Definition is_FIT (ps : PageSize) : bool :=
  match ps with Preset FIT => true | _ => false end.

(** [calculatePageDimensions]: the base size, then the orientation step. *)
Definition calculatePageDimensions (imageWidth imageHeight : Q)
    (options : ImageToPDFOptions) : PageDimensions :=
  let base :=
    match pageSize options with
    | Preset p =>
        let preset := PAGE_SIZES p in
        match p with
        | FIT => (imageWidth + margin options * 2,
                  imageHeight + margin options * 2)
        | _ => (width preset, height preset)
        end
    | Custom s => (width s, height s)
    end in
  let '(pageWidth0, pageHeight0) := base in
  match orientation options with
  | landscape =>
      if Qltb pageWidth0 pageHeight0
      then {| pageWidth := pageHeight0; pageHeight := pageWidth0 |}
      else {| pageWidth := pageWidth0; pageHeight := pageHeight0 |}
  | portrait =>
      if Qltb pageHeight0 pageWidth0
      then {| pageWidth := pageHeight0; pageHeight := pageWidth0 |}
      else {| pageWidth := pageWidth0; pageHeight := pageHeight0 |}
  | auto =>
      let imageIsLandscape := Qltb imageHeight imageWidth in
      let pageIsLandscape := Qltb pageHeight0 pageWidth0 in
      if negb (Bool.eqb imageIsLandscape pageIsLandscape)
         && is_string (pageSize options) && negb (is_FIT (pageSize options))
      then {| pageWidth := pageHeight0; pageHeight := pageWidth0 |}
      else {| pageWidth := pageWidth0; pageHeight := pageHeight0 |}
  end.

Record Placement := { x : Q; y : Q; placedWidth : Q; placedHeight : Q }.

(** [calculateImagePlacement]. The two quotients divide by the image's
    dimensions; these are positive for every image pdf-lib embeds, and the
    properties below are stated for positive dimensions. *)
Definition calculateImagePlacement (imageWidth imageHeight : Q)
    (pageWidth pageHeight : Q) (options : ImageToPDFOptions) : Placement :=
  let availableWidth := pageWidth - margin options * 2 in
  let availableHeight := pageHeight - margin options * 2 in
  let '(width, height) :=
    if scaleToFit options then
      let scaleX := availableWidth / imageWidth in
      let scaleY := availableHeight / imageHeight in
      let scale := Qmin (Qmin scaleX scaleY) 1 in
      (imageWidth * scale, imageHeight * scale)
    else (imageWidth, imageHeight) in
  if centerImage options then
    {| x := (pageWidth - width) / 2; y := (pageHeight - height) / 2;
       placedWidth := width; placedHeight := height |}
  else
    {| x := margin options; y := margin options;
       placedWidth := width; placedHeight := height |}.

End ImageToPDF.

(** ** text-color.ts: the pixel pass *)
Module Recolor.

Import JS.

(** [color: { r; g; b }], each channel a fraction of 255. *)
Record Color := { r : Q; g : Q; b : Q }.

Inductive Mode := dark | light.

(** The body of the pixel loop at offset [j]. A channel read past the end
    of the array is [undefined], the brightness is then [NaN] and neither
    comparison holds. *)
Definition recolor_pixel (isDarkMode : bool) (threshold : Q) (color : Color)
    (data : list Z) (j : nat) : list Z :=
  match data !! j, data !! (j + 1)%nat, data !! (j + 2)%nat with
  | Some pixelR, Some pixelG, Some pixelB =>
      let brightness :=
        div64 (add64 (add64 (inject_Z pixelR) (inject_Z pixelG))
                     (inject_Z pixelB)) 3 in
      let shouldChange :=
        if isDarkMode then Qltb brightness threshold
        else Qltb threshold brightness in
      if shouldChange then
        <[(j + 2)%nat := toUint8Clamp (mul64 (b color) 255)]>
          (<[(j + 1)%nat := toUint8Clamp (mul64 (g color) 255)]>
             (<[j := toUint8Clamp (mul64 (r color) 255)]> data))
      else data
  | _, _, _ => data
  end.

(** Number of iterations of [for (j = 0; j < data.length; j += 4)]. *)
Definition iterations (data : list Z) : nat := ((length data + 3) / 4)%nat.

(** The pixel loop: iteration [k] works at offset [j = 4 * k]. *)
Definition recolor (mode : Mode) (threshold : Q) (color : Color)
    (data : list Z) : list Z :=
  let isDarkMode := match mode with dark => true | light => false end in
  fold_left (fun data k => recolor_pixel isDarkMode threshold color data (4 * k)%nat)
            (seq 0 (iterations data)) data.

(** The mode predicate on a brightness. *)
Definition selected (mode : Mode) (threshold brightness : Q) : Prop :=
  match mode with
  | dark => (brightness < threshold)%Q
  | light => (threshold < brightness)%Q
  end.

End Recolor.

(** ** The processors' [async process] bodies: state, outcomes, collaborators *)
Module Async.

Local Open Scope string_scope.

(** A thrown value: an [Error] with its message, or anything else. *)
Inductive thrown := ErrorObj (message : string) | NonError.

(** [error instanceof Error ? error.message : 'Unknown error']. *)
Definition message_of (error : thrown) : string :=
  match error with
  | ErrorObj m => m
  | NonError => "Unknown error"
  end.

Inductive PDFErrorCode :=
| INVALID_OPTIONS | FILE_TYPE_INVALID | INVALID_PAGE_RANGE
| PROCESSING_CANCELLED | PROCESSING_FAILED | PDF_ENCRYPTED.

(** [ProcessOutput], as built by [createSuccessOutput] and
    [createErrorOutput]; [R] is the payload of a success. *)
Inductive ProcessOutput (R : Type) :=
| Success (result : R)
| Failure (code : PDFErrorCode) (message : string) (details : option string).
Arguments Success {R} result.
Arguments Failure {R} code message details.

Record File := { name : string; type_ : string }.

(** What a run can observe and change: the percentages the processor
    passed to [updateProgress] and those handed to the progress callback
    (oldest first), the number of cancellation polls made, the OCR
    processor's [tesseractWorker] field, and two counters of the Tesseract
    calls made (sessions created, [terminate()] calls). *)
Record St := {
  requested : list Q;
  emitted : list Q;
  polls : nat;
  tesseractWorker : option nat;
  workers_created : nat;
  terminate_calls : nat
}.

Definition fresh : St :=
  {| requested := []; emitted := []; polls := 0; tesseractWorker := None;
     workers_created := 0; terminate_calls := 0 |}.

(** The result of running part of a function body: a value, a [return]
    of the enclosing function, or a thrown exception. *)
Inductive res (O A : Type) :=
| Val (a : A)
| Ret (o : O)
| Exc (e : thrown).
Arguments Val {O A} a.
Arguments Ret {O A} o.
Arguments Exc {O A} e.

Definition M (O A : Type) : Type := St -> St * res O A.

Definition ret {O A} (a : A) : M O A := fun s => (s, Val a).

Definition bind {O A B} (m : M O A) (k : A -> M O B) : M O B :=
  fun s =>
    match m s with
    | (s', Val a) => k a s'
    | (s', Ret o) => (s', Ret o)
    | (s', Exc e) => (s', Exc e)
    end.

Definition throw {O A} (e : thrown) : M O A := fun s => (s, Exc e).

(** [return o;] *)
Definition return_ {O A} (o : O) : M O A := fun s => (s, Ret o).

(** [try { body } catch (error) { handler }]: a [return] inside [body]
    leaves the function, an exception enters the handler. *)
Definition try_catch {O A} (body : M O A) (handler : thrown -> M O A) : M O A :=
  fun s =>
    match body s with
    | (s', Exc e) => handler e s'
    | r => r
    end.

(** [await] of a collaborator's promise: it resolves or rejects. *)
Definition await {O A} (r : thrown + A) : M O A :=
  match r with
  | inl e => throw e
  | inr a => ret a
  end.

Definition await_ {O} (r : option thrown) : M O unit :=
  match r with
  | Some e => throw e
  | None => ret tt
  end.

Definition get {O} : M O St := fun s => (s, Val s).
Definition put {O} (s : St) : M O unit := fun _ => (s, Val tt).

(** How the promise returned by [process] settles. *)
Inductive completion (O : Type) :=
| Returned (o : O)
| Rejected (e : thrown).
Arguments Returned {O} o.
Arguments Rejected {O} e.

Definition run {O} (body : M O O) (s : St) : St * completion O :=
  match body s with
  | (s', Val o) => (s', Returned o)
  | (s', Ret o) => (s', Returned o)
  | (s', Exc e) => (s', Rejected e)
  end.

Definition clamp (progress : Q) : Q := Qmin 100 (Qmax 0 progress).

(** Modelled from the spec: [BasePDFProcessor.updateProgress] is not among
    the sources. Section 4.2 has the percentage clamped to [0,100] and
    handed to the progress callback; the message is not recorded. *)
Definition updateProgress {O} (progress : Q) : M O unit :=
  fun s =>
    ({| requested := requested s ++ [progress];
        emitted := emitted s ++ [clamp progress]; polls := polls s;
        tesseractWorker := tesseractWorker s;
        workers_created := workers_created s;
        terminate_calls := terminate_calls s |}, Val tt).

(** Modelled from the spec: [BasePDFProcessor.checkCancelled] is not among
    the sources. Section 3 has a cancellation flag set externally and read
    at checkpoints; [cancelled k] is the flag at the [k]-th poll. *)
Definition checkCancelled {O} (cancelled : nat -> bool) : M O bool :=
  fun s =>
    ({| requested := requested s;
        emitted := emitted s; polls := S (polls s);
        tesseractWorker := tesseractWorker s;
        workers_created := workers_created s;
        terminate_calls := terminate_calls s |}, Val (cancelled (polls s))).

(** Modelled from the spec: [BasePDFProcessor.reset] is not among the
    sources. Section 3 has the progress state reset at the start of each
    run; the processor's own fields are kept. *)
Definition reset {O} : M O unit :=
  fun s =>
    ({| requested := []; emitted := []; polls := 0;
        tesseractWorker := tesseractWorker s;
        workers_created := workers_created s;
        terminate_calls := terminate_calls s |}, Val tt).

End Async.

Declare Scope async_scope.
Delimit Scope async_scope with async.
Notation "x <- m ;; k" := (Async.bind m (fun x => k))
  (at level 100, m at next level, k at level 200, right associativity)
  : async_scope.
Notation "m ;; k" := (Async.bind m (fun _ => k))
  (at level 100, k at level 200, right associativity) : async_scope.

(** ** ocr.ts *)
Module OCR.

Import JS Async.
Local Open Scope string_scope.
Local Open Scope Z_scope.
Local Open Scope async_scope.

Inductive OCRLanguage :=
| eng | chi_sim | chi_tra | jpn | kor | spa | fra | deu | por | ara.

Inductive OutputFormat := text | searchable_pdf.

Record OCROptions := {
  languages : list OCRLanguage;
  scale : Q;
  pages : list Z;
  outputFormat : OutputFormat;
  preserveLayout : bool
}.

Definition DEFAULT_OPTIONS : OCROptions :=
  {| languages := [eng]; scale := 2; pages := [];
     outputFormat := text; preserveLayout := false |}.

Record ProcessInput := { files : list File; options : OCROptions }.

(** A [Blob]: the text it was built from, or the bytes a collaborator
    produced (named by a handle). *)
Inductive Blob := TextBlob (content : string) | BytesBlob (handle : nat).

Record OCRResult := {
  blob : Blob;
  filename : string;
  pageCount : nat;
  meta_languages : list OCRLanguage;
  meta_outputFormat : OutputFormat
}.

Definition Output := ProcessOutput OCRResult.

(** The collaborators of one run. [recognize i p] is what rendering and
    recognising page [p] at loop index [i] does (pdf.js [getPage] and
    [render], then the worker's [recognize]); [terminate k] is the
    outcome of the [k]-th call of the worker's [terminate()]; [savePdf]
    is what loading the original file with pdf-lib, setting its metadata
    and saving it yields. *)
Record Env := {
  cancelled : nat -> bool;
  loadPdfjs : option thrown;
  createWorker : option thrown;
  getDocument : thrown + nat;
  recognize : nat -> Z -> thrown + string;
  terminate : nat -> option thrown;
  savePdf : thrown + nat
}.

Section Processor.

Variable env : Env.

(** [initializeTesseract]: the field is assigned once [createWorker] has
    resolved. *)
Definition initializeTesseract (languages : list OCRLanguage)
    : M Output unit :=
  await_ (createWorker env) ;;
  s <- get ;;
  put {| requested := requested s; emitted := emitted s; polls := polls s;
         tesseractWorker := Some (workers_created s);
         workers_created := S (workers_created s);
         terminate_calls := terminate_calls s |}.

(** [terminateTesseract]: the field is cleared after the awaited
    [terminate()] has resolved. *)
Definition terminateTesseract : M Output unit :=
  s <- get ;;
  match tesseractWorker s with
  | Some _ =>
      put {| requested := requested s;
             emitted := emitted s; polls := polls s;
             tesseractWorker := tesseractWorker s;
             workers_created := workers_created s;
             terminate_calls := S (terminate_calls s) |} ;;
      await_ (terminate env (terminate_calls s)) ;;
      s' <- get ;;
      put {| requested := requested s';
             emitted := emitted s'; polls := polls s';
             tesseractWorker := None;
             workers_created := workers_created s';
             terminate_calls := terminate_calls s' |}
  | None => ret tt
  end.

(** [ocrPage] *)
Definition ocrPage (i : nat) (pageNum : Z) : M Output string :=
  s <- get ;;
  match tesseractWorker s with
  | None => throw (ErrorObj "Tesseract worker not initialized")
  | Some _ => await (recognize env i pageNum)
  end.

Definition cancelledOutput : Output :=
  Failure PROCESSING_CANCELLED "Processing was cancelled." None.

(** The [try]/[catch] inside the page loop: the page's text is pushed,
    or, when [ocrPage] throws, an inline error marker. *)
Definition ocr_or_marker (i : nat) (pageNum : Z) (textResults : list string)
    : M Output (list string) :=
  try_catch
    (pageText <- ocrPage i pageNum ;;
     ret (List.app textResults
            ["--- Page " ++ show pageNum ++ " ---" ++ nl ++ pageText]))
    (fun error =>
       ret (List.app textResults
              ["--- Page " ++ show pageNum ++ " ---" ++ nl
               ++ "[OCR Error: " ++ message_of error ++ "]"])).

(** The page loop of [process]: [i] is the loop index, [rest] the pages
    from [pagesToOCR[i]] on, [textResults] the array pushed to. *)
Fixpoint page_loop (totalPages : nat) (progressPerPage : Q) (i : nat)
    (rest : list Z) (textResults : list string) : M Output (list string) :=
  match rest with
  | [] => ret textResults
  | pageNum :: rest' =>
      c <- checkCancelled (cancelled env) ;;
      if c : bool then
        terminateTesseract ;;
        return_ cancelledOutput
      else
        let pageProgress := (25 + inject_Z (Z.of_nat i) * progressPerPage)%Q in
        updateProgress pageProgress ;;
        textResults' <- ocr_or_marker i pageNum textResults ;;
        page_loop totalPages progressPerPage (S i) rest' textResults'
  end.

(** [createSearchablePDF]: the text results are accepted and not used;
    only the document's metadata is set. *)
Definition createSearchablePDF (originalFile : File)
    (textResults : list string) (options : OCROptions) : M Output nat :=
  await (savePdf env).

(** [file.name.replace(/\.pdf$/i, '')] *)
Definition baseName (file : File) : string :=
  if endsWith ".pdf" (toLowerCase (name file))
  then substring 0 (String.length (name file) - 4) (name file)
  else name file.

(** "Determine which pages to OCR": the value of [pagesToOCR]. *)
Definition select_pages (ocrOptions : OCROptions) (totalPages : nat) : list Z :=
  if (0 <? length (pages ocrOptions))%nat
  then List.filter (fun p => (1 <=? p) && (p <=? Z.of_nat totalPages))
                   (pages ocrOptions)
  else map (fun i => Z.of_nat i + 1) (seq 0 totalPages).

(** [file.type.includes('pdf') || file.name.toLowerCase().endsWith('.pdf')]:
    [process] rejects the file when neither holds. *)
Definition is_pdf (file : File) : bool :=
  includes_str "pdf" (type_ file)
  || endsWith ".pdf" (toLowerCase (name file)).

(** The body of the [try] block of [process]. *)
Definition process_try (file : File) (ocrOptions : OCROptions)
    : M Output Output :=
  updateProgress 5 ;;
  await_ (loadPdfjs env) ;;
  c <- checkCancelled (cancelled env) ;;
  if c : bool then return_ cancelledOutput
  else
    updateProgress 10 ;;
    initializeTesseract (languages ocrOptions) ;;
    updateProgress 20 ;;
    totalPages <- await (getDocument env) ;;
    let pagesToOCR := select_pages ocrOptions totalPages in
    if (length pagesToOCR =? 0)%nat then
      terminateTesseract ;;
      return_ (Failure INVALID_PAGE_RANGE "No valid pages to OCR."
                 (Some ("PDF has " ++ show (Z.of_nat totalPages) ++ " pages.")))
    else
      updateProgress 25 ;;
      let progressPerPage := (70 / inject_Z (Z.of_nat (length pagesToOCR)))%Q in
      textResults <- page_loop totalPages progressPerPage 0 pagesToOCR [] ;;
      terminateTesseract ;;
      updateProgress 95 ;;
      out <-
        match outputFormat ocrOptions with
        | text =>
            let fullText := join (nl ++ nl) textResults in
            ret (TextBlob fullText, baseName file ++ "_ocr.txt")
        | searchable_pdf =>
            h <- createSearchablePDF file textResults ocrOptions ;;
            ret (BytesBlob h, baseName file ++ "_searchable.pdf")
        end ;;
      updateProgress 100 ;;
      ret (Success {| blob := fst out; filename := snd out;
                      pageCount := length pagesToOCR;
                      meta_languages := languages ocrOptions;
                      meta_outputFormat := outputFormat ocrOptions |}).

(** [OCRProcessor.process] *)
Definition process (input : ProcessInput) : M Output Output :=
  reset ;;
  let ocrOptions := options input in
  match files input with
  | [file] =>
      if negb (is_pdf file) then
        ret (Failure FILE_TYPE_INVALID
               "Invalid file type. Please upload a PDF file."
               (Some ("Received: "
                      ++ (if (String.length (type_ file) =? 0)%nat
                          then "unknown" else type_ file))))
      else
        try_catch (process_try file ocrOptions)
          (fun error =>
             terminateTesseract ;;
             ret (Failure PROCESSING_FAILED "Failed to perform OCR on PDF."
                    (Some (message_of error))))
  | _ =>
      ret (Failure INVALID_OPTIONS "Please provide exactly one PDF file."
             (Some ("Received " ++ show (Z.of_nat (length (files input)))
                    ++ " file(s).")))
  end.

End Processor.

(** The [i]-th entry of [textResults] for page [p]. *)
Definition page_entry (env : Env) (i : nat) (p : Z) : string :=
  "--- Page " ++ show p ++ " ---" ++ nl
  ++ match recognize env i p with
     | inr pageText => pageText
     | inl error => "[OCR Error: " ++ message_of error ++ "]"
     end.

(** The entries of [textResults] for the pages [rest], the first of them
    at loop index [i]. *)
Fixpoint page_entries (env : Env) (i : nat) (rest : list Z) : list string :=
  match rest with
  | [] => []
  | p :: rest' => page_entry env i p :: page_entries env (S i) rest'
  end.

End OCR.

(** ** Reasoning about [async] bodies: weakest preconditions *)
Module Logic.

Import Async.

(** [wp m QV QR QE s]: running [m] from [s] ends in a state satisfying
    [QV] if it yields a value, [QR] if it returns from the function and
    [QE] if it throws. *)
Definition wp {O A} (m : M O A) (QV : A -> St -> Prop)
    (QR : O -> St -> Prop) (QE : thrown -> St -> Prop) (s : St) : Prop :=
  match m s with
  | (s', Val a) => QV a s'
  | (s', Ret o) => QR o s'
  | (s', Exc e) => QE e s'
  end.

(** Non-decreasing sequences of percentages. *)
Definition nondecreasing (l : list Q) : Prop :=
  forall i j x y, (i <= j)%nat -> l !! i = Some x -> l !! j = Some y -> (x <= y)%Q.

(** The progress contract: non-decreasing and never above 100. *)
Definition progress_ok (l : list Q) : Prop :=
  nondecreasing l /\ Forall (fun x => (x <= 100)%Q) l.

(** [l] is non-decreasing and bounded by [b], itself at most 100. *)
Definition upto (b : Q) (l : list Q) : Prop :=
  nondecreasing l /\ Forall (fun x => (x <= b)%Q) l /\ (b <= 100)%Q.

(** The callback received, value for value, what the processor passed:
    the clamp of [updateProgress] never changed a percentage. *)
Definition faithful (s : St) : Prop := Forall2 Qeq (requested s) (emitted s).

(** The progress invariant at a point of a run where every percentage
    passed so far is at most [b]. *)
Definition tracked (b : Q) (s : St) : Prop :=
  upto b (emitted s) /\ (0 <= b)%Q /\ faithful s.

(** The session discipline of the OCR processor. *)
Definition closed (s : St) : Prop :=
  tesseractWorker s = None /\ terminate_calls s = workers_created s.

Definition live (s : St) : Prop :=
  tesseractWorker s <> None /\ S (terminate_calls s) = workers_created s.

Definition is_returned {O} (c : completion O) : Prop :=
  match c with Returned _ => True | Rejected _ => False end.

End Logic.

(** ** split.ts: the processor *)
Module SplitPDF.

Import JS Async Split.
Local Open Scope string_scope.
Local Open Scope Z_scope.
Local Open Scope async_scope.

Inductive OutputFormat := multiple | single.

Record SplitOptions := { ranges : list PageRange; outputFormat : OutputFormat }.

Definition DEFAULT_SPLIT_OPTIONS : SplitOptions :=
  {| ranges := []; outputFormat := multiple |}.

Record ProcessInput := { files : list File; options : SplitOptions }.

(** The two shapes of a successful result; a blob is named by the handle
    the save produced. *)
Inductive SplitResult :=
| SingleFile (blob : nat) (filename : string) (pageCount : Z)
    (sourcePageCount : nat)
| MultipleFiles (blobs : list nat) (filename : string) (rangeCount : nat)
    (sourcePageCount : nat) (outputFiles : list string).

Definition Output := ProcessOutput SplitResult.

(** The collaborators of one run: [load] is [PDFDocument.load] and yields
    the page count; [copyAndSave i indices] creates the [i]-th document,
    copies the pages at [indices] into it and saves it. *)
Record Env := {
  cancelled : nat -> bool;
  loadPdfLib : option thrown;
  arrayBuffer : option thrown;
  load : thrown + nat;
  copyAndSave : nat -> list Z -> thrown + nat
}.

Definition getFileNameWithoutExtension (filename : string) : string :=
  match lastIndexOf "." filename with
  | None => filename
  | Some lastDot => substring 0 lastDot filename
  end.

Definition generateSplitFilename (originalName : string) (range : PageRange)
    (rangeIndex : Z) (totalRanges : nat) : string :=
  let baseName := getFileNameWithoutExtension originalName in
  if (totalRanges =? 1)%nat then
    if start range =? end_ range
    then baseName ++ "_page_" ++ show (start range) ++ ".pdf"
    else baseName ++ "_pages_" ++ show (start range) ++ "-"
         ++ show (end_ range) ++ ".pdf"
  else
    if start range =? end_ range
    then baseName ++ "_part" ++ show rangeIndex ++ "_page_"
         ++ show (start range) ++ ".pdf"
    else baseName ++ "_part" ++ show rangeIndex ++ "_pages_"
         ++ show (start range) ++ "-" ++ show (end_ range) ++ ".pdf".

(** [for (pageNum = range.start; pageNum <= range.end; pageNum++)
    pageIndices.push(pageNum - 1)] *)
Definition pageIndices (range : PageRange) : list Z :=
  map (fun k => start range + Z.of_nat k - 1)
      (seq 0 (Z.to_nat (end_ range - start range + 1))).

Definition cancelledOutput : Output :=
  Failure PROCESSING_CANCELLED "Processing was cancelled." None.

Section Processor.

Variable env : Env.

(** The loop over the ranges: [i] is the loop index, [rest] the ranges
    from [ranges[i]] on, [out] the two arrays pushed to. *)
Fixpoint range_loop (file : File) (totalRanges : nat) (progressPerRange : Q)
    (i : nat) (rest : list PageRange) (out : list nat * list string)
    : M Output (list nat * list string) :=
  match rest with
  | [] => ret out
  | range :: rest' =>
      c <- checkCancelled (cancelled env) ;;
      if c : bool then return_ cancelledOutput
      else
        let rangeProgress := (15 + inject_Z (Z.of_nat i) * progressPerRange)%Q in
        updateProgress rangeProgress ;;
        blob <- await (copyAndSave env i (pageIndices range)) ;;
        let filename :=
          generateSplitFilename (name file) range (Z.of_nat i + 1) totalRanges in
        range_loop file totalRanges progressPerRange (S i) rest'
                   (List.app (fst out) [blob], List.app (snd out) [filename])
  end.

(** The body of the [try] block of [process]. *)
Definition process_try (file : File) (splitOptions : SplitOptions)
    : M Output Output :=
  updateProgress 5 ;;
  await_ (loadPdfLib env) ;;
  c <- checkCancelled (cancelled env) ;;
  if c : bool then return_ cancelledOutput
  else
    updateProgress 10 ;;
    await_ (arrayBuffer env) ;;
    totalPages <-
      try_catch (await (load env))
        (fun error =>
           match error with
           | ErrorObj m =>
               if includes_str "encrypt" m
               then return_ (Failure PDF_ENCRYPTED "The PDF file is encrypted."
                               (Some "Please decrypt the file before splitting."))
               else throw error
           | NonError => throw error
           end) ;;
    updateProgress 15 ;;
    match validatePageRanges (ranges splitOptions) (Z.of_nat totalPages) with
    | Some validationError =>
        return_ (Failure INVALID_PAGE_RANGE validationError
                   (Some ("The PDF has " ++ show (Z.of_nat totalPages)
                          ++ " pages.")))
    | None =>
        c <- checkCancelled (cancelled env) ;;
        if c : bool then return_ cancelledOutput
        else
          let n := length (ranges splitOptions) in
          let progressPerRange := (75 / inject_Z (Z.of_nat n))%Q in
          out <- range_loop file n progressPerRange 0 (ranges splitOptions)
                            ([], []) ;;
          updateProgress 95 ;;
          match outputFormat splitOptions, fst out, snd out, ranges splitOptions with
          | single, [blob], filename :: _, range :: _ =>
              updateProgress 100 ;;
              ret (Success (SingleFile blob filename
                              (end_ range - start range + 1) totalPages))
          | _, _, _, _ =>
              updateProgress 100 ;;
              ret (Success (MultipleFiles (fst out) (join ", " (snd out))
                              n totalPages (snd out)))
          end
    end.

(** [SplitPDFProcessor.process] *)
Definition process (input : ProcessInput) : M Output Output :=
  reset ;;
  let splitOptions := options input in
  match files input with
  | [file] =>
      if (length (ranges splitOptions) =? 0)%nat then
        ret (Failure INVALID_OPTIONS
               "At least one page range is required for splitting."
               (Some "Please specify page ranges to extract."))
      else
        try_catch (process_try file splitOptions)
          (fun error =>
             ret (Failure PROCESSING_FAILED "Failed to split PDF file."
                    (Some (message_of error))))
  | _ =>
      ret (Failure INVALID_OPTIONS
             "Exactly 1 PDF file is required for splitting."
             (Some ("Received " ++ show (Z.of_nat (length (files input)))
                    ++ " file(s).")))
  end.

End Processor.

End SplitPDF.

(** ** text-color.ts: the processor *)
Module TextColor.

Import JS Async Recolor.
Local Open Scope string_scope.
Local Open Scope Z_scope.
Local Open Scope async_scope.

(** [pages?: number[] | 'all'] *)
Inductive PageSelection := all | explicit (numbers : list Z).

(** The options after defaulting. *)
Record TextColorOptions := {
  color : Color;
  pages : PageSelection;
  mode : Mode;
  threshold : Q;
  scale : Q
}.

Record ProcessInput := { files : list File; options : TextColorOptions }.

(** A page of the pdf.js document: its size at scale 1 and the RGBA
    bytes the canvas holds after rendering it at a given scale. *)
Record SourcePage := {
  originalWidth : Q;
  originalHeight : Q;
  rendered : Q -> list Z
}.

(** A page of the new document: its size and the image drawn on it. *)
Record OutPage := { out_width : Q; out_height : Q; image : list Z }.

Record TextColorResult := {
  document : list OutPage;
  filename : string;
  pageCount : nat
}.

Definition Output := ProcessOutput TextColorResult.

(** The collaborators of one run: [renderAndEmbed i] is the rendering of
    the [i]-th processed page to the canvas and the conversion of the
    canvas to an embedded PNG. *)
Record Env := {
  cancelled : nat -> bool;
  loadLibraries : option thrown;
  getDocument : thrown + list SourcePage;
  renderAndEmbed : nat -> option thrown;
  save : option thrown
}.

(** pdf.js [getPage]: page numbers outside [1, numPages] are rejected. *)
Definition getPage (pdfjsDoc : list SourcePage) (pageNum : Z)
    : thrown + SourcePage :=
  if (1 <=? pageNum) && (pageNum <=? Z.of_nat (length pdfjsDoc)) then
    match pdfjsDoc !! Z.to_nat (pageNum - 1) with
    | Some page => inr page
    | None => inl (ErrorObj "Invalid page request.")
    end
  else inl (ErrorObj "Invalid page request.").

(** "Determine which pages to process": the value of [pagesToProcess]. *)
Definition select_pages (textOptions : TextColorOptions) (totalPages : nat)
    : list Z :=
  match pages textOptions with
  | all => map (fun i => Z.of_nat i + 1) (seq 0 totalPages)
  | explicit numbers => numbers
  end.

(** What the loop body adds to the new document for a source page. *)
Definition recolored_page (textOptions : TextColorOptions) (page : SourcePage)
    : OutPage :=
  let renderScale :=
    if Qeq_bool (scale textOptions) 0 then 3%Q else scale textOptions in
  {| out_width := originalWidth page;
     out_height := originalHeight page;
     image := recolor (mode textOptions) (threshold textOptions)
                      (color textOptions) (rendered page renderScale) |}.

(** The page pdf-lib's [addPage()] makes when it is given no size:
    [PageSizes.A4], with nothing drawn on it. *)
Definition blank_page : OutPage :=
  {| out_width := 59528 # 100; out_height := 84189 # 100; image := [] |}.

(** The pages of the file pdf-lib's [save()] writes. The code passes
    [useObjectStreams] only, so [addDefaultPage] has its default [true]: a
    document without pages is given one blank page before it is
    serialised. *)
Definition saved (newPdf : list OutPage) : list OutPage :=
  match newPdf with
  | [] => [blank_page]
  | _ => newPdf
  end.

Definition cancelledOutput : Output :=
  Failure PROCESSING_CANCELLED "Processing was cancelled." None.

Section Processor.

Variable env : Env.

(** The page loop: [i] is the loop index, [rest] the entries from
    [pagesToProcess[i]] on, [newPdf] the pages added so far. *)
Fixpoint page_loop (textOptions : TextColorOptions)
    (pdfjsDoc : list SourcePage) (count : nat) (i : nat) (rest : list Z)
    (newPdf : list OutPage) : M Output (list OutPage) :=
  match rest with
  | [] => ret newPdf
  | pageNum :: rest' =>
      c <- checkCancelled (cancelled env) ;;
      if c : bool then return_ cancelledOutput
      else
        let progressPercent :=
          (15 + 75 * (inject_Z (Z.of_nat i) / inject_Z (Z.of_nat count)))%Q in
        updateProgress progressPercent ;;
        page <- await (getPage pdfjsDoc pageNum) ;;
        await_ (renderAndEmbed env i) ;;
        page_loop textOptions pdfjsDoc count (S i) rest'
                  (List.app newPdf [recolored_page textOptions page])
  end.

(** The body of the [try] block of [process]. *)
Definition process_try (file : File) (textOptions : TextColorOptions)
    : M Output Output :=
  updateProgress 5 ;;
  await_ (loadLibraries env) ;;
  updateProgress 10 ;;
  pdfjsDoc <- await (getDocument env) ;;
  let totalPages := length pdfjsDoc in
  let pagesToProcess := select_pages textOptions totalPages in
  updateProgress 15 ;;
  newPdf <- page_loop textOptions pdfjsDoc (length pagesToProcess) 0
                      pagesToProcess [] ;;
  updateProgress 95 ;;
  await_ (save env) ;;
  updateProgress 100 ;;
  ret (Success {| document := saved newPdf;
                  filename := replace_first ".pdf" "_textcolor.pdf" (name file);
                  pageCount := length pagesToProcess |}).

(** [TextColorProcessor.process] *)
Definition process (input : ProcessInput) : M Output Output :=
  reset ;;
  match files input with
  | [file] =>
      try_catch (process_try file (options input))
        (fun error =>
           ret (Failure PROCESSING_FAILED "Failed to change text color."
                  (Some (message_of error))))
  | _ => ret (Failure INVALID_OPTIONS "Exactly 1 PDF file is required." None)
  end.

End Processor.

End TextColor.

(** ** background-color.ts *)
Module BackgroundColor.

Import JS Async.
Local Open Scope string_scope.
Local Open Scope Z_scope.
Local Open Scope async_scope.

Inductive PageSelection := all | explicit (numbers : list Z).

Record BackgroundColorOptions := {
  color : Q * Q * Q;
  pages : PageSelection;
  opacity : Q
}.

Record ProcessInput := { files : list File; options : BackgroundColorOptions }.

(** A page of the new document: its size and whether the background
    rectangle was drawn under the embedded source page. *)
Record OutPage := { out_width : Q; out_height : Q; tinted : bool }.

Record BackgroundResult := {
  document : list OutPage;
  filename : string;
  pageCount : nat
}.

Definition Output := ProcessOutput BackgroundResult.

(** The collaborators of one run: [load] yields the sizes of the source
    pages. *)
Record Env := {
  cancelled : nat -> bool;
  loadPdfLib : option thrown;
  load : thrown + list (Q * Q);
  embedPages : option thrown;
  save : option thrown
}.

(** The value of [pagesToProcess]: 0-based indices. *)
Definition select_pages (bgOptions : BackgroundColorOptions)
    (totalPages : nat) : list Z :=
  match pages bgOptions with
  | all => map Z.of_nat (seq 0 totalPages)
  | explicit numbers => map (fun p => p - 1) numbers
  end.

(** [pagesToProcess.includes(i)] *)
Definition includes_index (pagesToProcess : list Z) (i : nat) : bool :=
  existsb (fun q => q =? Z.of_nat i) pagesToProcess.

Definition cancelledOutput : Output :=
  Failure PROCESSING_CANCELLED "Processing was cancelled." None.

Section Processor.

Variable env : Env.

(** The loop over all source pages: [i] is the loop index, [rest] the
    sizes of the pages from [sourcePages[i]] on. *)
Fixpoint page_loop (pagesToProcess : list Z) (totalPages : nat) (i : nat)
    (rest : list (Q * Q)) (newPdf : list OutPage) : M Output (list OutPage) :=
  match rest with
  | [] => ret newPdf
  | (width, height) :: rest' =>
      c <- checkCancelled (cancelled env) ;;
      if c : bool then return_ cancelledOutput
      else
        let newPage :=
          {| out_width := width; out_height := height;
             tinted := includes_index pagesToProcess i |} in
        updateProgress
          (40 + 50 * (inject_Z (Z.of_nat i) + 1)
                / inject_Z (Z.of_nat totalPages))%Q ;;
        page_loop pagesToProcess totalPages (S i) rest'
                  (List.app newPdf [newPage])
  end.

Definition process_try (file : File) (bgOptions : BackgroundColorOptions)
    : M Output Output :=
  updateProgress 10 ;;
  await_ (loadPdfLib env) ;;
  updateProgress 20 ;;
  sourcePages <- await (load env) ;;
  let totalPages := length sourcePages in
  let pagesToProcess := select_pages bgOptions totalPages in
  updateProgress 30 ;;
  await_ (embedPages env) ;;
  updateProgress 40 ;;
  newPdf <- page_loop pagesToProcess totalPages 0 sourcePages [] ;;
  updateProgress 95 ;;
  await_ (save env) ;;
  updateProgress 100 ;;
  ret (Success {| document := newPdf;
                  filename := replace_first ".pdf" "_background.pdf" (name file);
                  pageCount := totalPages |}).

(** [BackgroundColorProcessor.process] *)
Definition process (input : ProcessInput) : M Output Output :=
  reset ;;
  match files input with
  | [file] =>
      try_catch (process_try file (options input))
        (fun error =>
           ret (Failure PROCESSING_FAILED "Failed to add background color."
                  (Some (message_of error))))
  | _ => ret (Failure INVALID_OPTIONS "Exactly 1 PDF file is required." None)
  end.

End Processor.

End BackgroundColor.

(** ** Concrete runs used as witnesses and counterexamples *)
Module Examples.

Import JS Async.
Local Open Scope string_scope.

Definition pdf_file : File :=
  {| name := "scan.pdf"; type_ := "application/pdf" |}.

Definition ocr_input : OCR.ProcessInput :=
  {| OCR.files := [pdf_file]; OCR.options := OCR.DEFAULT_OPTIONS |}.

(** A three-page document; recognising page 2 throws; everything else,
    [terminate()] included, resolves. *)
Definition ocr_page2_fails : OCR.Env :=
  {| OCR.cancelled := fun _ => false;
     OCR.loadPdfjs := None;
     OCR.createWorker := None;
     OCR.getDocument := inr 3%nat;
     OCR.recognize := fun _ p =>
       if (p =? 2)%Z then inl (ErrorObj "render failed") else inr "text";
     OCR.terminate := fun _ => None;
     OCR.savePdf := inr 0%nat |}.

(** The same document with every page recognised and nothing failing. *)
Definition ocr_all_recognised : OCR.Env :=
  {| OCR.cancelled := fun _ => false;
     OCR.loadPdfjs := None;
     OCR.createWorker := None;
     OCR.getDocument := inr 3%nat;
     OCR.recognize := fun _ _ => inr "text";
     OCR.terminate := fun _ => None;
     OCR.savePdf := inr 0%nat |}.

(** The default options, but the searchable-PDF output format. *)
Definition ocr_input_searchable : OCR.ProcessInput :=
  {| OCR.files := [pdf_file];
     OCR.options :=
       {| OCR.languages := [OCR.eng]; OCR.scale := 2; OCR.pages := [];
          OCR.outputFormat := OCR.searchable_pdf;
          OCR.preserveLayout := false |} |}.

(** The same document with every page recognised, but the worker's first
    [terminate()] call rejects and the second resolves. *)
Definition ocr_terminate_rejects_once : OCR.Env :=
  {| OCR.cancelled := fun _ => false;
     OCR.loadPdfjs := None;
     OCR.createWorker := None;
     OCR.getDocument := inr 3%nat;
     OCR.recognize := fun _ _ => inr "text";
     OCR.terminate := fun k =>
       if (k =? 0)%nat then Some (ErrorObj "worker gone") else None;
     OCR.savePdf := inr 0%nat |}.

(** A three-page source document of one-pixel pages, and runs of the
    three page-selecting processors on the selection [1, 5]. *)
Definition one_pixel (r g b : Z) : TextColor.SourcePage :=
  {| TextColor.originalWidth := 612; TextColor.originalHeight := 792;
     TextColor.rendered := fun _ => [r; g; b; 255] |}.

Definition three_pages : list TextColor.SourcePage :=
  [one_pixel 0 0 0; one_pixel 255 255 255; one_pixel 90 90 90].

Definition textcolor_env : TextColor.Env :=
  {| TextColor.cancelled := fun _ => false;
     TextColor.loadLibraries := None;
     TextColor.getDocument := inr three_pages;
     TextColor.renderAndEmbed := fun _ => None;
     TextColor.save := None |}.

Definition textcolor_input (numbers : list Z) : TextColor.ProcessInput :=
  {| TextColor.files := [pdf_file];
     TextColor.options :=
       {| TextColor.color := {| Recolor.r := 1; Recolor.g := 0; Recolor.b := 0 |};
          TextColor.pages := TextColor.explicit numbers;
          TextColor.mode := Recolor.dark;
          TextColor.threshold := 128;
          TextColor.scale := 3 |} |}.

Definition background_env : BackgroundColor.Env :=
  {| BackgroundColor.cancelled := fun _ => false;
     BackgroundColor.loadPdfLib := None;
     BackgroundColor.load := inr [(612, 792); (612, 792); (612, 792)]%Q;
     BackgroundColor.embedPages := None;
     BackgroundColor.save := None |}.

Definition background_input (numbers : list Z) : BackgroundColor.ProcessInput :=
  {| BackgroundColor.files := [pdf_file];
     BackgroundColor.options :=
       {| BackgroundColor.color := (1, 1, 9 # 10)%Q;
          BackgroundColor.pages := BackgroundColor.explicit numbers;
          BackgroundColor.opacity := 1 |} |}.

Definition ocr_input_pages (numbers : list Z) : OCR.ProcessInput :=
  {| OCR.files := [pdf_file];
     OCR.options :=
       {| OCR.languages := [OCR.eng]; OCR.scale := 2; OCR.pages := numbers;
          OCR.outputFormat := OCR.text; OCR.preserveLayout := false |} |}.

End Examples.

(** ** split.ts: the range generators *)
Module SplitGen.

Import JS Split.
Local Open Scope Z_scope.

(** The loop of [createSplitEveryNPages]:
    [for (let start = 1; start <= totalPages; start += n)]. [fuel] bounds
    the number of loop tests made; [None] means the loop is still running
    when the fuel is spent. *)
Fixpoint everyN_loop (fuel : nat) (start totalPages n : Z)
    (ranges : list PageRange) : option (list PageRange) :=
  match fuel with
  | O => None
  | S fuel' =>
      if start <=? totalPages then
        let end_ := Z.min (start + n - 1) totalPages in
        everyN_loop fuel' (start + n) totalPages n
          (ranges ++ [{| Split.start := start; Split.end_ := end_ |}])
      else Some ranges
  end.

(** [createSplitEveryNPages]: one loop test per page and a last one are
    enough whenever the loop ends at all. *)
Definition createSplitEveryNPages (totalPages n : Z)
    : option (list PageRange) :=
  everyN_loop (S (Z.to_nat totalPages)) 1 totalPages n [].

(** [createSplitEveryPage] *)
Definition createSplitEveryPage (totalPages : Z) : option (list PageRange) :=
  createSplitEveryNPages totalPages 1.

End SplitGen.

(** ** What a successful split consists of *)
Module SplitOutcome.

Import JS Async Split SplitPDF.
Local Open Scope Z_scope.

(** The blobs and the file names a result carries, in order. *)
Definition result_blobs (r : SplitResult) : list nat :=
  match r with
  | SingleFile blob _ _ _ => [blob]
  | MultipleFiles blobs _ _ _ _ => blobs
  end.

Definition result_files (r : SplitResult) : list string :=
  match r with
  | SingleFile _ filename _ _ => [filename]
  | MultipleFiles _ _ _ _ outputFiles => outputFiles
  end.

Definition result_sourcePageCount (r : SplitResult) : nat :=
  match r with
  | SingleFile _ _ _ n => n
  | MultipleFiles _ _ _ n _ => n
  end.

(** The blobs obtained by copying the pages of the ranges [rest], the
    first of them at loop index [i], when every copy resolves. *)
Fixpoint copies (env : Env) (i : nat) (rest : list PageRange)
    : option (list nat) :=
  match rest with
  | [] => Some []
  | range :: rest' =>
      match copyAndSave env i (pageIndices range), copies env (S i) rest' with
      | inr blob, Some blobs => Some (blob :: blobs)
      | _, _ => None
      end
  end.

(** The file names of the ranges [rest], the first of them at loop index
    [i]. *)
Fixpoint filenames_from (file : File) (totalRanges : nat) (i : nat)
    (rest : list PageRange) : list string :=
  match rest with
  | [] => []
  | range :: rest' =>
      generateSplitFilename (name file) range (Z.of_nat i + 1) totalRanges
      :: filenames_from file totalRanges (S i) rest'
  end.

End SplitOutcome.

(** ** Concrete split runs *)
Module SplitExamples.

Import JS Async Split.
Local Open Scope string_scope.

(** A twelve-page document; the handle of a saved blob is the number of
    pages copied into it. *)
Definition twelve_pages : SplitPDF.Env :=
  {| SplitPDF.cancelled := fun _ => false;
     SplitPDF.loadPdfLib := None;
     SplitPDF.arrayBuffer := None;
     SplitPDF.load := inr 12%nat;
     SplitPDF.copyAndSave := fun _ indices => inr (length indices) |}.

Definition split_input (ranges : list PageRange) : SplitPDF.ProcessInput :=
  {| SplitPDF.files := [{| name := "doc.pdf"; type_ := "application/pdf" |}];
     SplitPDF.options :=
       {| SplitPDF.ranges := ranges; SplitPDF.outputFormat := SplitPDF.multiple |} |}.

End SplitExamples.

(** ** Cancellation polls *)
Module Polls.

Import Async.

(** No poll made so far in the run found the cancellation flag set. *)
Definition polls_clean (cancelled : nat -> bool) (s : St) : Prop :=
  forall k, (k < polls s)%nat -> cancelled k = false.

End Polls.

(** ** What the background job writes *)
Module BackgroundOutcome.

Import BackgroundColor.

(** The pages the loop adds for the source pages [rest], the first of
    them at loop index [i]. *)
Fixpoint pages_from (pagesToProcess : list Z) (i : nat) (rest : list (Q * Q))
    : list OutPage :=
  match rest with
  | [] => []
  | (width, height) :: rest' =>
      {| out_width := width; out_height := height;
         tinted := includes_index pagesToProcess i |}
      :: pages_from pagesToProcess (S i) rest'
  end.

End BackgroundOutcome.

(** ** Further sample runs *)
Module MoreExamples.

(** The text-colour job of [Examples.textcolor_input] on all pages. *)
Definition textcolor_input_all : TextColor.ProcessInput :=
  {| TextColor.files := [Examples.pdf_file];
     TextColor.options :=
       {| TextColor.color := {| Recolor.r := 1; Recolor.g := 0; Recolor.b := 0 |};
          TextColor.pages := TextColor.all;
          TextColor.mode := Recolor.dark;
          TextColor.threshold := 128;
          TextColor.scale := 3 |} |}.

End MoreExamples.

(** ** The image-to-PDF job *)
Module ImageToPDFProcessor.

Import JS Async ImageToPDF.
Local Open Scope string_scope.
Local Open Scope Z_scope.
Local Open Scope async_scope.

Definition SUPPORTED_MIME_TYPES : list string :=
  ["image/jpeg"; "image/png"; "image/webp"; "image/bmp"; "image/tiff";
   "image/svg+xml"; "image/heic"; "image/heif"].

Definition SUPPORTED_EXTENSIONS : list string :=
  [".jpg"; ".jpeg"; ".png"; ".webp"; ".bmp";
   ".tiff"; ".tif"; ".svg"; ".heic"; ".heif"].

(** [xs.includes(x)] on an array of strings. *)
Definition includes_string (xs : list string) (x : string) : bool :=
  existsb (String.eqb x) xs.

(** [name.split('.').pop()]: the part after the last dot, the whole name
    when it has no dot. *)
Definition pop_ext (name : string) : string :=
  List.last (split "." name) EmptyString.

(** [isValidImageFile] *)
Definition isValidImageFile (file : File) : bool :=
  if includes_string SUPPORTED_MIME_TYPES (type_ file) then true
  else
    let ext := "." ++ toLowerCase (pop_ext (name file)) in
    includes_string SUPPORTED_EXTENSIONS ext.

(** The three ways [addImageToDocument] embeds a file. *)
Inductive EmbedKind :=
| embedJpg
| embedPng
| convertAndEmbedImage (scale : Q).

(** The branch [addImageToDocument] takes for a file. *)
Definition embed_kind (file : File) (options : ImageToPDFOptions) : EmbedKind :=
  let fileType := toLowerCase (type_ file) in
  let ext := toLowerCase (pop_ext (name file)) in
  if String.eqb fileType "image/jpeg" || String.eqb ext "jpg"
     || String.eqb ext "jpeg" then embedJpg
  else if String.eqb fileType "image/png" || String.eqb ext "png" then embedPng
  else
    let isSvg := String.eqb fileType "image/svg+xml" || String.eqb ext "svg" in
    convertAndEmbedImage (if isSvg then svgScale options else 1%Q).

(** A page of the new document: its size, and the image drawn on it. *)
Record Page := {
  page_size : PageDimensions;
  drawn : Placement;
  embedded_by : EmbedKind
}.

Record ImageResult := {
  document : list Page;
  filename : string;
  pageCount : nat;
  imageCount : nat
}.

Definition Output := ProcessOutput ImageResult.

Record ProcessInput := { files : list File; options : ImageToPDFOptions }.

(** The collaborators of one run: [arrayBuffer i] reads the [i]-th file,
    [embed i kind] embeds it and yields the embedded image's size. *)
Record Env := {
  cancelled : nat -> bool;
  loadPdfLib : option thrown;
  createDocument : option thrown;
  arrayBuffer : nat -> option thrown;
  embed : nat -> EmbedKind -> thrown + Size;
  save : option thrown
}.

(** [name.replace(/\.[^/.]+$/, '')]: a last dot followed by at least one
    character, none of them a slash, is cut off with what follows it. *)
Definition strip_extension (name : string) : string :=
  match lastIndexOf "." name with
  | Some lastDot =>
      let ext := drop_chars (S lastDot) name in
      if (0 <? String.length ext)%nat
         && string_forallb (fun c => negb (Ascii.eqb c "/")) ext
      then substring 0 lastDot name
      else name
  | None => name
  end.

(** [generateOutputFilename] *)
Definition generateOutputFilename (files : list File) : string :=
  match files with
  | [file] => strip_extension (name file) ++ ".pdf"
  | _ => "images_" ++ show (Z.of_nat (length files)) ++ "_pages.pdf"
  end.

(** The double quote of the template literal. *)
Definition dquote : string := String (ascii_of_N 34) EmptyString.

Definition cancelledOutput : Output :=
  Failure PROCESSING_CANCELLED "Processing was cancelled." None.

Section Processor.

Variable env : Env.

(** [addImageToDocument] for the file at index [i]: the document with
    the new page. *)
Definition addImageToDocument (i : nat) (pdfDoc : list Page) (file : File)
    (options : ImageToPDFOptions) : M Output (list Page) :=
  await_ (arrayBuffer env i) ;;
  let kind := embed_kind file options in
  image <- await (embed env i kind) ;;
  let d := calculatePageDimensions (width image) (height image) options in
  let p := calculateImagePlacement (width image) (height image)
             (pageWidth d) (pageHeight d) options in
  ret (List.app pdfDoc
         [{| page_size := d; drawn := p; embedded_by := kind |}]).

(** The loop over the files: [i] is the loop index, [rest] the files
    from [files[i]] on. *)
Fixpoint file_loop (options : ImageToPDFOptions) (progressPerFile : Q)
    (i : nat) (rest : list File) (pdfDoc : list Page)
    : M Output (list Page) :=
  match rest with
  | [] => ret pdfDoc
  | file :: rest' =>
      c <- checkCancelled (cancelled env) ;;
      if c : bool then return_ cancelledOutput
      else
        let fileProgress := (10 + inject_Z (Z.of_nat i) * progressPerFile)%Q in
        updateProgress fileProgress ;;
        pdfDoc' <-
          try_catch (addImageToDocument i pdfDoc file options)
            (fun error =>
               return_ (Failure PROCESSING_FAILED
                          ("Failed to process image " ++ dquote ++ name file
                           ++ dquote ++ ".")
                          (Some (message_of error)))) ;;
        file_loop options progressPerFile (S i) rest' pdfDoc'
  end.

(** The body of the [try] block of [process]. *)
Definition process_try (files : list File) (pdfOptions : ImageToPDFOptions)
    : M Output Output :=
  updateProgress 5 ;;
  await_ (loadPdfLib env) ;;
  c <- checkCancelled (cancelled env) ;;
  if c : bool then return_ cancelledOutput
  else
    updateProgress 10 ;;
    await_ (createDocument env) ;;
    let progressPerFile := (80 / inject_Z (Z.of_nat (length files)))%Q in
    pdfDoc <- file_loop pdfOptions progressPerFile 0 files [] ;;
    updateProgress 95 ;;
    await_ (save env) ;;
    updateProgress 100 ;;
    let outputFilename := generateOutputFilename files in
    ret (Success {| document := pdfDoc; filename := outputFilename;
                    pageCount := length files;
                    imageCount := length files |}).

(** [ImageToPDFProcessor.process] *)
Definition process (input : ProcessInput) : M Output Output :=
  reset ;;
  let pdfOptions := options input in
  if (length (files input) <? 1)%nat then
    ret (Failure INVALID_OPTIONS "At least 1 image file is required."
           (Some ("Received " ++ show (Z.of_nat (length (files input)))
                  ++ " file(s).")))
  else
    match List.find (fun file => negb (isValidImageFile file)) (files input) with
    | Some file =>
        ret (Failure FILE_TYPE_INVALID ("Invalid file type: " ++ name file)
               (Some "Supported formats: JPG, PNG, WebP, BMP, TIFF, SVG, HEIC"))
    | None =>
        try_catch (process_try (files input) pdfOptions)
          (fun error =>
             ret (Failure PROCESSING_FAILED "Failed to convert images to PDF."
                    (Some (message_of error))))
    end.

End Processor.

(** The page the job makes for an embedded image of size [image]. *)
Definition page_for (options : ImageToPDFOptions) (kind : EmbedKind)
    (image : Size) : Page :=
  let d := calculatePageDimensions (width image) (height image) options in
  {| page_size := d;
     drawn := calculateImagePlacement (width image) (height image)
                (pageWidth d) (pageHeight d) options;
     embedded_by := kind |}.

(** The sizes of the images embedded for the files [rest], the first of
    them at loop index [i]; [None] when reading or embedding one fails. *)
Fixpoint embedded_from (env : Env) (options : ImageToPDFOptions) (i : nat)
    (rest : list File) : option (list Page) :=
  match rest with
  | [] => Some []
  | file :: rest' =>
      match arrayBuffer env i, embed env i (embed_kind file options) with
      | None, inr image =>
          match embedded_from env options (S i) rest' with
          | Some pages =>
              Some (page_for options (embed_kind file options) image :: pages)
          | None => None
          end
      | _, _ => None
      end
  end.

End ImageToPDFProcessor.

(** ** Sample image jobs *)
Module ImageExamples.

Import ImageToPDF ImageToPDFProcessor.

Definition photo : Async.File :=
  {| Async.name := "photo.jpg"; Async.type_ := "image/jpeg" |}.

Definition scan : Async.File :=
  {| Async.name := "scan.PNG"; Async.type_ := EmptyString |}.

(** Both images embed: the first is 1000 x 500, the second 300 x 400. *)
Definition two_images : Env :=
  {| cancelled := fun _ => false;
     loadPdfLib := None;
     createDocument := None;
     arrayBuffer := fun _ => None;
     embed := fun i _ =>
       inr (if (i =? 0)%nat then {| width := 1000; height := 500 |}
            else {| width := 300; height := 400 |});
     save := None |}.

(** The second image cannot be decoded. *)
Definition second_image_broken : Env :=
  {| cancelled := fun _ => false;
     loadPdfLib := None;
     createDocument := None;
     arrayBuffer := fun _ => None;
     embed := fun i _ =>
       if (i =? 0)%nat then inr {| width := 1000; height := 500 |}
       else inl (Async.ErrorObj "Input is not a PNG file");
     save := None |}.

Definition image_input : ProcessInput :=
  {| files := [photo; scan]; options := DEFAULT_OPTIONS |}.

End ImageExamples.

(** ** The remove-annotations job *)
Module RemoveAnnotations.

Import JS Async.
Local Open Scope string_scope.
Local Open Scope Z_scope.
Local Open Scope async_scope.

(** [pages?: number[] | 'all'] *)
Inductive PageSelection := all | explicit (numbers : list Z).

(** The options after defaulting ([removeAll: true], [pages: 'all']). *)
Record RemoveAnnotationsOptions := {
  removeComments : option bool;
  removeHighlights : option bool;
  removeLinks : option bool;
  removeAll : bool;
  pages : PageSelection
}.

Record ProcessInput := {
  files : list File;
  options : RemoveAnnotationsOptions
}.

(** A page of the document, as far as the job looks at it: the entry
    [Annots] of its dictionary, if it has one. *)
Definition PageNode := option nat.

Record RemoveResult := {
  document : list PageNode;
  filename : string;
  pageCount : nat;
  pagesProcessed : nat
}.

Definition Output := ProcessOutput RemoveResult.

(** The collaborators of one run. [getPageError i] is what pdf-lib's
    [getPage] throws for an index [i] outside the document. *)
Record Env := {
  cancelled : nat -> bool;
  loadPdfLib : option thrown;
  arrayBuffer : option thrown;
  load : thrown + list PageNode;
  getPageError : Z -> thrown;
  save : option thrown
}.

(** The value of [pagesToProcess]: 0-based indices. *)
Definition select_pages (removeOptions : RemoveAnnotationsOptions)
    (totalPages : nat) : list Z :=
  match pages removeOptions with
  | all => map Z.of_nat (seq 0 totalPages)
  | explicit numbers => map (fun p => p - 1) numbers
  end.

Definition cancelledOutput : Output :=
  Failure PROCESSING_CANCELLED "Processing was cancelled." None.

Section Processor.

Variable env : Env.

(** pdf-lib's [getPage]: indices outside the document are rejected. *)
Definition getPage (pdf : list PageNode) (pageIndex : Z)
    : thrown + PageNode :=
  if (0 <=? pageIndex) && (pageIndex <? Z.of_nat (length pdf)) then
    match pdf !! Z.to_nat pageIndex with
    | Some page => inr page
    | None => inl (getPageError env pageIndex)
    end
  else inl (getPageError env pageIndex).

(** [page.node.delete(PDFName.of('Annots'))] on the page at [pageIndex]. *)
Definition delete_Annots (pdf : list PageNode) (pageIndex : Z)
    : list PageNode :=
  <[Z.to_nat pageIndex := None]> pdf.

(** The page loop: [i] is the loop index, [rest] the entries from
    [pagesToProcess[i]] on; the state is the document and
    [removedCount]. *)
Fixpoint page_loop (removeOptions : RemoveAnnotationsOptions) (count : nat)
    (i : nat) (rest : list Z) (pdf : list PageNode) (removedCount : nat)
    : M Output (list PageNode * nat) :=
  match rest with
  | [] => ret (pdf, removedCount)
  | pageIndex :: rest' =>
      c <- checkCancelled (cancelled env) ;;
      if c : bool then return_ cancelledOutput
      else
        annots <- await (getPage pdf pageIndex) ;;
        let '(pdf', removedCount') :=
          match annots with
          | Some _ =>
              if removeAll removeOptions
              then (delete_Annots pdf pageIndex, S removedCount)
              else (delete_Annots pdf pageIndex, S removedCount)
          | None => (pdf, removedCount)
          end in
        updateProgress
          (30 + 60 * (inject_Z (Z.of_nat i) + 1)
                / inject_Z (Z.of_nat count))%Q ;;
        page_loop removeOptions count (S i) rest' pdf' removedCount'
  end.

(** The body of the [try] block of [process]. *)
Definition process_try (file : File) (removeOptions : RemoveAnnotationsOptions)
    : M Output Output :=
  updateProgress 10 ;;
  await_ (loadPdfLib env) ;;
  updateProgress 20 ;;
  await_ (arrayBuffer env) ;;
  pdf <- await (load env) ;;
  let totalPages := length pdf in
  let pagesToProcess := select_pages removeOptions totalPages in
  updateProgress 30 ;;
  out <- page_loop removeOptions (length pagesToProcess) 0 pagesToProcess
                   pdf 0 ;;
  updateProgress 95 ;;
  await_ (save env) ;;
  updateProgress 100 ;;
  ret (Success {| document := fst out;
                  filename := replace_first ".pdf" "_no_annotations.pdf"
                                (name file);
                  pageCount := totalPages;
                  pagesProcessed := length pagesToProcess |}).

(** [RemoveAnnotationsProcessor.process] *)
Definition process (input : ProcessInput) : M Output Output :=
  reset ;;
  match files input with
  | [file] =>
      try_catch (process_try file (options input))
        (fun error =>
           ret (Failure PROCESSING_FAILED "Failed to remove annotations."
                  (Some (message_of error))))
  | _ => ret (Failure INVALID_OPTIONS "Exactly 1 PDF file is required." None)
  end.

End Processor.

(** Whether the 0-based index [i] is among the indices processed. *)
Definition listed (pagesToProcess : list Z) (i : nat) : bool :=
  existsb (fun q => q =? Z.of_nat i) pagesToProcess.

End RemoveAnnotations.

(** ** Sample remove-annotations jobs *)
Module RemoveExamples.

Import RemoveAnnotations.

(** A three-page document whose first and third page carry annotations. *)
Definition annotated : Env :=
  {| cancelled := fun _ => false;
     loadPdfLib := None;
     arrayBuffer := None;
     load := inr [Some 7%nat; None; Some 9%nat];
     getPageError := fun _ => Async.ErrorObj "index out of range";
     save := None |}.

Definition remove_input (removeAll : bool) (numbers : list Z) : ProcessInput :=
  {| files := [Examples.pdf_file];
     options := {| removeComments := None; removeHighlights := None;
                   removeLinks := None; removeAll := removeAll;
                   pages := explicit numbers |} |}.

End RemoveExamples.

(** ** The form-creator job *)
Module FormCreator.

Import JS Async.
Local Open Scope string_scope.
Local Open Scope Z_scope.
Local Open Scope async_scope.

(** [type: 'text' | 'checkbox' | 'dropdown' | 'radio'] *)
Inductive FieldType := text | checkbox | dropdown | radio.

(** [defaultValue?: string | boolean] *)
Inductive DefaultValue := DString (s : string) | DBool (b : bool).

Record FormField := {
  type : FieldType;
  name : string;
  pageNumber : Z;
  x : Q;
  y : Q;
  width : Q;
  height : Q;
  options : option (list string);
  defaultValue : option DefaultValue;
  required : option bool;
  multiline : option bool
}.

Record FormCreatorOptions := { fields : list FormField }.

Record ProcessInput := {
  files : list File;
  formOptions : FormCreatorOptions
}.

(** [if (fieldDef.defaultValue)]: the empty string, [false] and a missing
    value are falsy. *)
Definition truthy (v : option DefaultValue) : bool :=
  match v with
  | Some (DString s) => negb (String.eqb s EmptyString)
  | Some (DBool b) => b
  | None => false
  end.

(** [String(fieldDef.defaultValue)] *)
Definition String_ (v : option DefaultValue) : string :=
  match v with
  | Some (DString s) => s
  | Some (DBool true) => "true"
  | Some (DBool false) => "false"
  | None => "undefined"
  end.

(** The calls the job makes on pdf-lib's form API. *)
Inductive FormCall :=
| createTextField (name : string)
| createCheckBox (name : string)
| createDropdown (name : string)
| createRadioGroup (name : string)
| addToPage (pageIndex : Z) (x y width height : Q)
| setText (value : string)
| enableMultiline
| check
| addOptions (options : list string)
| select (value : string)
| addOptionToPage (option : string) (pageIndex : Z) (x y width height : Q).

Record FormResult := {
  form : list FormCall;
  filename : string;
  fieldsCreated : nat
}.

Definition Output := ProcessOutput FormResult.

(** The collaborators of one run: [call i j c] is the outcome of the
    [j]-th form call [c] made for the field at index [i]. *)
Record Env := {
  cancelled : nat -> bool;
  loadPdfLib : option thrown;
  arrayBuffer : option thrown;
  load : thrown + nat;
  getForm : option thrown;
  call : nat -> nat -> FormCall -> option thrown;
  save : option thrown
}.

(** [fieldDef.options.forEach((option, idx) => radioGroup.addOptionToPage
    (option, page, { x, y: y - idx * (height + 5), width, height }))] *)
Fixpoint radio_options (fieldDef : FormField) (pageIndex : Z) (idx : nat)
    (opts : list string) : list FormCall :=
  match opts with
  | [] => []
  | option :: opts' =>
      addOptionToPage option pageIndex (x fieldDef)
        (y fieldDef - inject_Z (Z.of_nat idx) * (height fieldDef + 5))%Q
        (width fieldDef) (height fieldDef)
      :: radio_options fieldDef pageIndex (S idx) opts'
  end.

(** The calls of the [switch] for a field, in order. *)
Definition field_calls (fieldDef : FormField) (pageIndex : Z) : list FormCall :=
  let place :=
    addToPage pageIndex (x fieldDef) (y fieldDef) (width fieldDef)
              (height fieldDef) in
  match type fieldDef with
  | text =>
      (createTextField (name fieldDef) :: place
       :: (if truthy (defaultValue fieldDef)
           then [setText (String_ (defaultValue fieldDef))] else [])
       ++ (match multiline fieldDef with
           | Some true => [enableMultiline]
           | _ => []
           end))%list
  | checkbox =>
      (createCheckBox (name fieldDef) :: place
       :: (if truthy (defaultValue fieldDef) then [check] else []))%list
  | dropdown =>
      (createDropdown (name fieldDef) :: place
       :: (match options fieldDef with
           | Some opts =>
               addOptions opts
               :: (if truthy (defaultValue fieldDef)
                   then [select (String_ (defaultValue fieldDef))] else [])
           | None => []
           end))%list
  | radio =>
      (createRadioGroup (name fieldDef)
       :: (match options fieldDef with
           | Some opts =>
               radio_options fieldDef pageIndex 0 opts
               ++ (if truthy (defaultValue fieldDef)
                   then [select (String_ (defaultValue fieldDef))] else [])
           | None => []
           end))%list
  end.

Definition cancelledOutput : Output :=
  Failure PROCESSING_CANCELLED "Processing was cancelled." None.

Section Processor.

Variable env : Env.

(** The body of the inner [try] up to [createdCount++]: the calls are
    made in order and the first that throws ends the block; the calls
    made before it stay made. *)
Fixpoint run_calls (i j : nat) (calls : list FormCall) (form : list FormCall)
    : list FormCall * option thrown :=
  match calls with
  | [] => (form, None)
  | c :: calls' =>
      match call env i j c with
      | Some fieldError => (form, Some fieldError)
      | None => run_calls i (S j) calls' (List.app form [c])
      end
  end.

(** The loop over the fields: [i] is the loop index, [rest] the fields
    from [fields[i]] on; the state is the form and [createdCount]. *)
Fixpoint field_loop (totalPages : nat) (count : nat) (i : nat)
    (rest : list FormField) (form : list FormCall) (createdCount : nat)
    : M Output (list FormCall * nat) :=
  match rest with
  | [] => ret (form, createdCount)
  | fieldDef :: rest' =>
      c <- checkCancelled (cancelled env) ;;
      if c : bool then return_ cancelledOutput
      else
        let pageIndex := pageNumber fieldDef - 1 in
        if (pageIndex <? 0) || (Z.of_nat totalPages <=? pageIndex) then
          field_loop totalPages count (S i) rest' form createdCount
        else
          let '(form', createdCount') :=
            match run_calls i 0 (field_calls fieldDef pageIndex) form with
            | (form', None) => (form', S createdCount)
            | (form', Some fieldError) => (form', createdCount)
            end in
          updateProgress
            (30 + 60 * (inject_Z (Z.of_nat i) + 1)
                  / inject_Z (Z.of_nat count))%Q ;;
          field_loop totalPages count (S i) rest' form' createdCount'
  end.

(** The body of the outer [try] block of [process]. *)
Definition process_try (file : File) (formOptions : FormCreatorOptions)
    : M Output Output :=
  updateProgress 10 ;;
  await_ (loadPdfLib env) ;;
  updateProgress 20 ;;
  await_ (arrayBuffer env) ;;
  totalPages <- await (load env) ;;
  await_ (getForm env) ;;
  updateProgress 30 ;;
  out <- field_loop totalPages (length (fields formOptions)) 0
                    (fields formOptions) [] 0 ;;
  updateProgress 95 ;;
  await_ (save env) ;;
  updateProgress 100 ;;
  ret (Success {| form := fst out;
                  filename := replace_first ".pdf" "_form.pdf"
                                (Async.name file);
                  fieldsCreated := snd out |}).

(** [FormCreatorProcessor.process] *)
Definition process (input : ProcessInput) : M Output Output :=
  reset ;;
  match files input with
  | [file] =>
      if (length (fields (formOptions input)) =? 0)%nat then
        ret (Failure INVALID_OPTIONS "At least one form field is required."
               None)
      else
        try_catch (process_try file (formOptions input))
          (fun error =>
             ret (Failure PROCESSING_FAILED "Failed to create form."
                    (Some (message_of error))))
  | _ => ret (Failure INVALID_OPTIONS "Exactly 1 PDF file is required." None)
  end.

End Processor.

(** Whether the field's page exists in a document of [totalPages] pages. *)
Definition on_page (totalPages : nat) (fieldDef : FormField) : bool :=
  (0 <=? pageNumber fieldDef - 1)
  && (pageNumber fieldDef - 1 <? Z.of_nat totalPages).

(** Whether the field at index [i] is counted as created: its page
    exists and none of its calls throws. *)
Definition created (env : Env) (totalPages : nat) (i : nat)
    (fieldDef : FormField) : bool :=
  on_page totalPages fieldDef
  && match snd (run_calls env i 0
                  (field_calls fieldDef (pageNumber fieldDef - 1)) []) with
     | None => true
     | Some _ => false
     end.

(** The number of fields counted as created among [rest], the first of
    them at index [i]. *)
Fixpoint created_count (env : Env) (totalPages : nat) (i : nat)
    (rest : list FormField) : nat :=
  match rest with
  | [] => 0
  | fieldDef :: rest' =>
      ((if created env totalPages i fieldDef then 1 else 0)
       + created_count env totalPages (S i) rest')%nat
  end.

End FormCreator.

(** ** Sample form jobs *)
Module FormExamples.

Import FormCreator.

Definition field (type : FieldType) (name : string) (pageNumber : Z)
    : FormField :=
  {| type := type; name := name; pageNumber := pageNumber;
     x := 50; y := 700; width := 200; height := 20;
     options := None; defaultValue := None; required := None;
     multiline := None |}.

(** A two-page document in which a second text field of the same name
    is refused. *)
Definition duplicate_refused : Env :=
  {| cancelled := fun _ => false;
     loadPdfLib := None;
     arrayBuffer := None;
     load := inr 2%nat;
     getForm := None;
     call := fun i _ c =>
       match c with
       | createTextField _ =>
           if (i =? 1)%nat
           then Some (Async.ErrorObj "A field already exists with the specified name")
           else None
       | _ => None
       end;
     save := None |}.

(** Two fields of the same name on page 1, a third on a page the
    document does not have, a check box on page 2. *)
Definition form_input : ProcessInput :=
  {| files := [Examples.pdf_file];
     formOptions :=
       {| fields := [field text "email" 1; field text "email" 1;
                     field text "phone" 3; field checkbox "agree" 2] |} |}.

End FormExamples.

(** ** A worker that cannot be shut down *)
Module OCRExamples.

(** The document of [Examples.ocr_page2_fails], but every [terminate()]
    call rejects. *)
Definition ocr_terminate_always_rejects : OCR.Env :=
  {| OCR.cancelled := fun _ => false;
     OCR.loadPdfjs := None;
     OCR.createWorker := None;
     OCR.getDocument := inr 3%nat;
     OCR.recognize := fun _ _ => inr "text"%string;
     OCR.terminate := fun _ => Some (Async.ErrorObj "worker gone");
     OCR.savePdf := inr 0%nat |}.

(** The worker is created, then loading the document fails, and every
    [terminate()] call rejects. *)
Definition ocr_document_and_terminate_reject : OCR.Env :=
  {| OCR.cancelled := fun _ => false;
     OCR.loadPdfjs := None;
     OCR.createWorker := None;
     OCR.getDocument := inl (Async.ErrorObj "Invalid PDF structure"%string);
     OCR.recognize := fun _ _ => inr "text"%string;
     OCR.terminate := fun _ => Some (Async.ErrorObj "worker gone");
     OCR.savePdf := inr 0%nat |}.

End OCRExamples.

(** ** Comparing two runs *)
Module Compare.

Import Async.

(** Two partial runs end alike: in the same state and in the same way
    (the same returned outcome or the same exception), whatever values
    they yield when they fall through. *)
Definition agree {O A B} (r1 : St * res O A) (r2 : St * res O B) : Prop :=
  fst r1 = fst r2
  /\ match snd r1, snd r2 with
     | Val _, Val _ => True
     | Ret o1, Ret o2 => o1 = o2
     | Exc e1, Exc e2 => e1 = e2
     | _, _ => False
     end.

(** The collaborators [env] with another recognition engine. *)
Definition with_recognize (env : OCR.Env)
    (recognize : nat -> Z -> thrown + string) : OCR.Env :=
  {| OCR.cancelled := OCR.cancelled env;
     OCR.loadPdfjs := OCR.loadPdfjs env;
     OCR.createWorker := OCR.createWorker env;
     OCR.getDocument := OCR.getDocument env;
     OCR.recognize := recognize;
     OCR.terminate := OCR.terminate env;
     OCR.savePdf := OCR.savePdf env |}.

End Compare.

(** ** A document that does not load *)
Module SplitLoadExamples.

Import SplitPDF.

(** pdf-lib refuses the document as encrypted. *)
Definition encrypted_document : Env :=
  {| cancelled := fun _ => false;
     loadPdfLib := None;
     arrayBuffer := None;
     load := inl (Async.ErrorObj
                    "Input document to `PDFDocument.load` is encrypted.");
     copyAndSave := fun _ indices => inr (length indices) |}.

End SplitLoadExamples.

(* ================================================================== *)
(** * Part II. Properties *)
(* ================================================================== *)

Section SplitValidation.

Import JS Split.
Open Scope string_scope.
Open Scope Z_scope.

Lemma validatePageRanges_from_skip (T : Z) (pre rest : list PageRange) :
  forall i,
    Forall (range_ok T) pre ->
    validatePageRanges_from i (pre ++ rest) T
    = validatePageRanges_from (i + Z.of_nat (length pre)) rest T.
Proof.
  induction pre as [|q pre IH]; intros i Hpre; simpl.
  - f_equal. lia.
  - inversion Hpre as [|? ? [H1 [H2 H3]] Hrest]; subst.
    destruct (Z.ltb_spec (start q) 1); [lia|].
    destruct (Z.ltb_spec (end_ q) (start q)); [lia|].
    destruct (Z.ltb_spec T (end_ q)); [lia|].
    destruct (Z.ltb_spec T (start q)); [lia|].
    rewrite IH by assumption. f_equal. lia.
Qed.

Lemma validatePageRanges_all_ok (T : Z) (ranges : list PageRange) :
  Forall (range_ok T) ranges -> validatePageRanges ranges T = None.
Proof.
  intros H. unfold validatePageRanges.
  rewrite <- (app_nil_r ranges), validatePageRanges_from_skip by assumption.
  reflexivity.
Qed.

(** C3. Ranges are examined in the order given: when every range before
    [r] passes the three checks and [r] violates one, validation stops at
    [r] with a message that starts with the 1-based position of [r] and
    then names the violated bound (start below 1, end below start, or end
    above the page count, tested in that order). *)
Theorem validatePageRanges_first_violation
    (pre post : list PageRange) (r : PageRange) (T : Z) :
  Forall (range_ok T) pre ->
  ~ range_ok T r ->
  exists why,
    validatePageRanges (pre ++ r :: post) T
    = Some ("Range " ++ show (Z.of_nat (length pre) + 1) ++ ": " ++ why)
    /\ ((start r < 1 /\ why = "Start page must be at least 1.")
        \/ (1 <= start r /\ end_ r < start r
            /\ why = "End page (" ++ show (end_ r)
                     ++ ") cannot be less than start page ("
                     ++ show (start r) ++ ").")
        \/ (1 <= start r <= end_ r /\ T < end_ r
            /\ why = "End page (" ++ show (end_ r)
                     ++ ") exceeds total pages (" ++ show T ++ ").")).
Proof.
  intros Hpre Hbad. unfold validatePageRanges.
  rewrite validatePageRanges_from_skip by assumption. simpl.
  unfold range_ok in Hbad.
  destruct (Z.ltb_spec (start r) 1).
  { eexists; split; [reflexivity|]. left. split; [lia|reflexivity]. }
  destruct (Z.ltb_spec (end_ r) (start r)).
  { eexists; split; [reflexivity|]. right; left.
    repeat split; try lia. }
  destruct (Z.ltb_spec T (end_ r)).
  { eexists; split; [reflexivity|]. right; right.
    repeat split; try lia. }
  exfalso. apply Hbad. lia.
Qed.

(** The range [{start:13,end:14}] against a 12-page document. *)
Lemma validatePageRanges_13_14_of_12 :
  validatePageRanges [{| start := 13; end_ := 14 |}] 12
  = Some "Range 1: End page (14) exceeds total pages (12).".
Proof.
  destruct (validatePageRanges_first_violation
              [] [] {| start := 13; end_ := 14 |} 12) as [why [Hv Hw]].
  - constructor.
  - unfold range_ok; simpl; lia.
  - simpl in Hv. rewrite Hv. f_equal.
    destruct Hw as [[H _]|[[_ [H _]]|[_ [_ ->]]]];
      [simpl in H; lia | simpl in H; lia | reflexivity].
Defined.

End SplitValidation.

Section RangeParser.

Import JS Split.
Open Scope string_scope.
Open Scope Z_scope.

(** *** Facts about [split], [trim] and [includes] *)

Lemma split_not_nil (sep : ascii) (s : string) : split sep s <> [].
Proof.
  destruct s as [|c s]; simpl; [discriminate|].
  destruct (Ascii.eqb c sep); [discriminate|].
  destruct (split sep s); discriminate.
Qed.

Lemma split_append (sep : ascii) (s1 s2 : string) :
  split sep (s1 ++ String sep s2) = (split sep s1 ++ split sep s2)%list.
Proof.
  induction s1 as [|c s1 IH]; simpl.
  - rewrite Ascii.eqb_refl. reflexivity.
  - destruct (Ascii.eqb c sep).
    + rewrite IH. reflexivity.
    + rewrite IH. pose proof (split_not_nil sep s1) as Hne.
      destruct (split sep s1); [contradiction|reflexivity].
Qed.

Lemma split_no_sep (sep : ascii) (s : string) :
  includes sep s = false -> split sep s = [s].
Proof.
  induction s as [|c s IH]; simpl; intros H; [reflexivity|].
  apply orb_false_iff in H as [Hc Hs].
  rewrite Hc, (IH Hs). reflexivity.
Qed.







(** *** Reading back what [show] prints *)



Lemma show_of_N (a : N) :
  exists u, u <> Decimal.Nil
            /\ show (Z.of_N a) = NilEmpty.string_of_uint u
            /\ Z.of_uint u = Z.of_N a.
Proof.
  destruct a as [|p].
  - exists (Decimal.D0 Decimal.Nil). repeat split; discriminate.
  - exists (Pos.to_uint p).
    pose proof (Unsigned.to_uint_nonnil p) as Hne.
    repeat split; [assumption| |].
    + unfold show. simpl. destruct (Pos.to_uint p); [contradiction|..]; reflexivity.
    + unfold Z.of_uint. rewrite Unsigned.of_to. reflexivity.
Qed.





(** *** Which strings [parseInt] reads a number from *)

Lemma digit_of_not_nil (c : ascii) (k : Decimal.uint) :
  digit_of c k <> Decimal.Nil.
Proof.
  unfold digit_of. destruct (N_of_ascii c - 48)%N as [|p]; [discriminate|].
  do 4 (try destruct p as [p|p|]); discriminate.
Qed.

Lemma parse_unsigned_begins (s : string) :
  begins_with_digit s
  = match parse_unsigned s with Some _ => true | None => false end.
Proof.
  unfold parse_unsigned. destruct s as [|c s]; simpl; [reflexivity|].
  destruct (is_digit c); [|reflexivity].
  pose proof (digit_of_not_nil c (digits_prefix s)) as Hne.
  destruct (digit_of c (digits_prefix s)); [contradiction|..]; reflexivity.
Qed.

Lemma has_integer_prefix_parseInt (s : string) :
  has_integer_prefix s
  = match parseInt s with Some _ => true | None => false end.
Proof.
  unfold has_integer_prefix, parseInt.
  assert (Hmap : forall (f : Z -> Z) (r : string),
             begins_with_digit r
             = match option_map f (parse_unsigned r) with
               | Some _ => true | None => false end).
  { intros f r. rewrite parse_unsigned_begins.
    destruct (parse_unsigned r); reflexivity. }
  destruct (trimStart s) as [|c r]; [reflexivity|].
  destruct c as [[] [] [] [] [] [] [] []]; apply Hmap.
Qed.



(** *** Strings without a digit never parse *)

Lemma no_digit_split (sep : ascii) (s : string) :
  string_forallb non_digit s = true ->
  Forall (fun p => string_forallb non_digit p = true) (split sep s).
Proof.
  induction s as [|c s IH]; simpl; intros H.
  - repeat constructor.
  - apply andb_true_iff in H as [Hc Hs]. specialize (IH Hs).
    destruct (Ascii.eqb c sep); [constructor; [reflexivity|assumption]|].
    destruct (split sep s) as [|q qs]; [repeat constructor; simpl; rewrite Hc; reflexivity|].
    inversion IH; subst. constructor; [|assumption].
    simpl. rewrite Hc. assumption.
Qed.

Lemma no_digit_trimStart (s : string) :
  string_forallb non_digit s = true ->
  string_forallb non_digit (trimStart s) = true.
Proof.
  induction s as [|c s IH]; simpl; intros H; [reflexivity|].
  destruct (is_space c); [|exact H].
  apply andb_true_iff in H as [_ Hs]. auto.
Qed.

Lemma no_digit_trimEnd (s : string) :
  string_forallb non_digit s = true ->
  string_forallb non_digit (trimEnd s) = true.
Proof.
  induction s as [|c s IH]; simpl; intros H; [reflexivity|].
  apply andb_true_iff in H as [Hc Hs]. specialize (IH Hs).
  destruct (trimEnd s) as [|d t].
  - destruct (is_space c); simpl; [reflexivity|]. rewrite Hc. reflexivity.
  - change (non_digit c && string_forallb non_digit (String d t) = true).
    rewrite Hc, IH. reflexivity.
Qed.

Lemma no_digit_trim (s : string) :
  string_forallb non_digit s = true ->
  string_forallb non_digit (trim s) = true.
Proof. intros H. apply no_digit_trimEnd, no_digit_trimStart, H. Qed.

Lemma no_digit_parse_unsigned (s : string) :
  string_forallb non_digit s = true -> parse_unsigned s = None.
Proof.
  unfold parse_unsigned. destruct s as [|c s]; simpl; [reflexivity|].
  intros H. apply andb_true_iff in H as [Hc _].
  apply negb_true_iff in Hc. rewrite Hc. reflexivity.
Qed.

Lemma no_digit_parseInt (s : string) :
  string_forallb non_digit s = true -> parseInt s = None.
Proof.
  intros H. apply no_digit_trimStart in H. unfold parseInt.
  destruct (trimStart s) as [|c r]; [reflexivity|].
  pose proof (no_digit_parse_unsigned _ H) as Hall.
  simpl in H. apply andb_true_iff in H as [_ Hr].
  pose proof (no_digit_parse_unsigned _ Hr) as Htl.
  destruct c as [[] [] [] [] [] [] [] []];
    first [rewrite Hall; reflexivity | rewrite Htl; reflexivity].
Qed.

Lemma no_digit_parse_part (acc : list PageRange) (t : string) :
  string_forallb non_digit t = true -> parse_part acc t = acc.
Proof.
  intros H. unfold parse_part.
  destruct (includes "-" t).
  - pose proof (no_digit_split "-" t H) as Hs.
    destruct (split "-" t) as [|p1 [|p2 ps]]; simpl; try reflexivity.
    inversion Hs as [|? ? H1 _]; subst.
    rewrite (no_digit_parseInt _ (no_digit_trim _ H1)). reflexivity.
  - rewrite (no_digit_parseInt _ H). reflexivity.
Qed.

Lemma no_digit_filter (t : string) :
  string_forallb non_digit (string_filter non_digit t) = true.
Proof.
  induction t as [|c t IH]; simpl; [reflexivity|].
  destruct (non_digit c) eqn:E; simpl; [rewrite E|]; exact IH.
Qed.

(** *** The loop of [parsePageRanges] *)










(** One token yields one range when it parses and nothing otherwise. *)
Lemma parse_part_token (u : string) :
  parse_part [] u
  = if token_parses u then parse_part [] u else [].
Proof.
  unfold token_parses, parse_part.
  rewrite !has_integer_prefix_parseInt.
  destruct (includes "-" u).
  - destruct (map trim (split "-" u)) as [|p1 [|p2 ps]]; try reflexivity.
    rewrite !has_integer_prefix_parseInt.
    destruct (parseInt p1), (parseInt p2); reflexivity.
  - destruct (parseInt u); reflexivity.
Qed.






Example parsePageRanges_mixed :
  parsePageRanges "1-3, x, 5,,7-10, 2-, -4, 12abc" 99
  = [ {| start := 1; end_ := 3 |}; {| start := 5; end_ := 5 |};
      {| start := 7; end_ := 10 |}; {| start := 12; end_ := 12 |} ].
Proof. reflexivity. Qed.

Example token_parses_values :
  map token_parses ["5"; "p5"; "5-"; "-4"; "2-7"; "1-2-3"; "12abc"; " +3"; ""]
  = [true; false; false; false; true; true; true; true; false].
Proof. reflexivity. Qed.

End RangeParser.

Section PageLayout.

Import JS ImageToPDF.
Open Scope Q_scope.

Lemma Qltb_lt (a b : Q) : Qltb a b = true <-> a < b.
Proof.
  unfold Qltb. rewrite negb_true_iff, <- not_true_iff_false, Qle_bool_iff.
  split; [apply Qnot_le_lt | apply Qlt_not_le].
Qed.

Lemma Qltb_ge (a b : Q) : Qltb a b = false <-> b <= a.
Proof.
  unfold Qltb. rewrite negb_false_iff. apply Qle_bool_iff.
Qed.

(** C2. The claim fails for an explicit orientation. With the FIT preset
    and the landscape orientation, a portrait image of 100 x 200 points
    and a margin of 10 gets a page of 220 x 120, not the fitted
    120 x 220: the orientation step swaps the fitted dimensions, and the
    image no longer fits the page. *)
Lemma fit_landscape_swaps_dimensions :
  let options := {| pageSize := Preset FIT; orientation := landscape;
                    margin := 10; quality := 92 # 100; centerImage := true;
                    scaleToFit := true; svgScale := 2 |} in
  let d := calculatePageDimensions 100 200 options in
  ~ (pageWidth d == 100 + 2 * 10 /\ pageHeight d == 200 + 2 * 10).
Proof.
  simpl. intros [H _]. vm_compute in H. discriminate H.
Qed.

Example fit_landscape_page_220_120 :
  let options := {| pageSize := Preset FIT; orientation := landscape;
                    margin := 10; quality := 92 # 100; centerImage := true;
                    scaleToFit := true; svgScale := 2 |} in
  let d := calculatePageDimensions 100 200 options in
  pageWidth d == 220 /\ pageHeight d == 120.
Proof. split; vm_compute; reflexivity. Qed.

(** The extent of the defect. With the FIT preset the page is the
    content size plus the margin on all sides when the orientation is
    [auto], and also when an explicit orientation already agrees with
    the fitted page; an explicit [landscape] (resp. [portrait])
    orientation exchanges the two fitted dimensions when the fitted page
    is taller than wide (resp. wider than tall). *)
Theorem fit_page_dimensions (imageWidth imageHeight : Q)
    (options : ImageToPDFOptions) :
  pageSize options = Preset FIT ->
  let W := imageWidth + margin options * 2 in
  let H := imageHeight + margin options * 2 in
  let d := calculatePageDimensions imageWidth imageHeight options in
  (orientation options = auto -> d = {| pageWidth := W; pageHeight := H |})
  /\ (orientation options = landscape ->
      (H <= W -> d = {| pageWidth := W; pageHeight := H |})
      /\ (W < H -> d = {| pageWidth := H; pageHeight := W |}))
  /\ (orientation options = portrait ->
      (W <= H -> d = {| pageWidth := W; pageHeight := H |})
      /\ (H < W -> d = {| pageWidth := H; pageHeight := W |})).
Proof.
  intros Hfit W H d. subst d. unfold calculatePageDimensions.
  rewrite Hfit. fold W H. simpl.
  split; [|split]; intros Ho; rewrite Ho.
  - rewrite andb_false_r. reflexivity.
  - split; intros Hc;
      [apply Qltb_ge in Hc | apply Qltb_lt in Hc]; rewrite Hc; reflexivity.
  - split; intros Hc;
      [apply Qltb_ge in Hc | apply Qltb_lt in Hc]; rewrite Hc; reflexivity.
Qed.

Lemma fit_page_dimensions_auto_100_200 :
  calculatePageDimensions 100 200
    {| pageSize := Preset FIT; orientation := auto; margin := 10;
       quality := 92 # 100; centerImage := true; scaleToFit := true;
       svgScale := 2 |}
  = {| pageWidth := 100 + 10 * 2; pageHeight := 200 + 10 * 2 |}.
Proof.
  destruct (fit_page_dimensions 100 200
              {| pageSize := Preset FIT; orientation := auto; margin := 10;
                 quality := 92 # 100; centerImage := true; scaleToFit := true;
                 svgScale := 2 |} eq_refl) as [Hauto _].
  apply Hauto. reflexivity.
Defined.



End PageLayout.

Section PixelPass.

Import JS Recolor.

Variables (isDarkMode : bool) (threshold : Q) (color : Color).

Let step (data : list Z) (k : nat) : list Z :=
  recolor_pixel isDarkMode threshold color data (4 * k)%nat.

Lemma recolor_pixel_length (data : list Z) (j : nat) :
  length (recolor_pixel isDarkMode threshold color data j) = length data.
Proof.
  unfold recolor_pixel.
  destruct (data !! j), (data !! (j + 1)%nat), (data !! (j + 2)%nat);
    try reflexivity.
  match goal with |- context [if ?c then _ else _] => destruct c end;
    [rewrite !length_insert|]; reflexivity.
Qed.

Lemma recolor_pixel_other (data : list Z) (j i : nat) :
  i <> j -> i <> (j + 1)%nat -> i <> (j + 2)%nat ->
  recolor_pixel isDarkMode threshold color data j !! i = data !! i.
Proof.
  intros H0 H1 H2. unfold recolor_pixel.
  destruct (data !! j), (data !! (j + 1)%nat), (data !! (j + 2)%nat);
    try reflexivity.
  match goal with |- context [if ?c then _ else _] => destruct c end;
    [|reflexivity].
  rewrite !list_lookup_insert_ne by congruence. reflexivity.
Qed.

Lemma steps_length (ks : list nat) :
  forall data, length (fold_left step ks data) = length data.
Proof.
  induction ks as [|k ks IH]; intros data; simpl; [reflexivity|].
  rewrite IH. apply recolor_pixel_length.
Qed.

(** Iterations at other offsets leave index [i] alone. *)
Lemma steps_other (ks : list nat) (i : nat) :
  (forall k, In k ks ->
             i <> (4 * k)%nat /\ i <> (4 * k + 1)%nat /\ i <> (4 * k + 2)%nat) ->
  forall data, fold_left step ks data !! i = data !! i.
Proof.
  induction ks as [|k ks IH]; intros Hks data; simpl; [reflexivity|].
  rewrite IH by (intros k' Hk'; apply Hks; right; exact Hk').
  destruct (Hks k (or_introl eq_refl)) as [H0 [H1 H2]].
  apply recolor_pixel_other; assumption.
Qed.

Lemma steps_alpha (ks : list nat) (i : nat) (data : list Z) :
  (i mod 4 = 3)%nat -> fold_left step ks data !! i = data !! i.
Proof.
  intros Hi. apply steps_other. intros k _.
  pose proof (Nat.div_mod_eq i 4) as Hdiv. rewrite Hi in Hdiv. lia.
Qed.

(** What one iteration does to its own pixel. *)
Lemma recolor_pixel_at (data : list Z) (j : nat) (R G B : Z) :
  data !! j = Some R -> data !! (j + 1)%nat = Some G ->
  data !! (j + 2)%nat = Some B ->
  let brightness :=
    div64 (add64 (add64 (inject_Z R) (inject_Z G)) (inject_Z B)) 3 in
  let out := recolor_pixel isDarkMode threshold color data j in
  let change := if isDarkMode then Qltb brightness threshold
                else Qltb threshold brightness in
  (change = true ->
   out !! j = Some (toUint8Clamp (mul64 (r color) 255))
   /\ out !! (j + 1)%nat = Some (toUint8Clamp (mul64 (g color) 255))
   /\ out !! (j + 2)%nat = Some (toUint8Clamp (mul64 (b color) 255)))
  /\ (change = false -> out = data).
Proof.
  intros HR HG HB brightness out change. subst out. unfold recolor_pixel.
  rewrite HR, HG, HB. fold brightness. fold change.
  pose proof (lookup_lt_Some _ _ _ HR) as L0.
  pose proof (lookup_lt_Some _ _ _ HG) as L1.
  pose proof (lookup_lt_Some _ _ _ HB) as L2.
  split; intros Hc; rewrite Hc; [|reflexivity].
  repeat split.
  - rewrite !list_lookup_insert_ne by lia.
    apply list_lookup_insert_eq. exact L0.
  - rewrite list_lookup_insert_ne by lia.
    apply list_lookup_insert_eq. rewrite length_insert. exact L1.
  - apply list_lookup_insert_eq. rewrite !length_insert. exact L2.
Qed.

Lemma steps_pixel (n k : nat) (data : list Z) (i : nat) :
  (k < n)%nat -> (4 * k <= i < 4 * k + 4)%nat ->
  fold_left step (seq 0 n) data !! i = step data k !! i.
Proof.
  intros Hk Hi.
  replace n with (k + S (n - S k))%nat by lia.
  rewrite seq_app, fold_left_app. simpl.
  rewrite steps_other
    by (intros k' Hk'; apply in_seq in Hk'; lia).
  set (d1 := fold_left step (seq 0 k) data).
  assert (Hagree : forall i', (4 * k <= i' < 4 * k + 4)%nat ->
                              d1 !! i' = data !! i').
  { intros i' Hi'. apply steps_other.
    intros k' Hk'. apply in_seq in Hk'. lia. }
  assert (Hlen : length d1 = length data) by apply steps_length.
  unfold step, recolor_pixel.
  rewrite !Hagree by lia.
  destruct (data !! (4 * k)%nat), (data !! (4 * k + 1)%nat),
    (data !! (4 * k + 2)%nat); try (apply Hagree; exact Hi).
  match goal with |- context [if ?c then _ else _] => destruct c end;
    [|apply Hagree; exact Hi].
  destruct (Nat.eq_dec i (4 * k + 2)%nat) as [->|N2].
  { destruct (Nat.lt_ge_cases (4 * k + 2)%nat (length data)).
    - rewrite !list_lookup_insert_eq by (rewrite !length_insert; lia).
      reflexivity.
    - rewrite !lookup_ge_None_2 by (rewrite !length_insert; lia).
      reflexivity. }
  rewrite !(list_lookup_insert_ne _ (4 * k + 2)%nat) by congruence.
  destruct (Nat.eq_dec i (4 * k + 1)%nat) as [->|N1].
  { destruct (Nat.lt_ge_cases (4 * k + 1)%nat (length data)).
    - rewrite !list_lookup_insert_eq by (rewrite !length_insert; lia).
      reflexivity.
    - rewrite !lookup_ge_None_2 by (rewrite !length_insert; lia).
      reflexivity. }
  rewrite !(list_lookup_insert_ne _ (4 * k + 1)%nat) by congruence.
  destruct (Nat.eq_dec i (4 * k)%nat) as [->|N0].
  { destruct (Nat.lt_ge_cases (4 * k)%nat (length data)).
    - rewrite !list_lookup_insert_eq by lia. reflexivity.
    - rewrite !lookup_ge_None_2 by (rewrite !length_insert; lia).
      reflexivity. }
  rewrite !(list_lookup_insert_ne _ (4 * k)%nat) by congruence.
  apply Hagree. exact Hi.
Qed.

End PixelPass.

Section RecolorTheorem.

Import JS Recolor.

(** C4. For every complete RGBA pixel [k] of the buffer, with channels
    [R G B A]: the brightness is [(R + G + B) / 3] as the code computes
    it, two additions and a division of doubles; when it satisfies the
    mode predicate (strictly below the threshold in dark mode, strictly
    above in light mode) the three colour bytes become the target colour
    (the byte the array stores for the double [channel * 255]), otherwise
    they are unchanged; the alpha byte is unchanged either way, as is
    every byte at an offset congruent to 3 modulo 4, and the buffer keeps
    its length. *)
Theorem recolor_pixelwise (mode : Mode) (threshold : Q) (color : Color)
    (data : list Z) (k : nat) (R G B A : Z) :
  data !! (4 * k)%nat = Some R ->
  data !! (4 * k + 1)%nat = Some G ->
  data !! (4 * k + 2)%nat = Some B ->
  data !! (4 * k + 3)%nat = Some A ->
  let brightness :=
    div64 (add64 (add64 (inject_Z R) (inject_Z G)) (inject_Z B)) 3 in
  let out := recolor mode threshold color data in
  length out = length data
  /\ out !! (4 * k + 3)%nat = Some A
  /\ (forall i, (i mod 4 = 3)%nat -> out !! i = data !! i)
  /\ (selected mode threshold brightness ->
      out !! (4 * k)%nat = Some (toUint8Clamp (mul64 (r color) 255))
      /\ out !! (4 * k + 1)%nat = Some (toUint8Clamp (mul64 (g color) 255))
      /\ out !! (4 * k + 2)%nat = Some (toUint8Clamp (mul64 (b color) 255)))
  /\ (~ selected mode threshold brightness ->
      out !! (4 * k)%nat = Some R
      /\ out !! (4 * k + 1)%nat = Some G
      /\ out !! (4 * k + 2)%nat = Some B).
Proof.
  intros HR HG HB HA brightness out.
  set (isDarkMode := match mode with dark => true | light => false end).
  assert (Hk : (k < iterations data)%nat).
  { pose proof (lookup_lt_Some _ _ _ HA) as L. unfold iterations.
    apply (Nat.div_le_lower_bound (length data + 3) 4 (S k)); lia. }
  assert (Hpix : forall i, (4 * k <= i < 4 * k + 4)%nat ->
                 out !! i
                 = recolor_pixel isDarkMode threshold color data (4 * k) !! i).
  { intros i Hi. apply (steps_pixel isDarkMode threshold color); assumption. }
  destruct (recolor_pixel_at isDarkMode threshold color data (4 * k)%nat
              R G B HR HG HB) as [Hyes Hno].
  fold brightness in Hyes, Hno.
  assert (Hsel : selected mode threshold brightness <->
                 (if isDarkMode then Qltb brightness threshold
                  else Qltb threshold brightness) = true).
  { subst isDarkMode. destruct mode; simpl; symmetry; apply Qltb_lt. }
  split; [apply steps_length|].
  split; [rewrite <- HA; apply steps_alpha;
          rewrite Nat.add_comm, Nat.mul_comm, Nat.Div0.mod_add; reflexivity|].
  split; [intros i Hi; apply steps_alpha; exact Hi|].
  split.
  - intros Hs. apply Hsel in Hs. rewrite !Hpix by lia. apply Hyes, Hs.
  - intros Hs. rewrite !Hpix by lia. rewrite Hno; [auto|].
    apply not_true_is_false. intros Hc. apply Hs, Hsel, Hc.
Qed.

(** Two pixels, dark mode, threshold 128, target pure red: the dark pixel
    is rewritten, the bright one is not, and both alpha bytes survive. *)
Lemma recolor_two_pixels :
  let data := [10; 20; 30; 200; 250; 250; 250; 77] in
  let out := recolor dark 128 {| r := 1; g := 0; b := 0 |} data in
  out !! 0%nat = Some 255 /\ out !! 1%nat = Some 0 /\ out !! 2%nat = Some 0
  /\ out !! 3%nat = Some 200.
Proof.
  destruct (recolor_pixelwise dark 128 {| r := 1; g := 0; b := 0 |}
              [10; 20; 30; 200; 250; 250; 250; 77] 0 10 20 30 200
              eq_refl eq_refl eq_refl eq_refl)
    as [_ [HA [_ [Hsel _]]]].
  destruct Hsel as [H0 [H1 H2]]; [reflexivity|].
  repeat split; assumption.
Defined.

Example recolor_two_pixels_run :
  recolor dark 128 {| r := 1; g := 0; b := 0 |}
    [10; 20; 30; 200; 250; 250; 250; 77]
  = [255; 0; 0; 200; 250; 250; 250; 77].
Proof. reflexivity. Qed.

(** Where the rounding decides. The mean of [(127, 128, 128)] is the
    double nearest [383/3], so with that double as the threshold the dark
    comparison is strict and fails; and the colour channel
    [1.5 / 255] times 255 is the double [1.5], stored as the byte 2. *)
Example recolor_rounding_cases :
  recolor dark (round64 (383 # 3)) {| r := 1; g := 0; b := 0 |}
          [127; 128; 128; 255]%Z
  = [127; 128; 128; 255]%Z
  /\ recolor dark 128 {| r := round64 (3 # 510); g := 0; b := 0 |}
             [0; 0; 0; 255]%Z
     = [2; 0; 0; 255]%Z.
Proof. split; vm_compute; reflexivity. Qed.

End RecolorTheorem.

Section AsyncLogic.

Import Async Logic.
Open Scope Q_scope.

Context {O : Type}.

Lemma wp_bind {A B} (m : M O A) (k : A -> M O B) QV QR QE s :
  wp m (fun a s' => wp (k a) QV QR QE s') QR QE s ->
  wp (bind m k) QV QR QE s.
Proof.
  unfold wp, bind. destruct (m s) as [s' [a|o|e]]; auto.
Qed.

Lemma wp_try_catch {A} (body : M O A) (handler : thrown -> M O A) QV QR QE s :
  wp body QV QR (fun e s' => wp (handler e) QV QR QE s') s ->
  wp (try_catch body handler) QV QR QE s.
Proof.
  unfold wp, try_catch. destruct (body s) as [s' [a|o|e]]; auto.
Qed.

Lemma wp_mono {A} (m : M O A) (QV QV' : A -> St -> Prop)
    (QR QR' : O -> St -> Prop) (QE QE' : thrown -> St -> Prop) s :
  wp m QV QR QE s ->
  (forall a s', QV a s' -> QV' a s') ->
  (forall o s', QR o s' -> QR' o s') ->
  (forall e s', QE e s' -> QE' e s') ->
  wp m QV' QR' QE' s.
Proof.
  unfold wp. destruct (m s) as [s' [a|o|e]]; auto.
Qed.

Lemma wp_run (body : M O O) (P : St -> completion O -> Prop) s :
  wp body (fun o s' => P s' (Returned o)) (fun o s' => P s' (Returned o))
     (fun e s' => P s' (Rejected e)) s ->
  P (fst (run body s)) (snd (run body s)).
Proof.
  unfold wp, run. destruct (body s) as [s' [a|o|e]]; auto.
Qed.

Lemma wp_await {A} (r : thrown + A) (QV : A -> St -> Prop)
    (QR : O -> St -> Prop) (QE : thrown -> St -> Prop) s :
  (forall a, r = inr a -> QV a s) ->
  (forall e, r = inl e -> QE e s) ->
  wp (await r) QV QR QE s.
Proof. intros HV HE. destruct r; [apply HE|apply HV]; reflexivity. Qed.

Lemma wp_await_ (r : option thrown) (QV : unit -> St -> Prop)
    (QR : O -> St -> Prop) (QE : thrown -> St -> Prop) s :
  (r = None -> QV tt s) ->
  (forall e, r = Some e -> QE e s) ->
  wp (await_ r) QV QR QE s.
Proof. intros HV HE. destruct r; [apply HE|apply HV]; reflexivity. Qed.

(** [updateProgress] appends one clamped value and changes nothing else. *)
Lemma wp_updateProgress (v : Q) (QV : unit -> St -> Prop)
    (QR : O -> St -> Prop) (QE : thrown -> St -> Prop) s :
  (forall s', emitted s' = emitted s ++ [clamp v] ->
              tesseractWorker s' = tesseractWorker s ->
              workers_created s' = workers_created s ->
              terminate_calls s' = terminate_calls s ->
              QV tt s') ->
  wp (updateProgress v) QV QR QE s.
Proof. intros H. apply H; reflexivity. Qed.

(** [checkCancelled] and [reset] leave the session alone; the first also
    leaves the emitted percentages alone, the second clears them. *)
Lemma wp_checkCancelled (f : nat -> bool) (QV : bool -> St -> Prop)
    (QR : O -> St -> Prop) (QE : thrown -> St -> Prop) s :
  (forall c s', c = f (polls s) ->
                emitted s' = emitted s ->
                tesseractWorker s' = tesseractWorker s ->
                workers_created s' = workers_created s ->
                terminate_calls s' = terminate_calls s ->
                QV c s') ->
  wp (checkCancelled f) QV QR QE s.
Proof. intros H. apply H; reflexivity. Qed.

Lemma wp_reset (QV : unit -> St -> Prop)
    (QR : O -> St -> Prop) (QE : thrown -> St -> Prop) s :
  (forall s', emitted s' = [] ->
              tesseractWorker s' = tesseractWorker s ->
              workers_created s' = workers_created s ->
              terminate_calls s' = terminate_calls s ->
              QV tt s') ->
  wp reset QV QR QE s.
Proof. intros H. apply H; reflexivity. Qed.

End AsyncLogic.

Section ProgressFacts.

Import Async Logic.
Open Scope Q_scope.

Lemma clamp_le_100 (v : Q) : clamp v <= 100.
Proof. apply Q.le_min_l. Qed.

Lemma clamp_le (v : Q) : 0 <= v -> clamp v <= v.
Proof.
  intros Hv. unfold clamp.
  eapply Qle_trans; [apply Q.le_min_r|].
  apply Q.max_lub; [exact Hv | apply Qle_refl].
Qed.

Lemma clamp_ge (b v : Q) : b <= 100 -> b <= v -> b <= clamp v.
Proof.
  intros Hb Hv. unfold clamp. apply Q.min_glb; [exact Hb|].
  eapply Qle_trans; [exact Hv | apply Q.le_max_r].
Qed.

Lemma nondecreasing_snoc (l : list Q) (v : Q) :
  nondecreasing l -> Forall (fun x => x <= v) l -> nondecreasing (l ++ [v]).
Proof.
  intros Hl Hall i j x y Hij Hi Hj.
  rewrite Forall_lookup in Hall.
  destruct (Nat.lt_ge_cases j (length l)) as [Hjl|Hjl].
  - rewrite lookup_app_l in Hj by lia. rewrite lookup_app_l in Hi by lia.
    exact (Hl i j x y Hij Hi Hj).
  - rewrite lookup_app_r in Hj by exact Hjl.
    apply list_lookup_singleton_Some in Hj as [_ <-].
    destruct (Nat.lt_ge_cases i (length l)) as [Hil|Hil].
    + rewrite lookup_app_l in Hi by exact Hil. exact (Hall i x Hi).
    + rewrite lookup_app_r in Hi by exact Hil.
      apply list_lookup_singleton_Some in Hi as [_ <-]. apply Qle_refl.
Qed.

Lemma upto_nil : upto 0 [].
Proof.
  repeat split; [|constructor|discriminate].
  intros i j x y _ Hi. rewrite lookup_nil in Hi. discriminate.
Qed.

Lemma upto_snoc (b v : Q) (l : list Q) :
  upto b l -> b <= v -> upto (clamp v) (l ++ [clamp v]).
Proof.
  intros [Hmono [Hall Hb]] Hv.
  pose proof (clamp_ge b v Hb Hv) as Hbc.
  assert (Hall' : Forall (fun x => x <= clamp v) l).
  { eapply Forall_impl; [exact Hall|]. intros x Hx. simpl in *.
    eapply Qle_trans; eassumption. }
  repeat split.
  - apply nondecreasing_snoc; assumption.
  - apply Forall_app. split; [exact Hall'|].
    constructor; [apply Qle_refl|constructor].
  - apply clamp_le_100.
Qed.

Lemma upto_weaken (b b' : Q) (l : list Q) :
  upto b l -> b <= b' -> b' <= 100 -> upto b' l.
Proof.
  intros [Hmono [Hall Hb]] Hbb Hb'. repeat split; [exact Hmono| |exact Hb'].
  eapply Forall_impl; [exact Hall|]. intros x Hx. simpl in *.
  eapply Qle_trans; eassumption.
Qed.

Lemma upto_progress_ok (b : Q) (l : list Q) : upto b l -> progress_ok l.
Proof.
  intros [Hmono [Hall Hb]]. split; [exact Hmono|].
  eapply Forall_impl; [exact Hall|]. intros x Hx. simpl in *.
  eapply Qle_trans; eassumption.
Qed.

Lemma inject_nat_succ (i : nat) :
  inject_Z (Z.of_nat (S i)) == inject_Z (Z.of_nat i) + 1.
Proof. rewrite Nat2Z.inj_succ, <- Z.add_1_r, inject_Z_plus. reflexivity. Qed.

Lemma inject_nat_nonneg (i : nat) : 0 <= inject_Z (Z.of_nat i).
Proof. change 0 with (inject_Z 0). rewrite <- Zle_Qle. lia. Qed.

Lemma share_nonneg (w : Q) (n : nat) :
  0 <= w -> 0 <= w / inject_Z (Z.of_nat n).
Proof.
  intros Hw. unfold Qdiv. apply Qmult_le_0_compat; [exact Hw|].
  apply Qinv_le_0_compat, inject_nat_nonneg.
Qed.

Lemma share_total (w : Q) (n : nat) :
  (0 < n)%nat -> inject_Z (Z.of_nat n) * (w / inject_Z (Z.of_nat n)) == w.
Proof.
  intros Hn. field. intros H.
  change 0 with (inject_Z 0) in H.
  apply (proj1 (inject_Z_injective _ _)) in H. lia.
Qed.

Lemma inject_nat_le (i j : nat) :
  (i <= j)%nat -> inject_Z (Z.of_nat i) <= inject_Z (Z.of_nat j).
Proof. intros H. rewrite <- Zle_Qle. lia. Qed.

Lemma clamp_id (v : Q) : 0 <= v -> v <= 100 -> clamp v == v.
Proof.
  intros H0 H100. unfold clamp.
  rewrite Q.max_r by exact H0. apply Q.min_r. exact H100.
Qed.

Lemma tracked_start (s : St) :
  emitted s = [] -> requested s = [] -> tracked 0 s.
Proof.
  intros E R. unfold tracked, faithful. rewrite E, R.
  split; [apply upto_nil|]. split; [discriminate|constructor].
Qed.

Lemma tracked_same (b : Q) (s s' : St) :
  tracked b s -> emitted s' = emitted s -> requested s' = requested s ->
  tracked b s'.
Proof. unfold tracked, faithful. intros H -> ->. exact H. Qed.

(** A percentage between the last bound and 100 extends the sequence,
    and the clamp leaves it as it is. *)
Lemma tracked_snoc (b v : Q) (s s' : St) :
  tracked b s -> b <= v -> v <= 100 ->
  emitted s' = emitted s ++ [clamp v] ->
  requested s' = requested s ++ [v] ->
  tracked v s'.
Proof.
  intros [Hup [Hb Hf]] Hbv Hv E R.
  assert (H0 : 0 <= v) by (eapply Qle_trans; eassumption).
  pose proof (clamp_id v H0 Hv) as Hid.
  unfold tracked, faithful. rewrite E, R. split; [|split].
  - apply (upto_weaken (clamp v));
      [apply (upto_snoc b); assumption | rewrite Hid; apply Qle_refl | exact Hv].
  - exact H0.
  - apply Forall2_app; [exact Hf|].
    constructor; [symmetry; exact Hid|constructor].
Qed.

Lemma tracked_weaken (b b' : Q) (s : St) :
  tracked b s -> b <= b' -> b' <= 100 -> tracked b' s.
Proof.
  intros [Hup [Hb Hf]] Hbb Hb'. split; [|split].
  - eapply upto_weaken; eassumption.
  - eapply Qle_trans; eassumption.
  - exact Hf.
Qed.

Lemma tracked_ok (b : Q) (s : St) :
  tracked b s -> progress_ok (emitted s) /\ faithful s.
Proof.
  intros [Hup [_ Hf]]. split; [exact (upto_progress_ok _ _ Hup)|exact Hf].
Qed.

End ProgressFacts.

Section TrackedSteps.

Import Async Logic.
Open Scope Q_scope.

Context {O : Type}.

Lemma wp_updateProgress_tracked (b v : Q) (QV : unit -> St -> Prop)
    (QR : O -> St -> Prop) (QE : thrown -> St -> Prop) s :
  tracked b s -> b <= v -> v <= 100 ->
  (forall s', tracked v s' -> QV tt s') ->
  wp (updateProgress v) QV QR QE s.
Proof.
  intros Ht Hbv Hv HV. apply HV.
  apply (tracked_snoc b v s); try assumption; reflexivity.
Qed.

Lemma wp_checkCancelled_tracked (b : Q) (f : nat -> bool)
    (QV : bool -> St -> Prop) (QR : O -> St -> Prop)
    (QE : thrown -> St -> Prop) s :
  tracked b s ->
  (forall c s', tracked b s' -> QV c s') ->
  wp (checkCancelled f) QV QR QE s.
Proof.
  intros Ht HV. apply HV. apply (tracked_same b s); [exact Ht|..]; reflexivity.
Qed.

Lemma wp_reset_tracked (QV : unit -> St -> Prop) (QR : O -> St -> Prop)
    (QE : thrown -> St -> Prop) s :
  (forall s', tracked 0 s' -> QV tt s') ->
  wp reset QV QR QE s.
Proof. intros HV. apply HV. apply tracked_start; reflexivity. Qed.

End TrackedSteps.

Section OCRFacts.

Import JS Async Logic OCR.
Open Scope Q_scope.

Variable env : Env.

(** The [try]/[catch] around [ocrPage] never throws and never changes the
    state: it pushes one entry. *)
Lemma ocr_or_marker_run (i : nat) (pageNum : Z) (acc : list string) (s : St) :
  exists entry,
    ocr_or_marker env i pageNum acc s = (s, Val (List.app acc [entry]))
    /\ (tesseractWorker s <> None -> entry = page_entry env i pageNum).
Proof.
  cbv [ocr_or_marker ocrPage try_catch bind get throw await ret page_entry].
  destruct (tesseractWorker s); simpl.
  - destruct (recognize env i pageNum); simpl; eexists; split;
      try reflexivity; intros _; reflexivity.
  - eexists; split; [reflexivity|]. intros H. contradiction.
Qed.

Lemma terminateTesseract_logs (QV : unit -> St -> Prop)
    (QR : Output -> St -> Prop) (QE : thrown -> St -> Prop) (s : St) :
  (forall s', emitted s' = emitted s -> requested s' = requested s ->
              QV tt s') ->
  (forall e s', emitted s' = emitted s -> requested s' = requested s ->
                QE e s') ->
  wp (terminateTesseract env) QV QR QE s.
Proof.
  intros HV HE. cbv [wp terminateTesseract bind get put await_ throw ret].
  destruct (tesseractWorker s); [|apply HV; reflexivity].
  destruct (terminate env (terminate_calls s)); [apply HE|apply HV];
    reflexivity.
Qed.

Lemma terminateTesseract_tracked (b : Q) (QV : unit -> St -> Prop)
    (QR : Output -> St -> Prop) (QE : thrown -> St -> Prop) (s : St) :
  tracked b s ->
  (forall s', tracked b s' -> QV tt s') ->
  (forall e s', tracked b s' -> QE e s') ->
  wp (terminateTesseract env) QV QR QE s.
Proof.
  intros Ht HV HE. cbv [wp terminateTesseract bind get put await_ throw ret].
  destruct (tesseractWorker s); [|apply HV; exact Ht].
  destruct (terminate env (terminate_calls s)); [apply HE|apply HV];
    (apply (tracked_same b s); [exact Ht|..]; reflexivity).
Qed.

Lemma initializeTesseract_tracked (b : Q) (langs : list OCRLanguage)
    (QV : unit -> St -> Prop) (QR : Output -> St -> Prop)
    (QE : thrown -> St -> Prop) (s : St) :
  tracked b s ->
  (forall s', tracked b s' -> QV tt s') ->
  (forall e, QE e s) ->
  wp (initializeTesseract env langs) QV QR QE s.
Proof.
  intros Ht HV HE. cbv [wp initializeTesseract bind await_ get put throw ret].
  destruct (createWorker env); [apply HE|apply HV].
  apply (tracked_same b s); [exact Ht|..]; reflexivity.
Qed.

(** The page loop keeps the progress invariant; it starts below
    [25 + i * p] and ends below [25 + n * p]. *)
Lemma page_loop_progress (T : nat) (p : Q) :
  0 <= p ->
  forall rest i acc b s,
    tracked b s ->
    b <= 25 + inject_Z (Z.of_nat i) * p ->
    25 + inject_Z (Z.of_nat (i + length rest)) * p <= 100 ->
    wp (page_loop env T p i rest acc)
       (fun _ s' =>
          tracked (25 + inject_Z (Z.of_nat (i + length rest)) * p) s')
       (fun _ s' => progress_ok (emitted s') /\ faithful s')
       (fun _ s' => progress_ok (emitted s') /\ faithful s') s.
Proof.
  intros Hp. induction rest as [|pageNum rest IH]; intros i acc b s Ht Hb Hend.
  - simpl. unfold wp, ret. rewrite Nat.add_0_r in *.
    eapply tracked_weaken; eassumption.
  - simpl page_loop.
    apply wp_bind, (wp_checkCancelled_tracked b); [exact Ht|].
    intros c s1 Ht1.
    destruct c.
    + apply wp_bind, (terminateTesseract_tracked b); [exact Ht1|..].
      * intros s' Hs'. exact (tracked_ok _ _ Hs').
      * intros e s' Hs'. exact (tracked_ok _ _ Hs').
    + assert (Hstep : 25 + inject_Z (Z.of_nat i) * p
                      <= 25 + inject_Z (Z.of_nat (i + length (pageNum :: rest))) * p).
      { apply Qplus_le_r, Qmult_le_compat_r; [|exact Hp].
        apply inject_nat_le. lia. }
      apply wp_bind, (wp_updateProgress_tracked b); [exact Ht1|exact Hb| |].
      { eapply Qle_trans; eassumption. }
      intros s2 Ht2.
      apply wp_bind.
      destruct (ocr_or_marker_run i pageNum acc s2) as [entry [Hrun _]].
      unfold wp at 1. rewrite Hrun. cbv beta iota.
      simpl length in *.
      replace (i + S (length rest))%nat
        with (S i + length rest)%nat in * by lia.
      apply (IH (S i) _ _ s2 Ht2); [|exact Hend].
      rewrite inject_nat_succ. lra.
Qed.

(** Every percentage [process] emits keeps the sequence non-decreasing
    and at most 100, whichever way the run ends, and is the value the
    processor passed. *)
Lemma ocr_process_progress (input : ProcessInput) (s : St) :
  wp (process env input)
     (fun _ s' => progress_ok (emitted s') /\ faithful s')
     (fun _ s' => progress_ok (emitted s') /\ faithful s')
     (fun _ s' => progress_ok (emitted s') /\ faithful s') s.
Proof.
  unfold process. apply wp_bind, wp_reset_tracked. intros s0 T0.
  pose proof (tracked_ok _ _ T0) as P0.
  destruct (files input) as [|file [|file' more]]; try exact P0.
  match goal with |- context [if ?c then _ else _] => destruct c end;
    [exact P0|].
  apply wp_try_catch.
  apply wp_mono with
    (QV := fun _ s' => progress_ok (emitted s') /\ faithful s')
    (QR := fun _ s' => progress_ok (emitted s') /\ faithful s')
    (QE := fun _ s' => progress_ok (emitted s') /\ faithful s'); auto.
  2:{ intros e s' Hs'. unfold faithful in *.
      apply wp_bind, terminateTesseract_logs.
      - intros s2 E2 R2. unfold wp, ret. rewrite E2, R2. exact Hs'.
      - intros e2 s2 E2 R2. rewrite E2, R2. exact Hs'. }
  unfold process_try.
  apply wp_bind, (wp_updateProgress_tracked 0 5);
    [exact T0|discriminate|discriminate|intros s1 T1].
  apply wp_bind, wp_await_; [intros _|intros e _; exact (tracked_ok _ _ T1)].
  apply wp_bind, (wp_checkCancelled_tracked 5); [exact T1|intros c s2 T2].
  destruct c; [exact (tracked_ok _ _ T2)|].
  apply wp_bind, (wp_updateProgress_tracked 5 10);
    [exact T2|discriminate|discriminate|intros s3 T3].
  apply wp_bind, (initializeTesseract_tracked 10);
    [exact T3|intros s4 T4|intros e; exact (tracked_ok _ _ T3)].
  apply wp_bind, (wp_updateProgress_tracked 10 20);
    [exact T4|discriminate|discriminate|intros s5 T5].
  apply wp_bind, wp_await;
    [intros totalPages _|intros e _; exact (tracked_ok _ _ T5)].
  set (pagesToOCR := select_pages (options input) totalPages).
  destruct (length pagesToOCR =? 0)%nat eqn:Hlen.
  { apply wp_bind, (terminateTesseract_tracked 20); [exact T5|..].
    - intros s6 T6. exact (tracked_ok _ _ T6).
    - intros e s6 T6. exact (tracked_ok _ _ T6). }
  apply Nat.eqb_neq in Hlen.
  apply wp_bind, (wp_updateProgress_tracked 20 25);
    [exact T5|discriminate|discriminate|intros s6 T6].
  set (p := 70 / inject_Z (Z.of_nat (length pagesToOCR))).
  assert (Hp : 0 <= p) by (apply share_nonneg; discriminate).
  assert (Hn : inject_Z (Z.of_nat (length pagesToOCR)) * p == 70)
    by (apply share_total; lia).
  apply wp_bind.
  eapply wp_mono;
    [apply (page_loop_progress totalPages p Hp pagesToOCR 0%nat [] 25 s6 T6)
    | | auto | auto].
  - simpl. rewrite Qmult_0_l. discriminate.
  - simpl. rewrite Hn. discriminate.
  - intros textResults s7 T7. simpl in T7.
    apply (tracked_weaken _ 95) in T7; [|rewrite Hn; discriminate|discriminate].
    apply wp_bind, (terminateTesseract_tracked 95);
      [exact T7|intros s8 T8|intros e s8 T8; exact (tracked_ok _ _ T8)].
    apply wp_bind, (wp_updateProgress_tracked 95 95);
      [exact T8|discriminate|discriminate|intros s9 T9].
    assert (Hlast : forall out : Blob * string,
               wp (bind (updateProgress 100)
                     (fun _ => ret (Success
                        {| blob := fst out; filename := snd out;
                           pageCount := length pagesToOCR;
                           meta_languages := languages (options input);
                           meta_outputFormat := outputFormat (options input) |})))
                  (fun (_ : Output) s' => progress_ok (emitted s') /\ faithful s')
                  (fun (_ : Output) s' => progress_ok (emitted s') /\ faithful s')
                  (fun _ s' => progress_ok (emitted s') /\ faithful s') s9).
    { intros out.
      apply wp_bind, (wp_updateProgress_tracked 95 100);
        [exact T9|discriminate|discriminate|intros s10 T10].
      exact (tracked_ok _ _ T10). }
    apply wp_bind.
    destruct (outputFormat (options input)).
    + unfold wp at 1, ret. apply Hlast.
    + apply wp_bind. unfold createSearchablePDF.
      apply wp_await; [intros h _|intros e _; exact (tracked_ok _ _ T9)].
      unfold wp at 1, ret. apply Hlast.
Qed.

End OCRFacts.

Section OCRSession.

Import JS Async Logic OCR.

Variable env : Env.

Ltac session :=
  unfold closed, live in *; simpl in *; intuition (try congruence; try lia).

(** [terminateTesseract] when the worker's [terminate()] resolves: a live
    session is terminated once and the field cleared; with no session
    nothing is called. *)
Lemma terminateTesseract_closes (QV : unit -> St -> Prop)
    (QR : Output -> St -> Prop) (QE : thrown -> St -> Prop) (s : St) :
  (forall k, terminate env k = None) ->
  live s \/ closed s ->
  (forall s', closed s' -> workers_created s' = workers_created s ->
              emitted s' = emitted s -> QV tt s') ->
  wp (terminateTesseract env) QV QR QE s.
Proof.
  intros Hterm Hs HV.
  cbv [wp terminateTesseract bind get put await_ throw ret].
  destruct (tesseractWorker s) eqn:Ew.
  - rewrite Hterm. apply HV; [|reflexivity|reflexivity]. session.
  - apply HV; [|reflexivity|reflexivity]. session.
Qed.

Lemma initializeTesseract_opens (langs : list OCRLanguage)
    (QV : unit -> St -> Prop) (QR : Output -> St -> Prop)
    (QE : thrown -> St -> Prop) (s : St) :
  closed s ->
  (forall s', live s' -> workers_created s' = S (workers_created s) ->
              emitted s' = emitted s -> QV tt s') ->
  (forall e, QE e s) ->
  wp (initializeTesseract env langs) QV QR QE s.
Proof.
  intros Hs HV HE. cbv [wp initializeTesseract bind await_ get put throw ret].
  destruct (createWorker env); [apply HE|].
  apply HV; [|reflexivity|reflexivity]. session.
Qed.

Lemma page_loop_session (T : nat) (p : Q) :
  (forall k, terminate env k = None) ->
  forall rest i acc s,
    live s ->
    wp (page_loop env T p i rest acc)
       (fun _ s' => live s' /\ workers_created s' = workers_created s)
       (fun _ s' => closed s' /\ workers_created s' = workers_created s)
       (fun _ _ => False) s.
Proof.
  intros Hterm. induction rest as [|pageNum rest IH]; intros i acc s Hs.
  - simpl. unfold wp, ret. auto.
  - simpl page_loop. apply wp_bind, wp_checkCancelled.
    intros c s1 _ _ W1 C1 T1.
    assert (L1 : live s1) by session.
    destruct c.
    + apply wp_bind, terminateTesseract_closes; [exact Hterm|auto|].
      intros s2 Hc2 C2 _. unfold wp, return_. split; [exact Hc2|congruence].
    + apply wp_bind, wp_updateProgress. intros s2 _ W2 C2 T2.
      assert (L2 : live s2) by session.
      apply wp_bind.
      destruct (ocr_or_marker_run env i pageNum acc s2) as [entry [Hrun _]].
      unfold wp at 1. rewrite Hrun. cbv beta iota.
      eapply wp_mono; [apply (IH (S i) _ s2 L2)| | |auto];
        intros ? s3 [H3 C3]; (split; [exact H3|congruence]).
Qed.

(** From a state with no session, [process] ends with no session, having
    made as many [terminate()] calls as it created sessions (at most
    one), and it returns rather than throws. *)
Lemma ocr_process_session (input : ProcessInput) (s : St) :
  (forall k, terminate env k = None) ->
  closed s ->
  wp (process env input)
     (fun _ s' => closed s' /\ (workers_created s' <= S (workers_created s))%nat)
     (fun _ s' => closed s' /\ (workers_created s' <= S (workers_created s))%nat)
     (fun _ _ => False) s.
Proof.
  intros Hterm Hs.
  unfold process. apply wp_bind, wp_reset. intros s0 _ W0 C0 T0.
  assert (Hc0 : closed s0) by session.
  assert (Hfin : closed s0 /\ (workers_created s0 <= S (workers_created s))%nat)
    by (split; [exact Hc0|lia]).
  destruct (files input) as [|file [|file' more]]; try exact Hfin.
  destruct (negb (is_pdf file)); [exact Hfin|].
  apply wp_try_catch.
  apply wp_mono with
    (QV := fun _ s' => closed s' /\ (workers_created s' <= S (workers_created s))%nat)
    (QR := fun _ s' => closed s' /\ (workers_created s' <= S (workers_created s))%nat)
    (QE := fun _ s' => (live s' \/ closed s')
                       /\ (workers_created s' <= S (workers_created s))%nat);
    auto.
  2:{ intros e s' [Hs' Hle]. apply wp_bind, terminateTesseract_closes; auto.
      intros s2 Hc2 C2 _. unfold wp, ret. split; [exact Hc2|lia]. }
  unfold process_try.
  apply wp_bind, wp_updateProgress. intros s1 _ W1 C1 T1.
  assert (Hc1 : closed s1) by session.
  apply wp_bind, wp_await_; [intros _|intros e _; split; [auto|lia]].
  apply wp_bind, wp_checkCancelled. intros c s2 _ _ W2 C2 T2.
  assert (Hc2 : closed s2) by session.
  destruct c; [split; [exact Hc2|lia]|].
  apply wp_bind, wp_updateProgress. intros s3 _ W3 C3 T3.
  assert (Hc3 : closed s3) by session.
  apply wp_bind, initializeTesseract_opens;
    [exact Hc3 | intros s4 L4 C4 _ | intros e; split; [auto|lia]].
  apply wp_bind, wp_updateProgress. intros s5 _ W5 C5 T5.
  assert (L5 : live s5) by session.
  apply wp_bind, wp_await; [intros totalPages _|intros e _; split; [auto|lia]].
  set (pagesToOCR := select_pages (options input) totalPages).
  destruct (length pagesToOCR =? 0)%nat.
  { apply wp_bind, terminateTesseract_closes; auto.
    intros s6 Hc6 C6 _. unfold wp, return_. split; [exact Hc6|lia]. }
  apply wp_bind, wp_updateProgress. intros s6 _ W6 C6 T6.
  assert (L6 : live s6) by session.
  apply wp_bind.
  eapply wp_mono; [apply (page_loop_session _ _ Hterm pagesToOCR 0%nat [] s6 L6)
                  | | | intros ? ? []].
  2:{ intros o s7 [H7 C7]. split; [exact H7|lia]. }
  intros textResults s7 [L7 C7].
  apply wp_bind, terminateTesseract_closes; auto.
  intros s8 Hc8 C8 _.
  apply wp_bind, wp_updateProgress. intros s9 _ W9 C9 T9.
  assert (Hc9 : closed s9) by session.
  assert (Hle9 : (workers_created s9 <= S (workers_created s))%nat) by lia.
  assert (Hlast : forall out : Blob * string,
             wp (bind (updateProgress 100)
                   (fun _ => ret (Success
                      {| blob := fst out; filename := snd out;
                         pageCount := length pagesToOCR;
                         meta_languages := languages (options input);
                         meta_outputFormat := outputFormat (options input) |})))
                (fun (_ : Output) s' =>
                   closed s' /\ (workers_created s' <= S (workers_created s))%nat)
                (fun (_ : Output) s' =>
                   closed s' /\ (workers_created s' <= S (workers_created s))%nat)
                (fun _ s' => (live s' \/ closed s')
                   /\ (workers_created s' <= S (workers_created s))%nat) s9).
  { intros out. apply wp_bind, wp_updateProgress. intros s10 _ W10 C10 T10.
    unfold wp, ret. split; [session|lia]. }
  apply wp_bind.
  destruct (outputFormat (options input)).
  - unfold wp at 1, ret. apply Hlast.
  - apply wp_bind. unfold createSearchablePDF.
    apply wp_await; [intros h _|intros e _; split; [auto|exact Hle9]].
    unfold wp at 1, ret. apply Hlast.
Qed.

End OCRSession.

Section OCRTheorems.

Import JS Async Logic OCR.
Local Open Scope string_scope.

(** C6. The claim fails when the worker's [terminate()] rejects. With
    the first call rejecting, the run creates one session, returns a
    failure outcome and has called [terminate()] twice, not once: once
    after the page loop and once more from the [catch], because
    [terminateTesseract] clears the worker field only after the awaited
    call has resolved. *)
Lemma ocr_terminate_called_twice :
  let r := run (process Examples.ocr_terminate_rejects_once Examples.ocr_input)
               fresh in
  snd r = Returned (Failure PROCESSING_FAILED "Failed to perform OCR on PDF."
                      (Some "worker gone"))
  /\ workers_created (fst r) = 1%nat
  /\ terminate_calls (fst r) <> 1%nat.
Proof. vm_compute. repeat split. discriminate. Qed.

(** The extent of the defect: as long as the worker's [terminate()]
    itself resolves, a run of the OCR job started with no session always
    returns (it never throws), leaves the worker reference null, and has
    called [terminate()] exactly as many times as it created sessions,
    which is at most once. *)
Theorem ocr_terminate_exactly_once (env : Env) (input : ProcessInput) :
  (forall k, terminate env k = None) ->
  let r := run (process env input) fresh in
  is_returned (snd r)
  /\ tesseractWorker (fst r) = None
  /\ terminate_calls (fst r) = workers_created (fst r)
  /\ (workers_created (fst r) <= 1)%nat.
Proof.
  intros Hterm r. subst r.
  apply (wp_run (process env input)
           (fun s' c => is_returned c /\ tesseractWorker s' = None
                        /\ terminate_calls s' = workers_created s'
                        /\ (workers_created s' <= 1)%nat)).
  assert (Hfresh : closed fresh) by (split; reflexivity).
  eapply wp_mono; [apply (ocr_process_session env input fresh Hterm Hfresh)|..].
  - intros o s' [[Hw Hc] Hle]. simpl in Hle. repeat split; assumption.
  - intros o s' [[Hw Hc] Hle]. simpl in Hle. repeat split; assumption.
  - intros e s' [].
Qed.

Lemma ocr_terminate_exactly_once_page2_fails :
  let r := run (process Examples.ocr_page2_fails Examples.ocr_input) fresh in
  is_returned (snd r)
  /\ tesseractWorker (fst r) = None
  /\ terminate_calls (fst r) = workers_created (fst r)
  /\ (workers_created (fst r) <= 1)%nat.
Proof.
  apply (ocr_terminate_exactly_once Examples.ocr_page2_fails Examples.ocr_input).
  intros k. reflexivity.
Defined.

(** The other way the clean-up goes wrong: the document fails to load,
    the [catch] makes the first and only [terminate()] call, that call
    rejects, and so [process] itself rejects with the worker still set. *)
Example ocr_worker_kept_when_terminate_rejects :
  let r := run (process OCRExamples.ocr_document_and_terminate_reject
                  Examples.ocr_input) fresh in
  snd r = Rejected (ErrorObj "worker gone")
  /\ terminate_calls (fst r) = 1%nat
  /\ tesseractWorker (fst r) = Some 0%nat.
Proof. vm_compute. repeat split. Qed.

Example ocr_page2_fails_one_session :
  let r := run (process Examples.ocr_page2_fails Examples.ocr_input) fresh in
  workers_created (fst r) = 1%nat /\ terminate_calls (fst r) = 1%nat.
Proof. vm_compute. split; reflexivity. Qed.

Lemma initializeTesseract_resolves (env : Env) (langs : list OCRLanguage)
    (QV : unit -> St -> Prop) (QR : Output -> St -> Prop)
    (QE : thrown -> St -> Prop) (s : St) :
  createWorker env = None ->
  (forall s', tesseractWorker s' <> None -> QV tt s') ->
  wp (initializeTesseract env langs) QV QR QE s.
Proof.
  intros Hw HV. cbv [wp initializeTesseract bind await_ get put throw ret].
  rewrite Hw. apply HV. discriminate.
Qed.

Lemma terminateTesseract_resolves (env : Env)
    (QV : unit -> St -> Prop) (QR : Output -> St -> Prop)
    (QE : thrown -> St -> Prop) (s : St) :
  (forall k, terminate env k = None) ->
  (forall s', emitted s' = emitted s -> QV tt s') ->
  wp (terminateTesseract env) QV QR QE s.
Proof.
  intros Hterm HV. cbv [wp terminateTesseract bind get put await_ throw ret].
  destruct (tesseractWorker s); [rewrite Hterm|]; apply HV; reflexivity.
Qed.

(** With no cancellation and a live session, the page loop runs to its
    end and pushes one entry per page, text or marker. *)
Lemma page_loop_run (env : Env) (T : nat) (p : Q) :
  (forall k, cancelled env k = false) ->
  forall rest i acc s,
    tesseractWorker s <> None ->
    wp (page_loop env T p i rest acc)
       (fun res s' => res = List.app acc (page_entries env i rest)
                      /\ tesseractWorker s' <> None)
       (fun _ _ => False) (fun _ _ => False) s.
Proof.
  intros Hc. induction rest as [|pageNum rest IH]; intros i acc s Hs.
  - simpl. unfold wp, ret. rewrite app_nil_r. auto.
  - simpl page_loop. apply wp_bind, wp_checkCancelled.
    intros c s1 -> _ W1 _ _. rewrite Hc.
    apply wp_bind, wp_updateProgress. intros s2 _ W2 _ _.
    assert (Hs2 : tesseractWorker s2 <> None) by congruence.
    apply wp_bind.
    destruct (ocr_or_marker_run env i pageNum acc s2) as [entry [Hrun Hentry]].
    unfold wp at 1. rewrite Hrun. cbv beta iota.
    rewrite (Hentry Hs2).
    eapply wp_mono; [apply (IH (S i) _ s2 Hs2)| |auto|auto].
    intros res s3 [-> H3]. split; [|exact H3].
    simpl. rewrite <- app_assoc. reflexivity.
Qed.

Lemma page_entries_length (env : Env) (rest : list Z) :
  forall i, length (page_entries env i rest) = length rest.
Proof.
  induction rest as [|q rest IH]; intros i; simpl; [reflexivity|].
  rewrite IH. reflexivity.
Qed.

Lemma page_entries_lookup (env : Env) (rest : list Z) :
  forall i j p,
    rest !! j = Some p ->
    page_entries env i rest !! j = Some (page_entry env (i + j) p).
Proof.
  induction rest as [|q rest IH]; intros i j p Hj; [discriminate Hj|].
  destruct j as [|j]; simpl in *.
  - injection Hj as ->. rewrite Nat.add_0_r. reflexivity.
  - rewrite (IH (S i) j p Hj). f_equal. f_equal. lia.
Qed.

(** In the searchable-PDF format, with the recognition of page 2
    throwing, the job succeeds and its blob is the original document
    saved again: the very outcome of the run in which every page is
    recognised. Neither the error marker of page 2 nor the text of
    pages 1 and 3 is part of it. *)
Lemma ocr_searchable_drops_page_results :
  snd (run (process Examples.ocr_page2_fails Examples.ocr_input_searchable)
           fresh)
  = Returned (Success {| blob := BytesBlob 0;
                         filename := "scan_searchable.pdf";
                         pageCount := 3;
                         meta_languages := [eng];
                         meta_outputFormat := searchable_pdf |})
  /\ snd (run (process Examples.ocr_all_recognised
                  Examples.ocr_input_searchable) fresh)
     = snd (run (process Examples.ocr_page2_fails
                   Examples.ocr_input_searchable) fresh).
Proof. vm_compute. split; reflexivity. Qed.

(** C7 (amended). Take any run in which nothing but page recognition may
    fail: one PDF file, libraries and document load, at least one page
    selected, no cancellation, [terminate()] and (for the searchable
    format) the final save resolve. Whatever pages [recognize] throws on,
    the job returns a success outcome for all selected pages. In the text
    format its blob is one entry per selected page, in order, joined by
    blank lines: the page header followed by the page's text, or, for a
    page whose recognition threw, by the inline marker
    [[OCR Error: message]]. In the searchable-PDF format its blob is what
    saving the original document again produced, and holds no entry of
    any page. *)
Theorem ocr_page_failure_is_inline_marker (env : Env) (input : ProcessInput)
    (file : File) (totalPages : nat) :
  files input = [file] ->
  is_pdf file = true ->
  loadPdfjs env = None ->
  (forall k, cancelled env k = false) ->
  createWorker env = None ->
  getDocument env = inr totalPages ->
  select_pages (options input) totalPages <> [] ->
  (forall k, terminate env k = None) ->
  (outputFormat (options input) = searchable_pdf ->
   exists h, savePdf env = inr h) ->
  let pagesToOCR := select_pages (options input) totalPages in
  exists b fname,
    snd (run (process env input) fresh)
    = Returned (Success {| blob := b; filename := fname;
                           pageCount := length pagesToOCR;
                           meta_languages := languages (options input);
                           meta_outputFormat := outputFormat (options input) |})
    /\ (outputFormat (options input) = text ->
        exists entries,
          b = TextBlob (join (nl ++ nl) entries)
          /\ length entries = length pagesToOCR
          /\ forall i p,
               pagesToOCR !! i = Some p ->
               entries !! i
               = Some ("--- Page " ++ show p ++ " ---" ++ nl
                       ++ match recognize env i p with
                          | inr pageText => pageText
                          | inl e => "[OCR Error: " ++ message_of e ++ "]"
                          end))
    /\ (outputFormat (options input) = searchable_pdf ->
        exists h, savePdf env = inr h /\ b = BytesBlob h).
Proof.
  intros Hfiles Hpdf Hload Hcancel Hworker Hdoc Hsel Hterm Hsave pagesToOCR.
  set (b := match outputFormat (options input) with
            | text => TextBlob (join (nl ++ nl) (page_entries env 0 pagesToOCR))
            | searchable_pdf =>
                match savePdf env with
                | inr h => BytesBlob h
                | inl _ => BytesBlob 0
                end
            end).
  set (fname := match outputFormat (options input) with
                | text => baseName file ++ "_ocr.txt"
                | searchable_pdf => baseName file ++ "_searchable.pdf"
                end).
  exists b, fname.
  split; [|split].
  2:{ intros Htext. exists (page_entries env 0 pagesToOCR).
      split; [subst b; rewrite Htext; reflexivity|].
      split; [apply page_entries_length|].
      intros i p Hi. rewrite (page_entries_lookup env _ 0 i p Hi).
      reflexivity. }
  2:{ intros Hfmt. destruct (Hsave Hfmt) as [h Hh]. exists h.
      split; [exact Hh|]. subst b. rewrite Hfmt, Hh. reflexivity. }
  set (target := Success {| blob := b; filename := fname;
                            pageCount := length pagesToOCR;
                            meta_languages := languages (options input);
                            meta_outputFormat := outputFormat (options input) |}).
  apply (wp_run (process env input) (fun _ c => c = Returned target)).
  unfold process. apply wp_bind, wp_reset. intros s0 _ W0 _ _.
  rewrite Hfiles, Hpdf. simpl negb. cbv iota.
  apply wp_try_catch. unfold process_try.
  apply wp_bind, wp_updateProgress. intros s1 _ W1 _ _.
  rewrite Hload. apply wp_bind. unfold wp at 1, await_, ret.
  apply wp_bind, wp_checkCancelled. intros c s2 -> _ W2 _ _. rewrite Hcancel.
  apply wp_bind, wp_updateProgress. intros s3 _ W3 _ _.
  apply wp_bind, initializeTesseract_resolves; [exact Hworker|intros s4 L4].
  apply wp_bind, wp_updateProgress. intros s5 _ W5 _ _.
  rewrite Hdoc. apply wp_bind. unfold wp at 1, await, ret.
  fold pagesToOCR.
  destruct (length pagesToOCR =? 0)%nat eqn:Hlen.
  { exfalso. apply Nat.eqb_eq in Hlen.
    apply Hsel, length_zero_iff_nil, Hlen. }
  apply wp_bind, wp_updateProgress. intros s6 _ W6 _ _.
  assert (L6 : tesseractWorker s6 <> None) by congruence.
  apply wp_bind.
  eapply wp_mono;
    [apply (page_loop_run env totalPages _ Hcancel pagesToOCR 0%nat [] s6 L6)
    | | intros ? ? [] | intros ? ? []].
  intros textResults s7 [-> L7]. simpl app.
  apply wp_bind, terminateTesseract_resolves; [exact Hterm|intros s8 _].
  apply wp_bind, wp_updateProgress. intros s9 _ _ _ _.
  subst target b fname.
  destruct (outputFormat (options input)) eqn:Hfmt; [reflexivity|].
  destruct (Hsave eq_refl) as [h Hh].
  cbv [wp createSearchablePDF await bind ret updateProgress].
  rewrite Hh. reflexivity.
Qed.

Lemma ocr_page2_failure_is_inline_marker :
  exists b fname,
    snd (run (process Examples.ocr_page2_fails Examples.ocr_input) fresh)
    = Returned (Success {| blob := b; filename := fname; pageCount := 3;
                           meta_languages := [eng];
                           meta_outputFormat := text |})
    /\ b = TextBlob (join (nl ++ nl)
                       [ "--- Page 1 ---" ++ nl ++ "text";
                         "--- Page 2 ---" ++ nl ++ "[OCR Error: render failed]";
                         "--- Page 3 ---" ++ nl ++ "text" ]).
Proof.
  destruct (ocr_page_failure_is_inline_marker
              Examples.ocr_page2_fails Examples.ocr_input Examples.pdf_file 3)
    as [b [fname [Hrun [Hb _]]]].
  - reflexivity.
  - vm_compute. reflexivity.
  - reflexivity.
  - intros k. reflexivity.
  - reflexivity.
  - reflexivity.
  - vm_compute. discriminate.
  - intros k. reflexivity.
  - intros H. discriminate H.
  - exists b, fname. split; [exact Hrun|].
    destruct (Hb eq_refl) as [entries [-> [Hlen Hentry]]].
    pose proof (Hentry 0%nat 1%Z eq_refl) as H1.
    pose proof (Hentry 1%nat 2%Z eq_refl) as H2.
    pose proof (Hentry 2%nat 3%Z eq_refl) as H3.
    destruct entries as [|e1 [|e2 [|e3 [|e4 entries]]]];
      try discriminate Hlen.
    injection H1 as ->. injection H2 as ->. injection H3 as ->.
    vm_compute. reflexivity.
Defined.

End OCRTheorems.

Section SplitProgress.

Import JS Async Logic Split SplitPDF.
Open Scope Q_scope.

Variable env : Env.

(** The range loop keeps the progress invariant; it starts below
    [15 + i * p] and ends below [15 + n * p]. *)
Lemma range_loop_progress (file : File) (n : nat) (p : Q) :
  0 <= p ->
  forall rest i out b s,
    tracked b s ->
    b <= 15 + inject_Z (Z.of_nat i) * p ->
    15 + inject_Z (Z.of_nat (i + length rest)) * p <= 100 ->
    wp (range_loop env file n p i rest out)
       (fun _ s' =>
          tracked (15 + inject_Z (Z.of_nat (i + length rest)) * p) s')
       (fun _ s' => progress_ok (emitted s') /\ faithful s')
       (fun _ s' => progress_ok (emitted s') /\ faithful s') s.
Proof.
  intros Hp. induction rest as [|range rest IH]; intros i out b s Ht Hb Hend.
  - simpl. unfold wp, ret. rewrite Nat.add_0_r in *.
    eapply tracked_weaken; eassumption.
  - simpl range_loop.
    apply wp_bind, (wp_checkCancelled_tracked b); [exact Ht|].
    intros c s1 Ht1.
    destruct c; [exact (tracked_ok _ _ Ht1)|].
    assert (Hstep : 15 + inject_Z (Z.of_nat i) * p
                    <= 15 + inject_Z (Z.of_nat (i + length (range :: rest))) * p).
    { apply Qplus_le_r, Qmult_le_compat_r; [|exact Hp].
      apply inject_nat_le. lia. }
    apply wp_bind, (wp_updateProgress_tracked b); [exact Ht1|exact Hb| |].
    { eapply Qle_trans; eassumption. }
    intros s2 Ht2.
    apply wp_bind, wp_await;
      [intros blob _|intros e _; exact (tracked_ok _ _ Ht2)].
    simpl length in *.
    replace (i + S (length rest))%nat
      with (S i + length rest)%nat in * by lia.
    apply (IH (S i) _ _ s2 Ht2); [|exact Hend].
    rewrite inject_nat_succ. lra.
Qed.

Lemma split_process_progress (input : ProcessInput) (s : St) :
  wp (process env input)
     (fun _ s' => progress_ok (emitted s') /\ faithful s')
     (fun _ s' => progress_ok (emitted s') /\ faithful s')
     (fun _ s' => progress_ok (emitted s') /\ faithful s') s.
Proof.
  unfold process. apply wp_bind, wp_reset_tracked. intros s0 T0.
  pose proof (tracked_ok _ _ T0) as P0.
  destruct (files input) as [|file [|file' more]]; try exact P0.
  destruct (length (ranges (options input)) =? 0)%nat eqn:Hlen; [exact P0|].
  apply Nat.eqb_neq in Hlen.
  apply wp_try_catch.
  apply wp_mono with
    (QV := fun _ s' => progress_ok (emitted s') /\ faithful s')
    (QR := fun _ s' => progress_ok (emitted s') /\ faithful s')
    (QE := fun _ s' => progress_ok (emitted s') /\ faithful s'); auto.
  unfold process_try.
  apply wp_bind, (wp_updateProgress_tracked 0 5);
    [exact T0|discriminate|discriminate|intros s1 T1].
  apply wp_bind, wp_await_; [intros _|intros e _; exact (tracked_ok _ _ T1)].
  apply wp_bind, (wp_checkCancelled_tracked 5); [exact T1|intros c s2 T2].
  destruct c; [exact (tracked_ok _ _ T2)|].
  apply wp_bind, (wp_updateProgress_tracked 5 10);
    [exact T2|discriminate|discriminate|intros s3 T3].
  pose proof (tracked_ok _ _ T3) as P3.
  apply wp_bind, wp_await_; [intros _|intros e _; exact P3].
  apply wp_bind, wp_try_catch, wp_await.
  2:{ intros e _. destruct e as [m|]; [|exact P3].
      destruct (includes_str "encrypt" m); exact P3. }
  intros totalPages _.
  apply wp_bind, (wp_updateProgress_tracked 10 15);
    [exact T3|discriminate|discriminate|intros s4 T4].
  destruct (validatePageRanges _ _); [exact (tracked_ok _ _ T4)|].
  apply wp_bind, (wp_checkCancelled_tracked 15); [exact T4|intros c s5 T5].
  destruct c; [exact (tracked_ok _ _ T5)|].
  set (n := length (ranges (options input))) in *.
  set (p := 75 / inject_Z (Z.of_nat n)).
  assert (Hp : 0 <= p) by (apply share_nonneg; discriminate).
  assert (Hn : inject_Z (Z.of_nat n) * p == 75)
    by (apply share_total; lia).
  apply wp_bind.
  eapply wp_mono;
    [apply (range_loop_progress file n p Hp (ranges (options input)) 0%nat
              ([], []) 15 s5 T5)
    | | auto | auto].
  - simpl. rewrite Qmult_0_l. discriminate.
  - simpl. fold n. rewrite Hn. discriminate.
  - intros out s6 T6. simpl in T6. fold n in T6.
    apply (tracked_weaken _ 95) in T6; [|rewrite Hn; discriminate|discriminate].
    apply wp_bind, (wp_updateProgress_tracked 95 95);
      [exact T6|discriminate|discriminate|intros s7 T7].
    assert (Hlast : forall o : Output,
               wp (bind (updateProgress 100) (fun _ => ret o))
                  (fun (_ : Output) s' => progress_ok (emitted s') /\ faithful s')
                  (fun (_ : Output) s' => progress_ok (emitted s') /\ faithful s')
                  (fun _ s' => progress_ok (emitted s') /\ faithful s') s7).
    { intros o.
      apply wp_bind, (wp_updateProgress_tracked 95 100);
        [exact T7|discriminate|discriminate|intros s8 T8].
      exact (tracked_ok _ _ T8). }
    destruct (outputFormat (options input)); [apply Hlast|].
    destruct (fst out) as [|blob [|blob' blobs]]; try apply Hlast.
    destruct (snd out) as [|fname fnames]; [apply Hlast|].
    destruct (ranges (options input)); apply Hlast.
Qed.

End SplitProgress.

Section ProgressTheorem.

Import Async Logic.

(** C8. In one run of the split processor and in one run of the OCR
    processor, for every input and however the collaborators behave
    (failures, cancellation at any poll), the percentages handed to the
    progress callback form a non-decreasing sequence and none exceeds
    100; moreover each of them is the value the processor passed to
    [updateProgress], so the bound does not come from clamping. *)
Theorem progress_monotone_and_bounded
    (senv : SplitPDF.Env) (sinput : SplitPDF.ProcessInput)
    (oenv : OCR.Env) (oinput : OCR.ProcessInput) (s : St) :
  let split_end := fst (run (SplitPDF.process senv sinput) s) in
  let ocr_end := fst (run (OCR.process oenv oinput) s) in
  (progress_ok (emitted split_end) /\ faithful split_end)
  /\ (progress_ok (emitted ocr_end) /\ faithful ocr_end).
Proof.
  split.
  - apply (wp_run (SplitPDF.process senv sinput)
             (fun s' _ => progress_ok (emitted s') /\ faithful s')).
    apply split_process_progress.
  - apply (wp_run (OCR.process oenv oinput)
             (fun s' _ => progress_ok (emitted s') /\ faithful s')).
    apply ocr_process_progress.
Qed.

End ProgressTheorem.

Section TextColorPages.

Import JS Async Logic Recolor TextColor.

Variable env : Env.

(** An output page that is the recoloured rendering of source page [p]. *)
Let from_page (textOptions : TextColorOptions) (pdfjsDoc : list SourcePage)
    (p : Z) (o : OutPage) : Prop :=
  exists src, getPage pdfjsDoc p = inr src /\ o = recolored_page textOptions src.

Lemma textcolor_page_loop_pages (textOptions : TextColorOptions)
    (pdfjsDoc : list SourcePage) (count : nat) :
  forall rest i acc s,
    wp (page_loop env textOptions pdfjsDoc count i rest acc)
       (fun res _ => exists outs,
            res = List.app acc outs
            /\ Forall2 (from_page textOptions pdfjsDoc) rest outs)
       (fun o _ => forall r, o <> Success r)
       (fun _ _ => True) s.
Proof.
  induction rest as [|pageNum rest IH]; intros i acc s.
  - simpl. unfold wp, ret. exists []. rewrite app_nil_r.
    split; [reflexivity|constructor].
  - simpl page_loop. apply wp_bind, wp_checkCancelled. intros c s1 _ _ _ _ _.
    destruct c; [intros r; discriminate|].
    apply wp_bind, wp_updateProgress. intros s2 _ _ _ _.
    apply wp_bind, wp_await; [intros page Hpage|auto].
    apply wp_bind, wp_await_; [intros _|auto].
    eapply wp_mono; [apply (IH (S i) _ s2)| |auto|auto].
    intros res s3 [outs [-> Houts]].
    exists (recolored_page textOptions page :: outs). split.
    + rewrite <- app_assoc. reflexivity.
    + constructor; [|exact Houts]. exists page. split; [exact Hpage|reflexivity].
Qed.

Lemma textcolor_process_pages (input : ProcessInput) (s : St) :
  let good (o : Output) :=
    forall r, o = Success r ->
      exists pdfjsDoc,
        getDocument env = inr pdfjsDoc
        /\ pageCount r
           = length (select_pages (options input) (length pdfjsDoc))
        /\ exists outs,
             Forall2 (from_page (options input) pdfjsDoc)
                     (select_pages (options input) (length pdfjsDoc)) outs
             /\ document r = saved outs in
  wp (process env input) (fun o _ => good o) (fun o _ => good o)
     (fun _ _ => True) s.
Proof.
  intros good. unfold process. apply wp_bind, wp_reset. intros s0 _ _ _ _.
  destruct (files input) as [|file [|file' more]];
    try (intros r Hr; discriminate Hr).
  apply wp_try_catch.
  apply wp_mono with (QV := fun o _ => good o) (QR := fun o _ => good o)
                     (QE := fun _ _ => True); auto.
  2:{ intros e s' _ r Hr. discriminate Hr. }
  unfold process_try.
  apply wp_bind, wp_updateProgress. intros s1 _ _ _ _.
  apply wp_bind, wp_await_; [intros _|auto].
  apply wp_bind, wp_updateProgress. intros s2 _ _ _ _.
  apply wp_bind, wp_await; [intros pdfjsDoc Hdoc|auto].
  apply wp_bind, wp_updateProgress. intros s3 _ _ _ _.
  apply wp_bind.
  eapply wp_mono;
    [apply (textcolor_page_loop_pages (options input) pdfjsDoc _ _ 0%nat [] s3)
    | | |auto].
  2:{ intros o s4 Ho r Hr. exfalso. exact (Ho r Hr). }
  intros newPdf s4 [outs [-> Houts]]. simpl app.
  apply wp_bind, wp_updateProgress. intros s5 _ _ _ _.
  apply wp_bind, wp_await_; [intros _|auto].
  apply wp_bind, wp_updateProgress. intros s6 _ _ _ _.
  unfold wp, ret. intros r Hr. injection Hr as <-. cbn [document pageCount].
  exists pdfjsDoc. split; [exact Hdoc|]. split.
  - reflexivity.
  - exists outs. split; [exact Houts|reflexivity].
Qed.

Lemma saved_nonempty (outs : list OutPage) : outs <> [] -> saved outs = outs.
Proof. destruct outs; [contradiction|reflexivity]. Qed.

Lemma saved_length (outs : list OutPage) :
  length (saved outs) = Nat.max 1 (length outs).
Proof. destruct outs as [|o [|o' outs]]; reflexivity. Qed.

End TextColorPages.

Section SelectionTheorems.

Import JS Async Logic Recolor.
Local Open Scope string_scope.
Local Open Scope Z_scope.

(** With the empty list as the explicit selection, on any document, the
    job succeeds and delivers a file of one page, the blank A4 page
    [save()] adds, while reporting a [pageCount] of 0: the output has a
    page that no entry of the list stands for. *)
Lemma textcolor_empty_selection_blank_page :
  let numbers : list Z := [] in
  exists r,
    snd (run (TextColor.process Examples.textcolor_env
                (Examples.textcolor_input numbers)) fresh)
    = Returned (Success r)
    /\ TextColor.document r = [TextColor.blank_page]
    /\ TextColor.pageCount r = 0%nat
    /\ length (TextColor.document r) <> length numbers.
Proof.
  intros numbers.
  exists {| TextColor.document := [TextColor.blank_page];
            TextColor.filename := "scan_textcolor.pdf";
            TextColor.pageCount := 0 |}.
  split; [vm_compute; reflexivity|].
  split; [reflexivity|]. split; [reflexivity|]. discriminate.
Qed.

(** C10 (amended). When the text-colour job is given an explicit page
    list and succeeds, the reported [pageCount] is the length of that
    list. If the list is not empty the output document consists, in
    order, of one page per entry of the list, the recoloured rendering of
    the source page that entry names, and of no other page: a source
    page the list does not name contributes nothing. If the list is
    empty the output document is the single blank A4 page that saving a
    page-less document produces. In both cases the document has
    [max 1 (length of the list)] pages. *)
Theorem textcolor_output_is_the_selection (env : TextColor.Env)
    (input : TextColor.ProcessInput) (numbers : list Z)
    (r : TextColor.TextColorResult) (s : St) :
  TextColor.pages (TextColor.options input) = TextColor.explicit numbers ->
  snd (run (TextColor.process env input) s) = Returned (Success r) ->
  TextColor.pageCount r = length numbers
  /\ length (TextColor.document r) = Nat.max 1 (length numbers)
  /\ (numbers = [] -> TextColor.document r = [TextColor.blank_page])
  /\ exists pdfjsDoc,
       TextColor.getDocument env = inr pdfjsDoc
       /\ (numbers <> [] ->
           Forall2 (fun p o =>
                      exists src,
                        TextColor.getPage pdfjsDoc p = inr src
                        /\ o = TextColor.recolored_page
                                 (TextColor.options input) src)
                   numbers (TextColor.document r)).
Proof.
  intros Hsel Hrun.
  pose proof (textcolor_process_pages env input s) as H. cbv zeta in H.
  apply (wp_run (TextColor.process env input)
           (fun _ c => match c with
                       | Returned o => _ o
                       | Rejected _ => True
                       end)) in H.
  rewrite Hrun in H. specialize (H r eq_refl).
  unfold TextColor.select_pages in H. rewrite Hsel in H.
  destruct H as [pdfjsDoc [Hdoc [Hcount [outs [Hpages Hsaved]]]]].
  pose proof (Forall2_length _ _ _ Hpages) as Hlen.
  split; [exact Hcount|]. split.
  { rewrite Hsaved, saved_length, Hlen. reflexivity. }
  split.
  { intros ->. inversion Hpages; subst. exact Hsaved. }
  exists pdfjsDoc. split; [exact Hdoc|].
  intros Hne. rewrite Hsaved, saved_nonempty; [exact Hpages|].
  intros ->. inversion Hpages; subst. contradiction.
Qed.

Lemma textcolor_selection_3_1 :
  exists r,
    snd (run (TextColor.process Examples.textcolor_env
                (Examples.textcolor_input [3; 1])) fresh)
    = Returned (Success r)
    /\ TextColor.pageCount r = 2%nat
    /\ length (TextColor.document r) = 2%nat.
Proof.
  pose (c := snd (run (TextColor.process Examples.textcolor_env
                         (Examples.textcolor_input [3; 1])) fresh)).
  assert (Hc : snd (run (TextColor.process Examples.textcolor_env
                           (Examples.textcolor_input [3; 1])) fresh) = c)
    by reflexivity.
  vm_compute in c. subst c.
  match type of Hc with
  | _ = Returned (Success ?r) =>
      exists r; split; [exact Hc|];
      destruct (textcolor_output_is_the_selection
                  Examples.textcolor_env (Examples.textcolor_input [3; 1])
                  [3; 1] r fresh eq_refl Hc) as [H1 [H2 _]];
      split; [exact H1|exact H2]
  end.
Defined.

(** *** Out-of-range page numbers in an explicit list *)

(** OCR keeps exactly the in-range entries of a non-empty list. *)
Lemma ocr_selection_in_range (ocrOptions : OCR.OCROptions) (totalPages : nat) :
  Forall (fun p => 1 <= p <= Z.of_nat totalPages)
         (OCR.select_pages ocrOptions totalPages)
  /\ (OCR.pages ocrOptions <> [] ->
      OCR.select_pages ocrOptions totalPages
      = List.filter (fun p => (1 <=? p) && (p <=? Z.of_nat totalPages))
                    (OCR.pages ocrOptions)).
Proof.
  unfold OCR.select_pages. split.
  - destruct (0 <? length (OCR.pages ocrOptions))%nat.
    + apply List.Forall_forall. intros p Hp.
      apply List.filter_In in Hp as [_ Hp].
      apply andb_true_iff in Hp as [H1 H2]. lia.
    + apply List.Forall_forall. intros p Hp.
      apply List.in_map_iff in Hp as [i [<- Hi]].
      apply List.in_seq in Hi. lia.
  - intros Hne. destruct (OCR.pages ocrOptions); [contradiction|reflexivity].
Qed.

(** The background tint draws the rectangle on source page [i + 1]
    exactly when the explicit list names it; an entry that names no page
    of the document matches no loop index and has no effect. *)
Lemma background_tint_iff_listed (bgOptions : BackgroundColor.BackgroundColorOptions)
    (numbers : list Z) (totalPages i : nat) :
  BackgroundColor.pages bgOptions = BackgroundColor.explicit numbers ->
  BackgroundColor.includes_index
    (BackgroundColor.select_pages bgOptions totalPages) i = true
  <-> In (Z.of_nat i + 1) numbers.
Proof.
  intros Hsel. unfold BackgroundColor.includes_index,
    BackgroundColor.select_pages. rewrite Hsel.
  rewrite List.existsb_exists. split.
  - intros [q [Hq Heq]]. apply List.in_map_iff in Hq as [n [<- Hn]].
    apply Z.eqb_eq in Heq. replace (Z.of_nat i + 1) with n by lia. exact Hn.
  - intros Hin. exists (Z.of_nat i). split; [|apply Z.eqb_refl].
    apply List.in_map_iff. exists (Z.of_nat i + 1). split; [lia|exact Hin].
Qed.

(** X12. The text-colour job never succeeds when its explicit list names a
    page the document does not have: the entry is not filtered out, it
    reaches [getPage], whose rejection aborts the whole job. *)
Lemma textcolor_out_of_range_never_succeeds (env : TextColor.Env)
    (input : TextColor.ProcessInput) (numbers : list Z)
    (pdfjsDoc : list TextColor.SourcePage) (p : Z)
    (r : TextColor.TextColorResult) (s : St) :
  TextColor.pages (TextColor.options input) = TextColor.explicit numbers ->
  TextColor.getDocument env = inr pdfjsDoc ->
  In p numbers ->
  p < 1 \/ Z.of_nat (length pdfjsDoc) < p ->
  snd (run (TextColor.process env input) s) <> Returned (Success r).
Proof.
  intros Hsel Hdoc Hin Hout Hrun.
  pose proof (textcolor_process_pages env input s) as H. cbv zeta in H.
  apply (wp_run (TextColor.process env input)
           (fun _ c => match c with
                       | Returned o => _ o
                       | Rejected _ => True
                       end)) in H.
  rewrite Hrun in H. specialize (H r eq_refl).
  unfold TextColor.select_pages in H. rewrite Hsel in H.
  destruct H as [doc' [Hdoc' [_ [outs0 [Hpages _]]]]].
  rewrite Hdoc in Hdoc'. injection Hdoc' as <-.
  apply List.In_nth_error in Hin as [i Hi].
  revert Hpages Hi. clear -Hout.
  generalize outs0. revert i.
  induction numbers as [|q qs IH]; intros i outs Hpages Hi;
    [destruct i; discriminate|].
  inversion Hpages as [|? o ? outs' [src [Hsrc _]] Hrest]; subst.
  destruct i as [|i]; simpl in Hi.
  - injection Hi as ->. unfold TextColor.getPage in Hsrc.
    destruct (Z.leb_spec 1 p), (Z.leb_spec p (Z.of_nat (length pdfjsDoc)));
      simpl in Hsrc; try discriminate; lia.
  - exact (IH i outs' Hrest Hi).
Qed.

Lemma textcolor_out_of_range_never_succeeds_1_5 :
  snd (run (TextColor.process Examples.textcolor_env
              (Examples.textcolor_input [1; 5])) fresh)
  <> Returned (Success {| TextColor.document := [];
                          TextColor.filename := "sample_textcolor.pdf";
                          TextColor.pageCount := 2 |}).
Proof.
  apply (textcolor_out_of_range_never_succeeds Examples.textcolor_env
           (Examples.textcolor_input [1; 5]) [1; 5] Examples.three_pages 5).
  - reflexivity.
  - reflexivity.
  - right. left. reflexivity.
  - right. vm_compute. reflexivity.
Defined.

(** C1 at the selection [1, 5] on a three-page document. OCR drops the
    5 and recognises page 1; the background tint ignores the 5 and tints
    page 1 only; the text-colour job passes the 5 to [getPage] and the
    whole job fails. *)
Lemma out_of_range_page_in_explicit_list :
  (exists r,
      snd (run (OCR.process Examples.ocr_page2_fails
                  (Examples.ocr_input_pages [1; 5])) fresh)
      = Returned (Success r)
      /\ OCR.pageCount r = 1%nat)
  /\ (exists r,
         snd (run (BackgroundColor.process Examples.background_env
                     (Examples.background_input [1; 5])) fresh)
         = Returned (Success r)
         /\ map BackgroundColor.tinted (BackgroundColor.document r)
            = [true; false; false])
  /\ snd (run (TextColor.process Examples.textcolor_env
                 (Examples.textcolor_input [1; 5])) fresh)
     = Returned (Failure PROCESSING_FAILED "Failed to change text color."
                   (Some "Invalid page request.")).
Proof.
  split; [|split].
  - eexists. split; vm_compute; reflexivity.
  - eexists. split; vm_compute; reflexivity.
  - vm_compute. reflexivity.
Qed.

End SelectionTheorems.

Section ModelChecks.

Import JS Split SplitPDF.
Local Open Scope string_scope.

(** The typed-array conversion rounds half to even and clamps. *)
Example toUint8Clamp_values :
  map toUint8Clamp [-3; 1 # 2; 3 # 2; 5 # 2; 1274 # 10; 509 # 2; 255; 300]%Q
  = [0; 0; 2; 2; 127; 254; 255; 255].
Proof. vm_compute. reflexivity. Qed.

(** The two file names of section 8 of the specification. *)
Example generateSplitFilename_single :
  generateSplitFilename "report.pdf" {| start := 2; end_ := 2 |} 1 1
  = "report_page_2.pdf".
Proof. vm_compute. reflexivity. Qed.

Example generateSplitFilename_part :
  generateSplitFilename "report.pdf" {| start := 1; end_ := 3 |} 2 2
  = "report_part2_pages_1-3.pdf".
Proof. vm_compute. reflexivity. Qed.

(** Rounding to binary64: [0.1], [383 / 3], [1 / 3], a tie above [2^53]
    in both directions, a value below half the least subnormal, and
    overflow. *)
Example round64_values :
  map round64
      [1 # 10; 383 # 3; 1 # 3; -(1 # 3); 9007199254740993;
       9007199254740995; 1; 0; 2 ^ (-1076); 2 ^ 1024 - 1]%Q
  = [3602879701896397 # 36028797018963968;
     8983743006681771 # 70368744177664;
     6004799503160661 # 18014398509481984;
     -(6004799503160661 # 18014398509481984);
     9007199254740992; 9007199254740996; 1; 0; 0; infinity]%Q.
Proof. vm_compute. reflexivity. Qed.

(** On integers [nearest_double] is [round64]. *)
Example nearest_double_values :
  let ns := [0; 1; 4096; 9007199254740992; 9007199254740993;
             9007199254740995; 18014398509481985;
             123456789012345678901234567890]%Z in
  map (fun n => inject_Z (nearest_double n)) ns
  = map (fun n => round64 (inject_Z n)) ns.
Proof. vm_compute. reflexivity. Qed.

(** [parseInt] reads a digit prefix and rejects what has none. *)
Example parseInt_values :
  map parseInt ["42"; "  7"; "12abc"; "-5"; "+3"; "abc"; ""; "- 5"; "1.5"]
  = [Some 42; Some 7; Some 12; Some (-5); Some 3; None; None; None; Some 1].
Proof. vm_compute. reflexivity. Qed.

End ModelChecks.

Section RangeGenerators.

Import JS Split SplitPDF SplitGen.
Local Open Scope Z_scope.

Lemma seq_from_zero (a b : nat) :
  seq a b = map (fun k => (a + k)%nat) (seq 0 b).
Proof.
  revert a. induction b as [|b IH]; intros a; [reflexivity|].
  simpl. rewrite Nat.add_0_r. f_equal.
  rewrite (IH (S a)), (IH 1%nat), List.map_map.
  apply List.map_ext. intros k. lia.
Qed.

(** Page offsets [from, from + 1, ...], [count] of them. *)
Lemma offsets_split (from : Z) (a b : nat) :
  map (fun k => from + Z.of_nat k) (seq 0 (a + b))
  = (map (fun k => from + Z.of_nat k) (seq 0 a)
     ++ map (fun k => from + Z.of_nat a + Z.of_nat k) (seq 0 b))%list.
Proof.
  rewrite List.seq_app, List.map_app. f_equal. simpl.
  rewrite (seq_from_zero a b), List.map_map.
  apply List.map_ext. intros k. lia.
Qed.

Lemma pageIndices_offsets (r : PageRange) :
  pageIndices r
  = map (fun k => start r - 1 + Z.of_nat k)
        (seq 0 (Z.to_nat (end_ r - start r + 1))).
Proof. unfold pageIndices. apply List.map_ext. intros k. lia. Qed.

(** With a positive chunk size the loop ends within the fuel it is given
    and pushes consecutive valid chunks up to the last page. *)
Lemma everyN_loop_chunks (T n : Z) :
  1 <= n ->
  forall fuel from acc,
    1 <= from ->
    Z.max 0 (T - from + 1) < Z.of_nat fuel ->
    exists rs,
      everyN_loop fuel from T n acc = Some (acc ++ rs)%list
      /\ Forall (range_ok T) rs
      /\ Forall (fun r => end_ r - start r + 1 <= n) rs
      /\ flat_map pageIndices rs
         = map (fun k => from - 1 + Z.of_nat k)
               (seq 0 (Z.to_nat (T - from + 1))).
Proof.
  intros Hn. induction fuel as [|fuel IH]; intros from acc Hfrom Hfuel; [lia|].
  simpl. destruct (Z.leb_spec from T) as [Hle|Hgt].
  - set (r := {| start := from; end_ := Z.min (from + n - 1) T |}).
    destruct (IH (from + n) (acc ++ [r])%list) as [rs [Hrun [Hok [Hsz Hidx]]]];
      [lia|lia|].
    exists (r :: rs). split; [|split; [|split]].
    + rewrite Hrun, <- app_assoc. reflexivity.
    + constructor; [|exact Hok]. unfold range_ok, r. simpl. lia.
    + constructor; [|exact Hsz]. unfold r. simpl. lia.
    + simpl flat_map. rewrite Hidx, pageIndices_offsets. unfold r. simpl.
      destruct (Z.le_gt_cases (from + n - 1) T) as [Hfull|Hlast].
      * rewrite Z.min_l by lia.
        replace (Z.to_nat (T - from + 1))
          with (Z.to_nat n + Z.to_nat (T - (from + n) + 1))%nat by lia.
        rewrite offsets_split.
        replace (from + n - 1 - from + 1) with n by lia.
        f_equal. apply List.map_ext. intros k. lia.
      * rewrite Z.min_r by lia.
        replace (Z.to_nat (T - (from + n) + 1)) with 0%nat by lia.
        simpl. rewrite app_nil_r. reflexivity.
  - exists []. rewrite app_nil_r.
    replace (Z.to_nat (T - from + 1)) with 0%nat by lia.
    repeat split; constructor.
Qed.

(** X1. For every page count and every chunk size of at least 1,
    [createSplitEveryNPages] returns, and the ranges it returns pass
    [validatePageRanges] against that page count: the generator never
    produces a range the split processor would reject. *)
Theorem createSplitEveryNPages_valid (totalPages n : Z) :
  1 <= n ->
  exists ranges,
    createSplitEveryNPages totalPages n = Some ranges
    /\ validatePageRanges ranges totalPages = None
    /\ Forall (fun r => end_ r - start r + 1 <= n) ranges.
Proof.
  intros Hn. unfold createSplitEveryNPages.
  destruct (everyN_loop_chunks totalPages n Hn
              (S (Z.to_nat totalPages)) 1 []) as [rs [Hrun [Hok [Hsz _]]]];
    [lia|lia|].
  exists rs. split; [exact Hrun|]. split; [|exact Hsz].
  apply validatePageRanges_all_ok. exact Hok.
Qed.

Lemma createSplitEveryNPages_valid_10_3 :
  exists ranges,
    createSplitEveryNPages 10 3 = Some ranges
    /\ validatePageRanges ranges 10 = None
    /\ Forall (fun r => end_ r - start r + 1 <= 3) ranges.
Proof. apply (createSplitEveryNPages_valid 10 3). lia. Defined.

(** X2. For a chunk size of at least 1, the 0-based page indices of the
    generated ranges, taken range after range, are exactly
    [0, 1, ..., totalPages - 1]: every page is extracted once, in
    document order, with no gap and no overlap between chunks. *)
Theorem createSplitEveryNPages_partition (totalPages n : Z) :
  1 <= n ->
  exists ranges,
    createSplitEveryNPages totalPages n = Some ranges
    /\ flat_map pageIndices ranges
       = map Z.of_nat (seq 0 (Z.to_nat totalPages)).
Proof.
  intros Hn. unfold createSplitEveryNPages.
  destruct (everyN_loop_chunks totalPages n Hn
              (S (Z.to_nat totalPages)) 1 []) as [rs [Hrun [_ [_ Hidx]]]];
    [lia|lia|].
  exists rs. split; [exact Hrun|]. rewrite Hidx.
  replace (totalPages - 1 + 1) with totalPages by lia.
  apply List.map_ext. intros k. lia.
Qed.

Lemma createSplitEveryNPages_partition_10_3 :
  exists ranges,
    createSplitEveryNPages 10 3 = Some ranges
    /\ flat_map pageIndices ranges = [0; 1; 2; 3; 4; 5; 6; 7; 8; 9].
Proof. apply (createSplitEveryNPages_partition 10 3). lia. Defined.

Example createSplitEveryNPages_10_3 :
  createSplitEveryNPages 10 3
  = Some [ {| start := 1; end_ := 3 |}; {| start := 4; end_ := 6 |};
           {| start := 7; end_ := 9 |}; {| start := 10; end_ := 10 |} ].
Proof. reflexivity. Qed.

(** X3. With a chunk size of 0 or less and at least one page, the loop of
    [createSplitEveryNPages] never ends: whatever number of loop tests is
    allowed, it is still running, its start page never having passed the
    page count. *)
Theorem createSplitEveryNPages_diverges (totalPages n : Z) (fuel : nat)
    (from : Z) (acc : list PageRange) :
  n <= 0 -> from <= totalPages ->
  everyN_loop fuel from totalPages n acc = None.
Proof.
  intros Hn. revert from acc.
  induction fuel as [|fuel IH]; intros from acc Hfrom; [reflexivity|].
  simpl. destruct (Z.leb_spec from totalPages); [|lia].
  apply IH. lia.
Qed.

Lemma createSplitEveryNPages_diverges_n0 :
  everyN_loop 1000 1 10 0 [] = None.
Proof. apply createSplitEveryNPages_diverges; lia. Defined.

End RangeGenerators.

Section SplitFileNames.

Import JS Split SplitPDF.
Local Open Scope string_scope.
Local Open Scope Z_scope.

Lemma append_cancel_l (s a b : string) : s ++ a = s ++ b -> a = b.
Proof.
  induction s as [|c s IH]; simpl; intros H; [exact H|].
  injection H as H. exact (IH H).
Qed.

Lemma lastIndexOf_absent (c : ascii) (s : string) :
  includes c s = false -> lastIndexOf c s = None.
Proof.
  induction s as [|d s IH]; simpl; intros H; [reflexivity|].
  apply orb_false_iff in H as [Hd Hs]. rewrite (IH Hs), Hd. reflexivity.
Qed.

Lemma lastIndexOf_last (c : ascii) (base ext : string) :
  includes c ext = false ->
  lastIndexOf c (base ++ String c ext) = Some (String.length base).
Proof.
  intros Hext. induction base as [|d base IH]; simpl.
  - rewrite (lastIndexOf_absent c ext Hext), Ascii.eqb_refl. reflexivity.
  - rewrite IH. reflexivity.
Qed.

Lemma substring_prefix (base rest : string) :
  substring 0 (String.length base) (base ++ rest) = base.
Proof.
  induction base as [|d base IH]; simpl.
  - destruct rest; reflexivity.
  - rewrite IH. reflexivity.
Qed.

(** X5. [getFileNameWithoutExtension] removes exactly the last extension:
    for a name [base.ext] whose [ext] contains no dot it returns [base]
    (the empty string for a name such as [.pdf]), and a name with no dot
    at all is returned unchanged. *)
Theorem getFileNameWithoutExtension_strips_last (base ext : string) :
  includes "." ext = false ->
  getFileNameWithoutExtension (base ++ "." ++ ext) = base
  /\ getFileNameWithoutExtension ext = ext.
Proof.
  intros Hext. unfold getFileNameWithoutExtension. split.
  - change (base ++ "." ++ ext) with (base ++ String "." ext).
    rewrite (lastIndexOf_last "." base ext Hext). apply substring_prefix.
  - rewrite (lastIndexOf_absent "." ext Hext). reflexivity.
Qed.

Lemma getFileNameWithoutExtension_archive :
  getFileNameWithoutExtension ("report.v2" ++ "." ++ "pdf") = "report.v2"
  /\ getFileNameWithoutExtension "pdf" = "pdf".
Proof.
  apply (getFileNameWithoutExtension_strips_last "report.v2" "pdf").
  reflexivity.
Defined.

(** Reading a numeral back from the front of a longer string. *)
Lemma digits_prefix_then (u : Decimal.uint) (c : ascii) (r : string) :
  is_digit c = false ->
  digits_prefix (NilEmpty.string_of_uint u ++ String c r) = u.
Proof.
  intros Hc. induction u; simpl; [rewrite Hc; reflexivity|..];
    rewrite IHu; reflexivity.
Qed.

Lemma parse_unsigned_show_then (a : N) (c : ascii) (r : string) :
  is_digit c = false ->
  parse_unsigned (show (Z.of_N a) ++ String c r) = Some (Z.of_N a).
Proof.
  intros Hc. destruct (show_of_N a) as [u [Hne [-> Hval]]].
  unfold parse_unsigned. rewrite (digits_prefix_then u c r Hc).
  destruct u; [contradiction|..]; rewrite <- Hval; reflexivity.
Qed.

(** With several ranges the name is the base name, [_part], the range
    index and a suffix that starts with an underscore. *)
Lemma generateSplitFilename_infix (originalName : string) (range : PageRange)
    (rangeIndex : Z) (totalRanges : nat) :
  totalRanges <> 1%nat ->
  exists tail,
    generateSplitFilename originalName range rangeIndex totalRanges
    = getFileNameWithoutExtension originalName
      ++ "_part" ++ show rangeIndex ++ String "_" tail.
Proof.
  intros Hn. unfold generateSplitFilename.
  destruct (Nat.eqb_spec totalRanges 1); [contradiction|].
  destruct (start range =? end_ range); eexists; reflexivity.
Qed.

(** X4. When a split has several ranges, two different range positions
    never get the same output file name, whatever the original name and
    whatever the two ranges are (even equal ranges): the [_partN] infix
    tells them apart. *)
Theorem generateSplitFilename_distinct_parts (originalName : string)
    (range1 range2 : PageRange) (i j : N) (totalRanges : nat) :
  totalRanges <> 1%nat ->
  i <> j ->
  generateSplitFilename originalName range1 (Z.of_N i) totalRanges
  <> generateSplitFilename originalName range2 (Z.of_N j) totalRanges.
Proof.
  intros Hn Hij Heq.
  destruct (generateSplitFilename_infix originalName range1 (Z.of_N i)
              totalRanges Hn) as [t1 H1].
  destruct (generateSplitFilename_infix originalName range2 (Z.of_N j)
              totalRanges Hn) as [t2 H2].
  rewrite H1, H2 in Heq.
  apply append_cancel_l in Heq. apply (append_cancel_l "_part") in Heq.
  apply (f_equal parse_unsigned) in Heq.
  rewrite !parse_unsigned_show_then in Heq by reflexivity.
  injection Heq as Heq. apply Hij. lia.
Qed.

Lemma generateSplitFilename_distinct_parts_1_12 :
  generateSplitFilename "a.pdf" {| start := 2; end_ := 2 |} (Z.of_N 1) 12
  <> generateSplitFilename "a.pdf" {| start := 2; end_ := 2 |} (Z.of_N 12) 12.
Proof.
  apply (generateSplitFilename_distinct_parts "a.pdf"
           {| start := 2; end_ := 2 |} {| start := 2; end_ := 2 |} 1 12 12);
    [lia|discriminate].
Defined.

End SplitFileNames.

Section SplitSuccess.

Import JS Async Logic Split SplitPDF SplitOutcome.
Local Open Scope Z_scope.

Variable env : Env.

Lemma validatePageRanges_from_none (T : Z) (ranges : list PageRange) :
  forall i, validatePageRanges_from i ranges T = None ->
            Forall (range_ok T) ranges.
Proof.
  induction ranges as [|r ranges IH]; intros i H; [constructor|].
  simpl in H.
  destruct (Z.ltb_spec (start r) 1); [discriminate|].
  destruct (Z.ltb_spec (end_ r) (start r)); [discriminate|].
  destruct (Z.ltb_spec T (end_ r)); [discriminate|].
  destruct (Z.ltb_spec T (start r)); [discriminate|].
  constructor; [unfold range_ok; lia|exact (IH _ H)].
Qed.

Lemma copies_length (i : nat) (rest : list PageRange) (blobs : list nat) :
  copies env i rest = Some blobs -> length blobs = length rest.
Proof.
  revert i blobs. induction rest as [|r rest IH]; intros i blobs H; simpl in H.
  - injection H as <-. reflexivity.
  - destruct (copyAndSave env i (pageIndices r)); [discriminate|].
    destruct (copies env (S i) rest) eqn:E; [|discriminate].
    injection H as <-. simpl. f_equal. exact (IH _ _ E).
Qed.

Lemma filenames_from_length (file : File) (n i : nat) (rest : list PageRange) :
  length (filenames_from file n i rest) = length rest.
Proof.
  revert i. induction rest as [|r rest IH]; intros i; simpl; [reflexivity|].
  f_equal. apply IH.
Qed.

(** The range loop, when it runs to its end, has copied every range and
    named every output, in order. *)
Lemma range_loop_outputs (file : File) (n : nat) (p : Q) :
  forall rest i out s,
    wp (range_loop env file n p i rest out)
       (fun res _ => exists blobs,
            copies env i rest = Some blobs
            /\ res = (List.app (fst out) blobs,
                      List.app (snd out) (filenames_from file n i rest)))
       (fun o _ => forall r, o <> Success r)
       (fun _ _ => True) s.
Proof.
  induction rest as [|range rest IH]; intros i out s.
  - simpl. unfold wp, ret. exists []. rewrite !app_nil_r.
    split; [reflexivity|]. destruct out; reflexivity.
  - simpl range_loop. apply wp_bind, wp_checkCancelled. intros c s1 _ _ _ _ _.
    destruct c; [intros r; discriminate|].
    apply wp_bind, wp_updateProgress. intros s2 _ _ _ _.
    apply wp_bind, wp_await; [intros blob Hblob|auto].
    eapply wp_mono; [apply (IH (S i) _ s2)| |auto|auto].
    intros res s3 [blobs [Hcopies ->]]. simpl fst. simpl snd.
    exists (blob :: blobs). split.
    + simpl. rewrite Hblob, Hcopies. reflexivity.
    + rewrite <- !app_assoc. reflexivity.
Qed.

Lemma split_process_outputs (input : ProcessInput) (s : St) :
  let good (o : Output) :=
    forall r, o = Success r ->
      exists file totalPages,
        files input = [file]
        /\ load env = inr totalPages
        /\ result_sourcePageCount r = totalPages
        /\ Forall (range_ok (Z.of_nat totalPages)) (ranges (options input))
        /\ copies env 0 (ranges (options input)) = Some (result_blobs r)
        /\ result_files r
           = filenames_from file (length (ranges (options input))) 0
                            (ranges (options input)) in
  wp (process env input) (fun o _ => good o) (fun o _ => good o)
     (fun _ _ => True) s.
Proof.
  intros good. unfold process. apply wp_bind, wp_reset. intros s0 _ _ _ _.
  destruct (files input) as [|file [|file' more]];
    try (intros r Hr; discriminate Hr).
  destruct (length (ranges (options input)) =? 0)%nat;
    [intros r Hr; discriminate Hr|].
  apply wp_try_catch.
  apply wp_mono with (QV := fun o _ => good o) (QR := fun o _ => good o)
                     (QE := fun _ _ => True); auto.
  2:{ intros e s' _ r Hr. discriminate Hr. }
  unfold process_try.
  apply wp_bind, wp_updateProgress. intros s1 _ _ _ _.
  apply wp_bind, wp_await_; [intros _|auto].
  apply wp_bind, wp_checkCancelled. intros c s2 _ _ _ _ _.
  destruct c; [intros r Hr; discriminate Hr|].
  apply wp_bind, wp_updateProgress. intros s3 _ _ _ _.
  apply wp_bind, wp_await_; [intros _|auto].
  apply wp_bind, wp_try_catch, wp_await.
  2:{ intros e _. destruct e as [m|]; [|exact I].
      destruct (includes_str "encrypt" m); [|exact I].
      intros r Hr. discriminate Hr. }
  intros totalPages Hload.
  apply wp_bind, wp_updateProgress. intros s4 _ _ _ _.
  destruct (validatePageRanges _ _) eqn:Hval;
    [intros r Hr; discriminate Hr|].
  apply validatePageRanges_from_none in Hval.
  apply wp_bind, wp_checkCancelled. intros c s5 _ _ _ _ _.
  destruct c; [intros r Hr; discriminate Hr|].
  apply wp_bind.
  eapply wp_mono;
    [apply (range_loop_outputs file _ _ (ranges (options input)) 0%nat
              ([], []) s5)
    | | |auto].
  2:{ intros o s6 Ho r Hr. exfalso. exact (Ho r Hr). }
  intros out s6 [blobs [Hcopies ->]]. simpl fst. simpl snd. simpl app.
  pose proof (copies_length _ _ _ Hcopies) as Hlen.
  pose proof (filenames_from_length file (length (ranges (options input)))
                0 (ranges (options input))) as Hnames.
  apply wp_bind, wp_updateProgress. intros s7 _ _ _ _.
  assert (Hmulti :
    wp (bind (updateProgress 100)
          (fun _ => ret (Success
             (MultipleFiles blobs
                (join ", " (filenames_from file (length (ranges (options input)))
                              0 (ranges (options input))))
                (length (ranges (options input))) totalPages
                (filenames_from file (length (ranges (options input)))
                   0 (ranges (options input)))))))
       (fun o _ => good o) (fun o _ => good o) (fun _ _ => True) s7).
  { apply wp_bind, wp_updateProgress. intros s8 _ _ _ _.
    unfold wp, ret. intros r Hr. injection Hr as <-.
    exists file, totalPages. repeat split; assumption. }
  destruct (outputFormat (options input)); [exact Hmulti|].
  destruct blobs as [|blob [|blob' blobs]]; try exact Hmulti.
  destruct (filenames_from file (length (ranges (options input))) 0
              (ranges (options input))) as [|fname fnames] eqn:Hfn;
    [exact Hmulti|].
  destruct (ranges (options input)) as [|range [|range' rest]] eqn:Hr;
    try discriminate Hlen.
  simpl in Hfn. injection Hfn as <- <-.
  apply wp_bind, wp_updateProgress. intros s8 _ _ _ _.
  unfold wp, ret. intros r Hr'. injection Hr' as <-.
  exists file, totalPages. repeat split; assumption.
Qed.

End SplitSuccess.

Section SplitSuccessTheorem.

Import JS Async Logic Split SplitPDF SplitOutcome.
Local Open Scope Z_scope.

(** X6. Whenever the split job succeeds, every requested range lies
    within the document ([1 <= start <= end <= page count]), the result
    holds one blob and one file name per range in the order the ranges
    were given, the blob of the [i]-th range being what copying exactly
    the 0-based pages [start - 1 .. end - 1] produced, and its name being
    [generateSplitFilename] for position [i + 1]. *)
Theorem split_success_outputs (env : Env) (input : ProcessInput)
    (r : SplitResult) (s : St) :
  snd (run (process env input) s) = Returned (Success r) ->
  exists file totalPages,
    files input = [file]
    /\ load env = inr totalPages
    /\ result_sourcePageCount r = totalPages
    /\ Forall (range_ok (Z.of_nat totalPages)) (ranges (options input))
    /\ copies env 0 (ranges (options input)) = Some (result_blobs r)
    /\ result_files r
       = filenames_from file (length (ranges (options input))) 0
                        (ranges (options input)).
Proof.
  intros Hrun.
  pose proof (split_process_outputs env input s) as H. cbv zeta in H.
  apply (wp_run (process env input)
           (fun _ c => match c with
                       | Returned o => _ o
                       | Rejected _ => True
                       end)) in H.
  rewrite Hrun in H. exact (H r eq_refl).
Qed.

Lemma split_success_outputs_5_7 :
  let input := SplitExamples.split_input
                 [{| start := 1; end_ := 5 |}; {| start := 6; end_ := 12 |}] in
  let r := MultipleFiles [5; 7]%nat
             "doc_part1_pages_1-5.pdf, doc_part2_pages_6-12.pdf" 2 12
             ["doc_part1_pages_1-5.pdf"; "doc_part2_pages_6-12.pdf"]%string in
  exists file totalPages,
    files input = [file]
    /\ load SplitExamples.twelve_pages = inr totalPages
    /\ result_sourcePageCount r = totalPages
    /\ Forall (range_ok (Z.of_nat totalPages)) (ranges (options input))
    /\ copies SplitExamples.twelve_pages 0 (ranges (options input))
       = Some (result_blobs r)
    /\ result_files r
       = filenames_from file (length (ranges (options input))) 0
                        (ranges (options input)).
Proof.
  intros input r.
  apply (split_success_outputs SplitExamples.twelve_pages input r fresh).
  vm_compute. reflexivity.
Defined.

End SplitSuccessTheorem.

Section PollSteps.

Import Async Logic Polls.

Context {O : Type}.

Lemma wp_checkCancelled_clean (f : nat -> bool) (QV : bool -> St -> Prop)
    (QR : O -> St -> Prop) (QE : thrown -> St -> Prop) s :
  polls_clean f s ->
  (forall s', polls s' = S (polls s) -> polls_clean f s' ->
              tesseractWorker s' = tesseractWorker s -> QV false s') ->
  (forall s', QV true s') ->
  wp (checkCancelled f) QV QR QE s.
Proof.
  intros Hclean Hfalse Htrue. unfold wp, checkCancelled.
  destruct (f (polls s)) eqn:E; [apply Htrue|].
  apply Hfalse; [reflexivity| |reflexivity].
  intros k Hk. simpl in Hk.
  destruct (Nat.eq_dec k (polls s)) as [->|Hne]; [exact E|].
  apply Hclean. lia.
Qed.

Lemma wp_updateProgress_polls (f : nat -> bool) (v : Q)
    (QV : unit -> St -> Prop) (QR : O -> St -> Prop)
    (QE : thrown -> St -> Prop) s :
  polls_clean f s ->
  (forall s', polls s' = polls s -> polls_clean f s' ->
              tesseractWorker s' = tesseractWorker s -> QV tt s') ->
  wp (updateProgress v) QV QR QE s.
Proof. intros Hclean HV. apply HV; [reflexivity|exact Hclean|reflexivity]. Qed.

Lemma wp_reset_polls (f : nat -> bool) (QV : unit -> St -> Prop)
    (QR : O -> St -> Prop) (QE : thrown -> St -> Prop) s :
  (forall s', polls s' = 0%nat -> polls_clean f s' -> QV tt s') ->
  wp reset QV QR QE s.
Proof.
  intros HV. apply HV; [reflexivity|]. intros k Hk. simpl in Hk. lia.
Qed.

End PollSteps.

Section SplitCancellation.

Import JS Async Logic Polls Split SplitPDF.

Variable env : Env.

Lemma range_loop_polls (file : File) (n : nat) (p : Q) :
  forall rest i out s,
    polls_clean (cancelled env) s ->
    wp (range_loop env file n p i rest out)
       (fun _ s' => polls_clean (cancelled env) s'
                    /\ polls s' = (polls s + length rest)%nat)
       (fun o _ => forall r, o <> Success r)
       (fun _ _ => True) s.
Proof.
  induction rest as [|range rest IH]; intros i out s Hs.
  - simpl. unfold wp, ret. split; [exact Hs|lia].
  - simpl range_loop. apply wp_bind, wp_checkCancelled_clean; [exact Hs| |].
    2:{ intros s' r. discriminate. }
    intros s1 P1 C1 _.
    apply wp_bind, (wp_updateProgress_polls (cancelled env)); [exact C1|].
    intros s2 P2 C2 _.
    apply wp_bind, wp_await; [intros blob _|auto].
    eapply wp_mono; [apply (IH (S i) _ s2 C2)| |auto|auto].
    intros res s3 [C3 P3]. split; [exact C3|]. simpl length. lia.
Qed.

Lemma split_process_polls (input : ProcessInput) (s : St) :
  let good (o : Output) (s' : St) :=
    forall r, o = Success r ->
      polls_clean (cancelled env) s'
      /\ polls s' = (2 + length (ranges (options input)))%nat in
  wp (process env input) good good (fun _ _ => True) s.
Proof.
  intros good. unfold process.
  apply wp_bind, (wp_reset_polls (cancelled env)). intros s0 P0 C0.
  destruct (files input) as [|file [|file' more]];
    try (intros r Hr; discriminate Hr).
  destruct (length (ranges (options input)) =? 0)%nat;
    [intros r Hr; discriminate Hr|].
  apply wp_try_catch.
  apply wp_mono with (QV := good) (QR := good) (QE := fun _ _ => True); auto.
  2:{ intros e s' _ r Hr. discriminate Hr. }
  unfold process_try.
  apply wp_bind, (wp_updateProgress_polls (cancelled env)); [exact C0|].
  intros s1 P1 C1 _.
  apply wp_bind, wp_await_; [intros _|auto].
  apply wp_bind, wp_checkCancelled_clean; [exact C1| |].
  2:{ intros s' r Hr. discriminate Hr. }
  intros s2 P2 C2 _.
  apply wp_bind, (wp_updateProgress_polls (cancelled env)); [exact C2|].
  intros s3 P3 C3 _.
  apply wp_bind, wp_await_; [intros _|auto].
  apply wp_bind, wp_try_catch, wp_await.
  2:{ intros e _. destruct e as [m|]; [|exact I].
      destruct (includes_str "encrypt" m); [|exact I].
      intros r Hr. discriminate Hr. }
  intros totalPages _.
  apply wp_bind, (wp_updateProgress_polls (cancelled env)); [exact C3|].
  intros s4 P4 C4 _.
  destruct (validatePageRanges _ _); [intros r Hr; discriminate Hr|].
  apply wp_bind, wp_checkCancelled_clean; [exact C4| |].
  2:{ intros s' r Hr. discriminate Hr. }
  intros s5 P5 C5 _.
  apply wp_bind.
  eapply wp_mono;
    [apply (range_loop_polls file _ _ (ranges (options input)) 0%nat
              ([], []) s5 C5)
    | | |auto].
  2:{ intros o s6 Ho r Hr. exfalso. exact (Ho r Hr). }
  intros out s6 [C6 P6].
  apply wp_bind, (wp_updateProgress_polls (cancelled env)); [exact C6|].
  intros s7 P7 C7 _.
  assert (Hlast : forall o : Output,
             wp (bind (updateProgress 100) (fun _ => ret o))
                good good (fun _ _ => True) s7).
  { intros o.
    apply wp_bind, (wp_updateProgress_polls (cancelled env)); [exact C7|].
    intros s8 P8 C8 _. unfold wp, ret. intros r _.
    split; [exact C8|lia]. }
  destruct (outputFormat (options input)); [apply Hlast|].
  destruct (fst out) as [|blob [|blob' blobs]]; try apply Hlast.
  destruct (snd out) as [|fname fnames]; [apply Hlast|].
  destruct (ranges (options input)); apply Hlast.
Qed.

End SplitCancellation.

Section SplitCancellationTheorem.

Import JS Async Logic Polls Split SplitPDF.

(** X7. A split job that succeeds has polled the cancellation flag
    before loading the document, before the first range and before each
    range (2 + number of ranges polls), and none of these polls found
    the flag set: once a poll sees the flag the job cannot end in a
    success outcome. *)
Theorem split_success_never_cancelled (env : Env) (input : ProcessInput)
    (r : SplitResult) (s : St) :
  snd (run (process env input) s) = Returned (Success r) ->
  let s' := fst (run (process env input) s) in
  polls s' = (2 + length (ranges (options input)))%nat
  /\ forall k, (k < polls s')%nat -> cancelled env k = false.
Proof.
  intros Hrun s'. subst s'.
  pose proof (split_process_polls env input s) as H. cbv zeta in H.
  apply (wp_run (process env input)
           (fun s' c =>
              match c with
              | Returned o =>
                  forall r, o = Success r ->
                    polls_clean (cancelled env) s'
                    /\ polls s' = (2 + length (ranges (options input)))%nat
              | Rejected _ => True
              end)) in H.
  rewrite Hrun in H. destruct (H r eq_refl) as [Hc Hp].
  split; [exact Hp|exact Hc].
Qed.

Lemma split_success_never_cancelled_5_7 :
  let input := SplitExamples.split_input
                 [{| start := 1; end_ := 5 |}; {| start := 6; end_ := 12 |}] in
  let s' := fst (run (process SplitExamples.twelve_pages input) fresh) in
  polls s' = 4%nat
  /\ forall k, (k < polls s')%nat ->
               cancelled SplitExamples.twelve_pages k = false.
Proof.
  intros input.
  apply (split_success_never_cancelled SplitExamples.twelve_pages input
           (MultipleFiles [5; 7]%nat
              "doc_part1_pages_1-5.pdf, doc_part2_pages_6-12.pdf" 2 12
              ["doc_part1_pages_1-5.pdf"; "doc_part2_pages_6-12.pdf"]%string)
           fresh).
  vm_compute. reflexivity.
Defined.

End SplitCancellationTheorem.


Section RecolorTwice.

Import JS Recolor.

Variables (isDarkMode : bool) (threshold : Q) (color : Color).

(** What an iteration does at an offset depends only on the three colour
    bytes it reads there. *)
Lemma recolor_pixel_agree (d1 d2 : list Z) (j i : nat) :
  (forall x, (j <= x < j + 3)%nat -> d1 !! x = d2 !! x) ->
  d1 !! i = d2 !! i ->
  recolor_pixel isDarkMode threshold color d1 j !! i
  = recolor_pixel isDarkMode threshold color d2 j !! i.
Proof.
  intros Hpix Hi. unfold recolor_pixel.
  pose proof (Hpix j ltac:(lia)) as E0.
  pose proof (Hpix (j + 1)%nat ltac:(lia)) as E1.
  pose proof (Hpix (j + 2)%nat ltac:(lia)) as E2.
  rewrite E0, E1, E2.
  destruct (d2 !! j) as [R|] eqn:HR; [|exact Hi].
  destruct (d2 !! (j + 1)%nat) as [G|] eqn:HG; [|exact Hi].
  destruct (d2 !! (j + 2)%nat) as [B|] eqn:HB; [|exact Hi].
  match goal with |- context [if ?c then _ else _] => destruct c end;
    [|exact Hi].
  pose proof (lookup_lt_Some _ _ _ HR). pose proof (lookup_lt_Some _ _ _ HG).
  pose proof (lookup_lt_Some _ _ _ HB). pose proof (lookup_lt_Some _ _ _ E0).
  pose proof (lookup_lt_Some _ _ _ E1). pose proof (lookup_lt_Some _ _ _ E2).
  destruct (Nat.eq_dec i (j + 2)%nat) as [->|N2].
  { rewrite !list_lookup_insert_eq by (rewrite !length_insert; lia).
    reflexivity. }
  rewrite !(list_lookup_insert_ne _ (j + 2)%nat i) by lia.
  destruct (Nat.eq_dec i (j + 1)%nat) as [->|N1].
  { rewrite !list_lookup_insert_eq by (rewrite !length_insert; lia).
    reflexivity. }
  rewrite !(list_lookup_insert_ne _ (j + 1)%nat i) by lia.
  destruct (Nat.eq_dec i j) as [->|N0].
  { rewrite !list_lookup_insert_eq by lia. reflexivity. }
  rewrite !list_lookup_insert_ne by lia. exact Hi.
Qed.

(** Running an iteration again at the same offset changes nothing more. *)
Lemma recolor_pixel_idem (d : list Z) (j : nat) :
  recolor_pixel isDarkMode threshold color
    (recolor_pixel isDarkMode threshold color d j) j
  = recolor_pixel isDarkMode threshold color d j.
Proof.
  destruct (d !! j) as [R|] eqn:HR.
  2:{ assert (E : recolor_pixel isDarkMode threshold color d j = d)
        by (unfold recolor_pixel; rewrite HR; reflexivity).
      rewrite !E. reflexivity. }
  destruct (d !! (j + 1)%nat) as [G|] eqn:HG.
  2:{ assert (E : recolor_pixel isDarkMode threshold color d j = d)
        by (unfold recolor_pixel; rewrite HR, HG; reflexivity).
      rewrite !E. reflexivity. }
  destruct (d !! (j + 2)%nat) as [B|] eqn:HB.
  2:{ assert (E : recolor_pixel isDarkMode threshold color d j = d)
        by (unfold recolor_pixel; rewrite HR, HG, HB; reflexivity).
      rewrite !E. reflexivity. }
  destruct (recolor_pixel_at isDarkMode threshold color d j R G B HR HG HB)
    as [Hyes Hno].
  cbv zeta in Hyes, Hno.
  match type of Hno with (?c = false -> _) => destruct c end.
  - destruct (Hyes eq_refl) as (H0 & H1 & H2).
    set (out := recolor_pixel isDarkMode threshold color d j) in *.
    unfold recolor_pixel at 1. rewrite H0, H1, H2.
    match goal with |- context [if ?c then _ else _] => destruct c end;
      [|reflexivity].
    rewrite (list_insert_id out j) by exact H0.
    rewrite (list_insert_id out (j + 1)%nat) by exact H1.
    apply list_insert_id. exact H2.
  - rewrite !(Hno eq_refl). reflexivity.
Qed.

End RecolorTwice.

Section RecolorTwiceTheorem.

Import JS Recolor.

(** X8. The pixel pass is idempotent: running it a second time with the
    same mode, threshold and colour on its own output changes nothing,
    for every buffer (also one whose length is not a multiple of four). *)
Theorem recolor_idempotent (mode : Mode) (threshold : Q) (color : Color)
    (data : list Z) :
  recolor mode threshold color (recolor mode threshold color data)
  = recolor mode threshold color data.
Proof.
  set (out := recolor mode threshold color data).
  set (isDarkMode := match mode with dark => true | light => false end).
  assert (Hlen : length out = length data)
    by apply (steps_length isDarkMode threshold color).
  assert (Hlen' : length (recolor mode threshold color out) = length out)
    by apply (steps_length isDarkMode threshold color).
  apply list_eq. intros i.
  destruct (Nat.lt_ge_cases i (length data)) as [Hi|Hi].
  2:{ rewrite !lookup_ge_None_2 by lia. reflexivity. }
  set (k := (i / 4)%nat).
  pose proof (Nat.div_mod_eq i 4) as Hdiv.
  pose proof (Nat.mod_upper_bound i 4 ltac:(lia)) as Hmod.
  assert (Hk : (k < iterations data)%nat).
  { unfold iterations. subst k.
    apply (Nat.div_le_lower_bound (length data + 3) 4 (S (i / 4))); lia. }
  assert (Hk' : (k < iterations out)%nat)
    by (unfold iterations; rewrite Hlen; exact Hk).
  assert (Hin : (4 * k <= i < 4 * k + 4)%nat) by (subst k; lia).
  assert (Hout : forall x, (4 * k <= x < 4 * k + 4)%nat ->
            out !! x
            = recolor_pixel isDarkMode threshold color data (4 * k) !! x).
  { intros x Hx.
    apply (steps_pixel isDarkMode threshold color); assumption. }
  transitivity
    (recolor_pixel isDarkMode threshold color out (4 * k) !! i).
  { apply (steps_pixel isDarkMode threshold color); assumption. }
  rewrite (recolor_pixel_agree isDarkMode threshold color out
             (recolor_pixel isDarkMode threshold color data (4 * k))
             (4 * k) i).
  - rewrite recolor_pixel_idem. symmetry. apply Hout. exact Hin.
  - intros x Hx. apply Hout. lia.
  - apply Hout. exact Hin.
Qed.

End RecolorTwiceTheorem.


Section RecolorNothing.

Import JS Recolor.

(** *** The brightness of a pixel of bytes *)

Lemma same_number_eq (x y : Q) : same_number x y = true -> x = y.
Proof.
  destruct x as [a c], y as [a' c']. unfold same_number. simpl.
  intros H. apply andb_true_iff in H as [H1 H2].
  apply Z.eqb_eq in H1. apply Pos.eqb_eq in H2. congruence.
Qed.

(** The integers up to 765 are doubles, and a third of one is a double
    between 0 and 255 once rounded. *)
Lemma round64_sum_of_bytes (n : Z) :
  (0 <= n <= 765)%Z ->
  round64 (inject_Z n) = inject_Z n
  /\ (0 <= round64 (inject_Z n / 3) /\ round64 (inject_Z n / 3) <= 255)%Q.
Proof.
  intros Hn.
  assert (Htable :
            List.forallb
              (fun k : nat =>
                 let x := inject_Z (Z.of_nat k) in
                 same_number (round64 x) x
                 && Qle_bool 0 (round64 (x / 3))
                 && Qle_bool (round64 (x / 3)) 255)
              (seq 0 766) = true)
    by (vm_compute; reflexivity).
  rewrite List.forallb_forall in Htable.
  specialize (Htable (Z.to_nat n)).
  rewrite Z2Nat.id in Htable by lia. cbv zeta in Htable.
  assert (Hin : In (Z.to_nat n) (seq 0 766)) by (apply in_seq; lia).
  apply Htable in Hin.
  apply andb_true_iff in Hin as [Hin H255].
  apply andb_true_iff in Hin as [Hsame H0].
  split; [apply same_number_eq, Hsame|].
  split; apply Qle_bool_iff; assumption.
Qed.

Lemma brightness_of_bytes (R G B : Z) :
  (0 <= R <= 255)%Z -> (0 <= G <= 255)%Z -> (0 <= B <= 255)%Z ->
  let brightness :=
    div64 (add64 (add64 (inject_Z R) (inject_Z G)) (inject_Z B)) 3 in
  (0 <= brightness /\ brightness <= 255)%Q.
Proof.
  intros HR HG HB brightness. subst brightness. unfold div64, add64.
  rewrite <- inject_Z_plus.
  rewrite (proj1 (round64_sum_of_bytes (R + G) ltac:(lia))).
  rewrite <- inject_Z_plus.
  rewrite (proj1 (round64_sum_of_bytes (R + G + B) ltac:(lia))).
  apply (round64_sum_of_bytes (R + G + B)). lia.
Qed.

Variables (isDarkMode : bool) (threshold : Q) (color : Color).

(** When no complete pixel of the buffer meets the comparison, a run of
    iterations leaves the buffer as it is. *)
Lemma steps_unselected (data : list Z) :
  (forall j R G B,
      data !! j = Some R -> data !! (j + 1)%nat = Some G ->
      data !! (j + 2)%nat = Some B ->
      let brightness :=
        div64 (add64 (add64 (inject_Z R) (inject_Z G)) (inject_Z B)) 3 in
      (if isDarkMode then Qltb brightness threshold
       else Qltb threshold brightness)
      = false) ->
  forall ks,
    fold_left
      (fun d k => recolor_pixel isDarkMode threshold color d (4 * k)%nat)
      ks data = data.
Proof.
  intros Hno. induction ks as [|k ks IH]; cbn [fold_left]; [reflexivity|].
  assert (E : recolor_pixel isDarkMode threshold color data (4 * k) = data).
  { unfold recolor_pixel.
    destruct (data !! (4 * k)%nat) as [R|] eqn:HR; [|reflexivity].
    destruct (data !! (4 * k + 1)%nat) as [G|] eqn:HG; [|reflexivity].
    destruct (data !! (4 * k + 2)%nat) as [B|] eqn:HB; [|reflexivity].
    pose proof (Hno _ R G B HR HG HB) as Hn. cbv zeta in Hn.
    rewrite Hn. reflexivity. }
  rewrite E. exact IH.
Qed.

End RecolorNothing.

Section RecolorNothingTheorem.

Import JS Recolor.

(** X9. On a buffer of bytes (every entry between 0 and 255) the pass
    is the identity at the two ends of the threshold scale: in dark mode
    with a threshold of 0 or less, and in light mode with a threshold of
    255 or more, no pixel is rewritten, whatever the target colour. *)
Theorem recolor_threshold_extremes (mode : Mode) (threshold : Q)
    (color : Color) (data : list Z) :
  Forall (fun x => 0 <= x <= 255)%Z data ->
  (mode = dark /\ (threshold <= 0)%Q)
  \/ (mode = light /\ (255 <= threshold)%Q) ->
  recolor mode threshold color data = data.
Proof.
  intros Hbytes Hedge.
  assert (Hb : forall j x, data !! j = Some x -> (0 <= x <= 255)%Z).
  { intros j x Hx. exact (proj1 (Forall_lookup _ _) Hbytes j x Hx). }
  destruct Hedge as [[-> Ht]|[-> Ht]]; unfold recolor;
    apply steps_unselected;
    intros j R G B HR HG HB brightness; apply Qltb_ge;
    destruct (brightness_of_bytes R G B (Hb _ _ HR) (Hb _ _ HG) (Hb _ _ HB))
      as [H0 H255]; fold brightness in H0, H255.
  - apply Qle_trans with 0%Q; assumption.
  - apply Qle_trans with 255%Q; assumption.
Qed.

Lemma recolor_threshold_extremes_two_pixels :
  recolor light 255 {| r := 1; g := 0; b := 0 |}
          [0; 0; 0; 255; 255; 255; 255; 255]%Z
  = [0; 0; 0; 255; 255; 255; 255; 255]%Z.
Proof.
  apply (recolor_threshold_extremes light 255).
  - repeat constructor; discriminate.
  - right. split; [reflexivity|]. apply Qle_refl.
Defined.

End RecolorNothingTheorem.


Section TextColorAll.

Import JS Async Logic Recolor TextColor.
Local Open Scope Z_scope.

(** Asking pdf.js for the pages [1 .. numPages] in turn yields the
    document's pages in order. *)
Lemma getPage_all_pages (pdfjsDoc : list SourcePage) (f : SourcePage -> OutPage)
    (outs : list OutPage) :
  Forall2 (fun p o => exists src, getPage pdfjsDoc p = inr src /\ o = f src)
          (map (fun i => Z.of_nat i + 1) (seq 0 (length pdfjsDoc))) outs ->
  outs = map f pdfjsDoc.
Proof.
  intros H. pose proof (Forall2_length _ _ _ H) as Hlen.
  rewrite length_map, length_seq in Hlen.
  apply list_eq. intros i.
  destruct (pdfjsDoc !! i) as [src|] eqn:Hsrc.
  - pose proof (lookup_lt_Some _ _ _ Hsrc) as Hi.
    assert (Hnum : map (fun i => Z.of_nat i + 1) (seq 0 (length pdfjsDoc)) !! i
                   = Some (Z.of_nat i + 1)).
    { rewrite list_lookup_fmap, lookup_seq_lt by exact Hi. reflexivity. }
    destruct (Forall2_lookup_l _ _ _ _ _ H Hnum) as [o [Ho [src' [Hget ->]]]].
    unfold getPage in Hget.
    replace (Z.to_nat (Z.of_nat i + 1 - 1)) with i in Hget by lia.
    rewrite Hsrc in Hget.
    destruct ((1 <=? Z.of_nat i + 1)
              && (Z.of_nat i + 1 <=? Z.of_nat (length pdfjsDoc)));
      [|discriminate].
    injection Hget as <-.
    rewrite Ho, list_lookup_fmap, Hsrc. reflexivity.
  - pose proof (lookup_ge_None_1 _ _ Hsrc) as Hi.
    rewrite list_lookup_fmap, Hsrc.
    apply lookup_ge_None_2. lia.
Qed.

(** X10. When the text-colour job succeeds with the selection ['all'],
    the file it saves has exactly one page per page of the source, in the
    source order; each has the size of its source page at scale 1 and
    carries the recoloured rendering of that page, and the reported page
    count is the source's page count. (Of a source without pages
    [save()] makes a file of one blank page.) *)
Theorem textcolor_all_pages (env : Env) (input : ProcessInput)
    (r : TextColorResult) (s : St) :
  pages (options input) = all ->
  snd (run (process env input) s) = Returned (Success r) ->
  exists pdfjsDoc,
    getDocument env = inr pdfjsDoc
    /\ document r = saved (map (recolored_page (options input)) pdfjsDoc)
    /\ (pdfjsDoc <> [] ->
        document r = map (recolored_page (options input)) pdfjsDoc
        /\ map out_width (document r) = map originalWidth pdfjsDoc
        /\ map out_height (document r) = map originalHeight pdfjsDoc)
    /\ pageCount r = length pdfjsDoc.
Proof.
  intros Hall Hrun.
  pose proof (textcolor_process_pages env input s) as H. cbv zeta in H.
  apply (wp_run (process env input)
           (fun _ c => match c with
                       | Returned o => _ o
                       | Rejected _ => True
                       end)) in H.
  rewrite Hrun in H. specialize (H r eq_refl).
  destruct H as [pdfjsDoc [Hdoc [Hcount [outs [Hpages Hsaved]]]]].
  unfold select_pages in Hcount, Hpages. rewrite Hall in Hcount, Hpages.
  apply getPage_all_pages in Hpages. subst outs.
  exists pdfjsDoc. split; [exact Hdoc|]. split; [exact Hsaved|].
  split.
  - intros Hne. rewrite Hsaved, saved_nonempty
      by (destruct pdfjsDoc; [contradiction|discriminate]).
    rewrite !map_map. repeat split; reflexivity.
  - rewrite Hcount, length_map, length_seq. reflexivity.
Qed.

Lemma textcolor_all_pages_three :
  exists r,
    snd (run (process Examples.textcolor_env MoreExamples.textcolor_input_all)
             fresh)
    = Returned (Success r)
    /\ document r
       = map (recolored_page (options MoreExamples.textcolor_input_all))
             Examples.three_pages
    /\ pageCount r = 3%nat.
Proof.
  pose (c := snd (run (process Examples.textcolor_env
                         MoreExamples.textcolor_input_all) fresh)).
  assert (Hc : snd (run (process Examples.textcolor_env
                           MoreExamples.textcolor_input_all) fresh) = c)
    by reflexivity.
  vm_compute in c. subst c.
  match type of Hc with
  | _ = Returned (Success ?r) =>
      exists r; split; [exact Hc|];
      destruct (textcolor_all_pages Examples.textcolor_env
                  MoreExamples.textcolor_input_all r fresh eq_refl Hc)
        as [doc [Hdoc [_ [Hpages Hcount]]]];
      injection Hdoc as <-;
      split; [apply Hpages; discriminate|exact Hcount]
  end.
Defined.

End TextColorAll.


Section BackgroundSuccess.

Import JS Async Logic BackgroundColor BackgroundOutcome.
Local Open Scope Z_scope.

Variable env : Env.

Lemma background_page_loop_pages (pagesToProcess : list Z) (totalPages : nat) :
  forall rest i acc s,
    wp (page_loop env pagesToProcess totalPages i rest acc)
       (fun res _ => res = List.app acc (pages_from pagesToProcess i rest))
       (fun o _ => forall r, o <> Success r)
       (fun _ _ => True) s.
Proof.
  induction rest as [|[width height] rest IH]; intros i acc s.
  - simpl. unfold wp, ret. rewrite app_nil_r. reflexivity.
  - simpl page_loop. apply wp_bind, wp_checkCancelled. intros c s1 _ _ _ _ _.
    destruct c; [intros r; discriminate|].
    apply wp_bind, wp_updateProgress. intros s2 _ _ _ _.
    eapply wp_mono; [apply (IH (S i) _ s2)| |auto|auto].
    intros res s3 ->. simpl pages_from. rewrite <- app_assoc. reflexivity.
Qed.




End BackgroundSuccess.

Section BackgroundSuccessTheorem.

Import JS Async Logic BackgroundColor BackgroundOutcome.
Local Open Scope Z_scope.



End BackgroundSuccessTheorem.

Section PageOrientation.

Import JS ImageToPDF.
Local Open Scope Q_scope.

(** X14. An explicit orientation is always honoured: with [landscape]
    the computed page is at least as wide as high, with [portrait] at
    least as high as wide, for every page size (preset, FIT or custom),
    margin and image. *)
Theorem explicit_orientation_honoured (imageWidth imageHeight : Q)
    (options : ImageToPDFOptions) :
  let d := calculatePageDimensions imageWidth imageHeight options in
  (orientation options = landscape -> pageHeight d <= pageWidth d)
  /\ (orientation options = portrait -> pageWidth d <= pageHeight d).
Proof.
  intros d. subst d. unfold calculatePageDimensions.
  match goal with
  | |- context [let '(a, b) := ?base in _] => destruct base as [W H]
  end.
  split; intros Ho; rewrite Ho.
  - destruct (Qltb W H) eqn:E; simpl.
    + apply Qltb_lt in E. lra.
    + apply Qltb_ge in E. exact E.
  - destruct (Qltb H W) eqn:E; simpl.
    + apply Qltb_lt in E. lra.
    + apply Qltb_ge in E. exact E.
Qed.

Lemma explicit_orientation_honoured_custom :
  let options :=
    {| pageSize := Custom {| width := 300; height := 500 |};
       orientation := landscape; margin := 36; quality := 92 # 100;
       centerImage := true; scaleToFit := true; svgScale := 2 |} in
  let d := calculatePageDimensions 100 200 options in
  pageHeight d <= pageWidth d.
Proof.
  intros options.
  apply (explicit_orientation_honoured 100 200 options). reflexivity.
Defined.

(** X15. With the [auto] orientation a named preset other than FIT is
    turned to the image: a landscape image (wider than high) gets the
    preset on its side, any other image the preset upright. A custom
    page size is never turned, whatever the image. *)
Theorem auto_orientation_follows_image (imageWidth imageHeight : Q)
    (options : ImageToPDFOptions) :
  orientation options = auto ->
  let d := calculatePageDimensions imageWidth imageHeight options in
  (forall p, pageSize options = Preset p -> p <> FIT ->
     (imageHeight < imageWidth ->
      d = {| pageWidth := height (PAGE_SIZES p);
             pageHeight := width (PAGE_SIZES p) |})
     /\ (imageWidth <= imageHeight ->
         d = {| pageWidth := width (PAGE_SIZES p);
                pageHeight := height (PAGE_SIZES p) |}))
  /\ (forall s, pageSize options = Custom s ->
        d = {| pageWidth := width s; pageHeight := height s |}).
Proof.
  intros Ho d. subst d. unfold calculatePageDimensions. rewrite Ho.
  split.
  - intros p Hp Hfit. rewrite Hp.
    split; intros Hc;
      [apply Qltb_lt in Hc | apply Qltb_ge in Hc];
      destruct p; try (exfalso; apply Hfit; reflexivity);
      cbn [PAGE_SIZES width height is_string is_FIT]; rewrite Hc;
      reflexivity.
  - intros s Hs. rewrite Hs. cbn [is_string]. rewrite andb_false_r.
    reflexivity.
Qed.

Lemma auto_orientation_follows_image_a4 :
  calculatePageDimensions 1000 500 DEFAULT_OPTIONS
  = {| pageWidth := 84189 # 100; pageHeight := 59528 # 100 |}.
Proof.
  destruct (auto_orientation_follows_image 1000 500 DEFAULT_OPTIONS eq_refl)
    as [Hpreset _].
  destruct (Hpreset A4 eq_refl ltac:(discriminate)) as [Hland _].
  apply Hland. reflexivity.
Defined.

End PageOrientation.


Section ImageJobSuccess.

Import JS Async Logic ImageToPDF ImageToPDFProcessor.
Local Open Scope Z_scope.

Variable env : Env.

(** The file loop, when it runs to its end, has added one page per file,
    in order. *)
Lemma file_loop_pages (options : ImageToPDFOptions) (p : Q) :
  forall rest i acc s,
    wp (file_loop env options p i rest acc)
       (fun res _ => exists pages,
            embedded_from env options i rest = Some pages
            /\ res = List.app acc pages)
       (fun o _ => forall r, o <> Success r)
       (fun _ _ => True) s.
Proof.
  induction rest as [|file rest IH]; intros i acc s.
  - simpl. unfold wp, ret. exists []. rewrite app_nil_r. auto.
  - simpl file_loop. apply wp_bind, wp_checkCancelled. intros c s1 _ _ _ _ _.
    destruct c; [intros r; discriminate|].
    apply wp_bind, wp_updateProgress. intros s2 _ _ _ _.
    apply wp_bind, wp_try_catch. unfold addImageToDocument.
    apply wp_bind, wp_await_; [intros Hbuf|intros e _ r; discriminate].
    apply wp_bind, wp_await; [intros image Himage|intros e _ r; discriminate].
    unfold wp at 1, ret.
    eapply wp_mono; [apply (IH (S i) _ s2)| |auto|auto].
    intros res s3 [pages [Hpages ->]].
    exists (page_for options (embed_kind file options) image :: pages).
    split.
    + simpl. rewrite Hbuf, Himage, Hpages. reflexivity.
    + rewrite <- app_assoc. reflexivity.
Qed.

Lemma image_process_pages (input : ProcessInput) (s : St) :
  let good (o : Output) :=
    forall r, o = Success r ->
      files input <> []
      /\ forallb isValidImageFile (files input) = true
      /\ embedded_from env (options input) 0 (files input) = Some (document r)
      /\ pageCount r = length (files input)
      /\ imageCount r = length (files input)
      /\ filename r = generateOutputFilename (files input) in
  wp (process env input) (fun o _ => good o) (fun o _ => good o)
     (fun _ _ => True) s.
Proof.
  intros good. unfold process. apply wp_bind, wp_reset. intros s0 _ _ _ _.
  destruct (length (files input) <? 1)%nat eqn:Hlen;
    [intros r Hr; discriminate Hr|].
  destruct (List.find _ (files input)) eqn:Hfind;
    [intros r Hr; discriminate Hr|].
  assert (Hne : files input <> [])
    by (intros E; rewrite E in Hlen; discriminate Hlen).
  assert (Hvalid : forallb isValidImageFile (files input) = true).
  { apply forallb_forall. intros file Hin.
    pose proof (List.find_none _ _ Hfind file Hin) as Hv.
    apply negb_false_iff in Hv. exact Hv. }
  apply wp_try_catch.
  apply wp_mono with (QV := fun o _ => good o) (QR := fun o _ => good o)
                     (QE := fun _ _ => True); auto.
  2:{ intros e s' _ r Hr. discriminate Hr. }
  unfold process_try.
  apply wp_bind, wp_updateProgress. intros s1 _ _ _ _.
  apply wp_bind, wp_await_; [intros _|auto].
  apply wp_bind, wp_checkCancelled. intros c s2 _ _ _ _ _.
  destruct c; [intros r Hr; discriminate Hr|].
  apply wp_bind, wp_updateProgress. intros s3 _ _ _ _.
  apply wp_bind, wp_await_; [intros _|auto].
  apply wp_bind.
  eapply wp_mono;
    [apply (file_loop_pages (options input) _ (files input) 0%nat [] s3)
    | | |auto].
  2:{ intros o s4 Ho r Hr. exfalso. exact (Ho r Hr). }
  intros pdfDoc s4 [pages [Hpages ->]]. simpl app.
  apply wp_bind, wp_updateProgress. intros s5 _ _ _ _.
  apply wp_bind, wp_await_; [intros _|auto].
  apply wp_bind, wp_updateProgress. intros s6 _ _ _ _.
  unfold wp, ret. intros r Hr. injection Hr as <-. simpl.
  repeat split; assumption.
Qed.

Lemma embedded_from_length (options : ImageToPDFOptions) :
  forall rest i pages,
    embedded_from env options i rest = Some pages ->
    length pages = length rest.
Proof.
  induction rest as [|file rest IH]; intros i pages H; simpl in H.
  - injection H as <-. reflexivity.
  - destruct (arrayBuffer env i); [discriminate|].
    destruct (embed env i _); [discriminate|].
    destruct (embedded_from env options (S i) rest) eqn:E; [|discriminate].
    injection H as <-. simpl. f_equal. exact (IH _ _ E).
Qed.

Lemma embedded_from_lookup (options : ImageToPDFOptions) :
  forall rest i pages k file,
    embedded_from env options i rest = Some pages ->
    rest !! k = Some file ->
    exists image,
      arrayBuffer env (i + k) = None
      /\ embed env (i + k) (embed_kind file options) = inr image
      /\ pages !! k = Some (page_for options (embed_kind file options) image).
Proof.
  induction rest as [|f rest IH]; intros i pages k file H Hk;
    [discriminate|].
  simpl in H.
  destruct (arrayBuffer env i) eqn:Hbuf; [discriminate|].
  destruct (embed env i (embed_kind f options)) as [|image] eqn:Himage;
    [discriminate|].
  destruct (embedded_from env options (S i) rest) as [pages'|] eqn:E;
    [|discriminate].
  injection H as <-.
  destruct k as [|k]; simpl in Hk.
  - injection Hk as ->. rewrite Nat.add_0_r. exists image. auto.
  - destruct (IH (S i) pages' k file E Hk) as [image' [H1 [H2 H3]]].
    replace (i + S k)%nat with (S i + k)%nat by lia.
    exists image'. auto.
Qed.

End ImageJobSuccess.

Section ImageJobSuccessTheorem.

Import JS Async Logic ImageToPDF ImageToPDFProcessor.
Local Open Scope Z_scope.

(** X16. Whenever the image-to-PDF job succeeds, every input file passed
    the type check, and the document has exactly one page per file, in
    the order of the files: the page for the [k]-th file has the size
    [calculatePageDimensions] gives for the embedded image and shows it
    at the position and size [calculateImagePlacement] gives for that
    page. The page count and the image count are the number of files and
    the file name is [generateOutputFilename]'s. *)
Theorem image_success_pages (env : Env) (input : ProcessInput)
    (r : ImageResult) (s : St) :
  snd (run (process env input) s) = Returned (Success r) ->
  forallb isValidImageFile (files input) = true
  /\ length (document r) = length (files input)
  /\ pageCount r = length (files input)
  /\ imageCount r = length (files input)
  /\ (0 < length (files input))%nat
  /\ filename r = generateOutputFilename (files input)
  /\ forall k file,
       files input !! k = Some file ->
       exists image page,
         embed env k (embed_kind file (options input)) = inr image
         /\ document r !! k = Some page
         /\ page_size page
            = calculatePageDimensions (width image) (height image)
                (options input)
         /\ drawn page
            = calculateImagePlacement (width image) (height image)
                (pageWidth (page_size page)) (pageHeight (page_size page))
                (options input).
Proof.
  intros Hrun.
  pose proof (image_process_pages env input s) as H. cbv zeta in H.
  apply (wp_run (process env input)
           (fun _ c => match c with
                       | Returned o => _ o
                       | Rejected _ => True
                       end)) in H.
  rewrite Hrun in H. specialize (H r eq_refl).
  destruct H as (Hne & Hvalid & Hpages & Hcount & Himages & Hname).
  split; [exact Hvalid|].
  split; [exact (embedded_from_length env _ _ _ _ Hpages)|].
  split; [exact Hcount|]. split; [exact Himages|].
  split; [destruct (files input); [congruence|simpl; lia]|].
  split; [exact Hname|].
  intros k file Hk.
  destruct (embedded_from_lookup env _ _ _ _ k file Hpages Hk)
    as [image [_ [Himage Hpage]]].
  exists image, (page_for (options input) (embed_kind file (options input))
                   image).
  repeat split; assumption.
Qed.

Lemma image_success_pages_two :
  exists r,
    snd (run (process ImageExamples.two_images ImageExamples.image_input)
             fresh)
    = Returned (Success r)
    /\ length (document r) = 2%nat
    /\ pageCount r = 2%nat
    /\ filename r = "images_2_pages.pdf"%string.
Proof.
  pose (c := snd (run (process ImageExamples.two_images
                         ImageExamples.image_input) fresh)).
  assert (Hc : snd (run (process ImageExamples.two_images
                           ImageExamples.image_input) fresh) = c)
    by reflexivity.
  vm_compute in c. subst c.
  match type of Hc with
  | _ = Returned (Success ?r) =>
      exists r; split; [exact Hc|];
      destruct (image_success_pages ImageExamples.two_images
                  ImageExamples.image_input r fresh Hc)
        as (_ & Hlen & Hcount & _ & _ & Hname & _);
      split; [exact Hlen|]; split; [exact Hcount|exact Hname]
  end.
Defined.

End ImageJobSuccessTheorem.


Section ImageJobFailure.

Import JS Async Logic ImageToPDF ImageToPDFProcessor.
Local Open Scope Z_scope.

Variable env : Env.

Hypothesis never_cancelled : forall k, cancelled env k = false.

(** The file loop returns from inside the loop at the first file that
    cannot be read or embedded. *)
Lemma file_loop_stops (options : ImageToPDFOptions) (p : Q) (file : File)
    (after : list File) (e : thrown) :
  forall before i acc s pages,
    embedded_from env options i before = Some pages ->
    arrayBuffer env (i + length before) = Some e
    \/ (arrayBuffer env (i + length before) = None
        /\ embed env (i + length before) (embed_kind file options) = inl e) ->
    wp (file_loop env options p i (List.app before (file :: after)) acc)
       (fun _ _ => False)
       (fun o _ => o = Failure PROCESSING_FAILED
                         ("Failed to process image " ++ dquote ++ name file
                          ++ dquote ++ ".")
                         (Some (message_of e)))
       (fun _ _ => False) s.
Proof.
  induction before as [|f before IH]; intros i acc s pages Hpages Hfail.
  - simpl app. simpl length in Hfail. rewrite Nat.add_0_r in Hfail.
    simpl file_loop. apply wp_bind, wp_checkCancelled.
    intros c s1 -> _ _ _ _. rewrite never_cancelled.
    apply wp_bind, wp_updateProgress. intros s2 _ _ _ _.
    apply wp_bind, wp_try_catch. unfold addImageToDocument.
    destruct Hfail as [Hbuf|[Hbuf Himage]].
    + rewrite Hbuf. reflexivity.
    + rewrite Hbuf, Himage. reflexivity.
  - simpl in Hpages.
    destruct (arrayBuffer env i) eqn:Hbuf; [discriminate|].
    destruct (embed env i (embed_kind f options)) as [|image] eqn:Himage;
      [discriminate|].
    destruct (embedded_from env options (S i) before) as [pages'|] eqn:E;
      [|discriminate].
    simpl length in Hfail.
    replace (i + S (length before))%nat with (S i + length before)%nat
      in Hfail by lia.
    simpl app. simpl file_loop. apply wp_bind, wp_checkCancelled.
    intros c s1 -> _ _ _ _. rewrite never_cancelled.
    apply wp_bind, wp_updateProgress. intros s2 _ _ _ _.
    apply wp_bind, wp_try_catch. unfold addImageToDocument.
    rewrite Hbuf, Himage. unfold wp at 1, bind, await_, await, ret.
    apply (IH (S i) _ s2 pages' E Hfail).
Qed.

End ImageJobFailure.

Section ImageJobFailureTheorem.

Import JS Async Logic ImageToPDF ImageToPDFProcessor.
Local Open Scope Z_scope.

(** X17. The image-to-PDF job fails fast. When all files pass the type
    check, the library loads, nothing is cancelled and the files before
    some file are read and embedded, a failure to read or embed that
    file ends the whole job with [PROCESSING_FAILED], a message naming
    the file, and the error's message as details. The files after it
    are not looked at and no document is produced. *)
Theorem image_failure_stops_the_job (env : Env) (input : ProcessInput)
    (before : list File) (file : File) (after : list File) (e : thrown)
    (s : St) :
  files input = List.app before (file :: after) ->
  forallb isValidImageFile (files input) = true ->
  loadPdfLib env = None ->
  createDocument env = None ->
  (forall k, cancelled env k = false) ->
  (exists pages, embedded_from env (options input) 0 before = Some pages) ->
  arrayBuffer env (length before) = Some e
  \/ (arrayBuffer env (length before) = None
      /\ embed env (length before) (embed_kind file (options input))
         = inl e) ->
  snd (run (process env input) s)
  = Returned (Failure PROCESSING_FAILED
                ("Failed to process image " ++ dquote ++ name file
                 ++ dquote ++ ".")
                (Some (message_of e))).
Proof.
  intros Hfiles Hvalid Hlib Hdoc Hcancel [pages Hpages] Hfail.
  apply (wp_run (process env input)
           (fun _ c => c = Returned (Failure PROCESSING_FAILED
                                       ("Failed to process image " ++ dquote
                                        ++ name file ++ dquote ++ ".")
                                       (Some (message_of e))))).
  unfold process. apply wp_bind, wp_reset. intros s0 _ _ _ _.
  assert (Hlen : (length (files input) <? 1)%nat = false).
  { rewrite Hfiles, length_app. simpl. apply Nat.ltb_ge. lia. }
  rewrite Hlen.
  assert (Hfind : List.find (fun file => negb (isValidImageFile file))
                            (files input) = None).
  { destruct (List.find _ (files input)) as [bad|] eqn:E; [|reflexivity].
    apply List.find_some in E as [Hin Hbad].
    rewrite forallb_forall in Hvalid. rewrite (Hvalid _ Hin) in Hbad.
    discriminate Hbad. }
  rewrite Hfind.
  apply wp_try_catch. unfold process_try.
  apply wp_bind, wp_updateProgress. intros s1 _ _ _ _.
  rewrite Hlib. apply wp_bind. unfold wp at 1, await_, ret.
  apply wp_bind, wp_checkCancelled. intros c s2 -> _ _ _ _. rewrite Hcancel.
  apply wp_bind, wp_updateProgress. intros s3 _ _ _ _.
  rewrite Hdoc. apply wp_bind. unfold wp at 1, await_, ret.
  apply wp_bind. rewrite Hfiles.
  eapply wp_mono;
    [apply (file_loop_stops env Hcancel (options input) _ file after e
              before 0%nat [] s3 pages Hpages Hfail)
    | intros ? ? [] | | intros ? ? []].
  intros o s4 ->. reflexivity.
Qed.

Lemma image_failure_stops_the_job_scan :
  snd (run (process ImageExamples.second_image_broken
              ImageExamples.image_input) fresh)
  = Returned (Failure PROCESSING_FAILED
                ("Failed to process image " ++ dquote ++ "scan.PNG"
                 ++ dquote ++ ".")
                (Some "Input is not a PNG file"%string)).
Proof.
  apply (image_failure_stops_the_job ImageExamples.second_image_broken
           ImageExamples.image_input [ImageExamples.photo]
           ImageExamples.scan [] (ErrorObj "Input is not a PNG file")).
  - reflexivity.
  - vm_compute. reflexivity.
  - reflexivity.
  - reflexivity.
  - intros k. reflexivity.
  - eexists. vm_compute. reflexivity.
  - right. split; reflexivity.
Defined.

End ImageJobFailureTheorem.


Section ImageFileNames.

Import JS Async ImageToPDF ImageToPDFProcessor.
Local Open Scope string_scope.

Lemma drop_chars_prefix (base rest : string) :
  drop_chars (String.length base) (base ++ rest) = rest.
Proof. induction base as [|d base IH]; simpl; [reflexivity|exact IH]. Qed.

Lemma includes_none_forallb (c : ascii) (s : string) :
  includes c s = false ->
  string_forallb (fun d => negb (Ascii.eqb d c)) s = true.
Proof.
  induction s as [|d s IH]; simpl; intros H; [reflexivity|].
  apply orb_false_iff in H as [Hd Hs]. rewrite Hd, (IH Hs). reflexivity.
Qed.

Lemma pop_ext_last (base ext : string) :
  includes "." ext = false -> pop_ext (base ++ "." ++ ext) = ext.
Proof.
  intros Hext. unfold pop_ext.
  change (base ++ "." ++ ext) with (base ++ String "." ext).
  rewrite split_append, (split_no_sep "." ext Hext).
  apply last_last.
Qed.

Lemma pop_ext_no_dot (name : string) :
  includes "." name = false -> pop_ext name = name.
Proof.
  intros H. unfold pop_ext. rewrite (split_no_sep "." name H). reflexivity.
Qed.

(** X18. The name of the PDF made from a single image: a final
    extension (a last dot followed by at least one character, none of
    them a slash) is replaced by [.pdf], so [base.ext] gives [base.pdf]
    also when [base] itself contains dots; a name without any dot just
    gets [.pdf] appended. *)
Theorem generateOutputFilename_single_image (base ext type_ : string) :
  ext <> EmptyString ->
  includes "." ext = false ->
  includes "/" ext = false ->
  generateOutputFilename [{| name := base ++ "." ++ ext; type_ := type_ |}]
  = base ++ ".pdf"
  /\ generateOutputFilename [{| name := ext; type_ := type_ |}]
     = ext ++ ".pdf".
Proof.
  intros Hne Hdot Hslash. unfold generateOutputFilename, strip_extension.
  cbn [name]. split.
  - change (base ++ "." ++ ext) with (base ++ String "." ext).
    rewrite (lastIndexOf_last "." base ext Hdot).
    replace (drop_chars (S (String.length base)) (base ++ String "." ext))
      with ext.
    2:{ change (S (String.length base))
          with (String.length (String "." base)).
        clear. induction base as [|d base IH]; [reflexivity|exact IH]. }
    rewrite (includes_none_forallb "/" ext Hslash), substring_prefix.
    destruct ext; [contradiction|reflexivity].
  - rewrite (lastIndexOf_absent "." ext Hdot). reflexivity.
Qed.

Lemma generateOutputFilename_single_image_holiday :
  generateOutputFilename
    [{| name := "holiday.2024.jpeg"; type_ := "image/jpeg" |}]
  = "holiday.2024.pdf"
  /\ generateOutputFilename [{| name := "jpeg"; type_ := "image/jpeg" |}]
     = "jpeg.pdf".
Proof.
  apply (generateOutputFilename_single_image "holiday.2024" "jpeg"
           "image/jpeg").
  - discriminate.
  - reflexivity.
  - reflexivity.
Defined.

(** X19. The type check looks at the MIME type as given and otherwise
    only at the text after the last dot of the name, without regard to
    case: for an [ext] that contains no dot, a file named [base.ext] is
    accepted exactly when its MIME type is a supported one or [.ext] in
    lower case is a supported extension, and a file whose whole name is
    [ext], without any dot, is judged the same way. *)
Theorem isValidImageFile_by_last_extension (base ext type_ : string) :
  includes "." ext = false ->
  isValidImageFile {| name := base ++ "." ++ ext; type_ := type_ |}
  = includes_string SUPPORTED_MIME_TYPES type_
    || includes_string SUPPORTED_EXTENSIONS ("." ++ toLowerCase ext)
  /\ isValidImageFile {| name := ext; type_ := type_ |}
     = isValidImageFile {| name := base ++ "." ++ ext; type_ := type_ |}.
Proof.
  intros Hdot. unfold isValidImageFile. cbn [name Async.type_].
  rewrite (pop_ext_last base ext Hdot), (pop_ext_no_dot ext Hdot).
  split; [|reflexivity].
  destruct (includes_string SUPPORTED_MIME_TYPES type_); reflexivity.
Qed.

Lemma isValidImageFile_by_last_extension_heic :
  isValidImageFile {| name := "IMG_0001.edit.HEIC"; type_ := EmptyString |}
  = includes_string SUPPORTED_MIME_TYPES EmptyString
    || includes_string SUPPORTED_EXTENSIONS ("." ++ toLowerCase "HEIC")
  /\ isValidImageFile {| name := "HEIC"; type_ := EmptyString |}
     = isValidImageFile {| name := "IMG_0001.edit.HEIC";
                           type_ := EmptyString |}.
Proof.
  apply (isValidImageFile_by_last_extension "IMG_0001.edit" "HEIC"
           EmptyString).
  reflexivity.
Defined.

End ImageFileNames.


Section RemoveAnnotationsSuccess.

Import JS Async Logic RemoveAnnotations.
Local Open Scope Z_scope.

Variable env : Env.

(** The page loop, when it runs to its end, was given indices of the
    document only, and has cleared the annotations of exactly the pages
    it was given. *)
Lemma remove_page_loop_strips (removeOptions : RemoveAnnotationsOptions)
    (count : nat) :
  forall rest i pdf removedCount s,
    wp (page_loop env removeOptions count i rest pdf removedCount)
       (fun res _ =>
          Forall (fun q => 0 <= q < Z.of_nat (length pdf)) rest
          /\ length (fst res) = length pdf
          /\ forall k page,
               pdf !! k = Some page ->
               fst res !! k = Some (if listed rest k then None else page))
       (fun o _ => forall r, o <> Success r)
       (fun _ _ => True) s.
Proof.
  induction rest as [|q rest IH]; intros i pdf removedCount s.
  - simpl. unfold wp, ret. simpl. auto.
  - simpl page_loop. apply wp_bind, wp_checkCancelled. intros c s1 _ _ _ _ _.
    destruct c; [intros r; discriminate|].
    apply wp_bind, wp_await; [intros annots Hget|auto].
    unfold getPage in Hget.
    destruct (Z.leb_spec 0 q); [|discriminate].
    destruct (Z.ltb_spec q (Z.of_nat (length pdf))); [|discriminate].
    simpl in Hget.
    destruct (pdf !! Z.to_nat q) as [page0|] eqn:Hq; [|discriminate].
    injection Hget as <-.
    set (pdf' := fst (match page0 with
                      | Some _ =>
                          if removeAll removeOptions
                          then (delete_Annots pdf q, S removedCount)
                          else (delete_Annots pdf q, S removedCount)
                      | None => (pdf, removedCount)
                      end)).
    assert (Hlen' : length pdf' = length pdf).
    { subst pdf'. destruct page0; [|reflexivity].
      destruct (removeAll removeOptions); simpl;
        unfold delete_Annots; apply length_insert. }
    assert (Hlook : forall k page,
               pdf !! k = Some page ->
               pdf' !! k
               = Some (if (q =? Z.of_nat k) then None else page)).
    { intros k page Hk. subst pdf'.
      destruct (Z.eqb_spec q (Z.of_nat k)) as [->|Hne].
      - rewrite Nat2Z.id in Hq.
        pose proof (eq_trans (eq_sym Hk) Hq) as E. injection E as ->.
        pose proof (lookup_lt_Some _ _ _ Hq) as Hlt.
        destruct page0; [|exact Hq].
        destruct (removeAll removeOptions); simpl; unfold delete_Annots;
          rewrite Nat2Z.id; apply list_lookup_insert_eq; exact Hlt.
      - destruct page0; [|exact Hk].
        destruct (removeAll removeOptions); simpl; unfold delete_Annots;
          (rewrite list_lookup_insert_ne by lia); exact Hk. }
    destruct (match page0 with
              | Some _ =>
                  if removeAll removeOptions
                  then (delete_Annots pdf q, S removedCount)
                  else (delete_Annots pdf q, S removedCount)
              | None => (pdf, removedCount)
              end) as [pdf1 removedCount1] eqn:Hstep.
    simpl in pdf'. subst pdf'.
    apply wp_bind, wp_updateProgress. intros s2 _ _ _ _.
    eapply wp_mono; [apply (IH (S i) pdf1 removedCount1 s2)| |auto|auto].
    intros res s3 (Hrange & Hlen & Hres).
    split; [|split].
    + constructor; [lia|]. rewrite <- Hlen'. exact Hrange.
    + rewrite Hlen. exact Hlen'.
    + intros k page Hk. rewrite (Hres k _ (Hlook k page Hk)).
      unfold listed. simpl existsb. fold (listed rest k).
      destruct (q =? Z.of_nat k); simpl; [|reflexivity].
      destruct (listed rest k); reflexivity.
Qed.


End RemoveAnnotationsSuccess.


Section RemoveAnnotationsTheorems.

Import JS Async Logic RemoveAnnotations.
Local Open Scope Z_scope.



Lemma bind_ext {O A B} (m : M O A) (k1 k2 : A -> M O B) :
  (forall a s, k1 a s = k2 a s) -> forall s, bind m k1 s = bind m k2 s.
Proof.
  intros Hk s. unfold bind. destruct (m s) as [s' [a|o|e]]; auto.
Qed.

Lemma try_catch_ext {O A} (body1 body2 : M O A) (handler : thrown -> M O A) :
  (forall s, body1 s = body2 s) ->
  forall s, try_catch body1 handler s = try_catch body2 handler s.
Proof. intros Hb s. unfold try_catch. rewrite Hb. reflexivity. Qed.

Lemma remove_page_loop_flag (env : Env)
    (o1 o2 : RemoveAnnotationsOptions) (count : nat) :
  forall rest i pdf removedCount s,
    page_loop env o1 count i rest pdf removedCount s
    = page_loop env o2 count i rest pdf removedCount s.
Proof.
  induction rest as [|q rest IH]; intros i pdf removedCount s; [reflexivity|].
  simpl. apply bind_ext. intros c s1. destruct c; [reflexivity|].
  apply bind_ext. intros annots s2.
  destruct annots; [destruct (removeAll o1), (removeAll o2)|];
    apply bind_ext; intros u s3; apply IH.
Qed.

(** X21. The option flags have no effect on the job: two runs that
    differ only in [removeAll], [removeComments], [removeHighlights] or
    [removeLinks] give the same outcome, the same document and the same
    progress, whatever the collaborators do. With [removeAll] off the
    whole annotation list of a selected page is deleted all the same. *)
Theorem remove_annotations_flags_ignored (env : Env)
    (files : list File) (o1 o2 : RemoveAnnotationsOptions) (s : St) :
  pages o1 = pages o2 ->
  run (process env {| files := files; options := o1 |}) s
  = run (process env {| files := files; options := o2 |}) s.
Proof.
  intros Hpages. unfold run.
  assert (E : process env {| files := files; options := o1 |} s
              = process env {| files := files; options := o2 |} s);
    [|rewrite E; reflexivity].
  unfold process. cbn [RemoveAnnotations.files options].
  apply bind_ext. intros u s0.
  destruct files as [|file [|file' more]]; try reflexivity.
  apply try_catch_ext. intros s1. unfold process_try.
  do 6 (apply bind_ext; intros ? ?).
  unfold select_pages. rewrite Hpages.
  unfold bind at 1 3. rewrite (remove_page_loop_flag env o1 o2). reflexivity.
Qed.

Lemma remove_annotations_flags_ignored_page3 :
  run (process RemoveExamples.annotated
         (RemoveExamples.remove_input true [3])) fresh
  = run (process RemoveExamples.annotated
           (RemoveExamples.remove_input false [3])) fresh.
Proof.
  apply (remove_annotations_flags_ignored RemoveExamples.annotated
           [Examples.pdf_file]).
  reflexivity.
Defined.

End RemoveAnnotationsTheorems.


Section FormCreatorRun.

Import JS Async Logic FormCreator.
Local Open Scope Z_scope.

Variable env : Env.

Hypothesis never_cancelled : forall k, cancelled env k = false.

(** Whether a field's calls go through does not depend on the form they
    are added to. *)
Lemma run_calls_outcome (i : nat) :
  forall calls j form1 form2,
    snd (run_calls env i j calls form1) = snd (run_calls env i j calls form2).
Proof.
  induction calls as [|c calls IH]; intros j form1 form2; simpl;
    [reflexivity|].
  destruct (call env i j c); [reflexivity|apply IH].
Qed.

(** Without cancellation the field loop runs to its end, whatever the
    form calls do, and counts the fields created. *)
Lemma field_loop_run (totalPages count : nat) :
  forall rest i form createdCount s,
    wp (field_loop env totalPages count i rest form createdCount)
       (fun res _ =>
          snd res = (createdCount + created_count env totalPages i rest)%nat)
       (fun _ _ => False) (fun _ _ => False) s.
Proof.
  induction rest as [|fieldDef rest IH]; intros i form createdCount s.
  - simpl. unfold wp, ret. simpl. lia.
  - simpl field_loop. apply wp_bind, wp_checkCancelled.
    intros c s1 -> _ _ _ _. rewrite never_cancelled.
    simpl created_count. unfold created, on_page.
    destruct (Z.ltb_spec (pageNumber fieldDef - 1) 0) as [Hneg|Hpos].
    { simpl orb. cbv iota.
      destruct (Z.leb_spec 0 (pageNumber fieldDef - 1)); [lia|].
      simpl andb. cbv iota.
      eapply wp_mono; [apply IH| |auto|auto].
      intros res s2 ->. simpl. reflexivity. }
    destruct (Z.leb_spec (Z.of_nat totalPages) (pageNumber fieldDef - 1))
      as [Hhigh|Hlow].
    { simpl orb. cbv iota.
      destruct (Z.ltb_spec (pageNumber fieldDef - 1) (Z.of_nat totalPages));
        [lia|].
      rewrite andb_false_r. simpl andb. cbv iota.
      eapply wp_mono; [apply IH| |auto|auto].
      intros res s2 ->. simpl. reflexivity. }
    simpl orb. cbv iota.
    destruct (Z.leb_spec 0 (pageNumber fieldDef - 1)); [|lia].
    destruct (Z.ltb_spec (pageNumber fieldDef - 1) (Z.of_nat totalPages));
      [|lia].
    simpl andb.
    rewrite (run_calls_outcome i _ 0%nat [] form).
    destruct (run_calls env i 0
                (field_calls fieldDef (pageNumber fieldDef - 1)) form)
      as [form' [fieldError|]]; simpl snd; cbv iota.
    + apply wp_bind, wp_updateProgress. intros s2 _ _ _ _.
      eapply wp_mono; [apply IH| |auto|auto].
      intros res s3 ->. simpl. reflexivity.
    + apply wp_bind, wp_updateProgress. intros s2 _ _ _ _.
      eapply wp_mono; [apply IH| |auto|auto].
      intros res s3 ->. simpl. lia.
Qed.

Lemma created_count_bound (totalPages : nat) :
  forall rest i,
    (created_count env totalPages i rest
     <= length (List.filter (on_page totalPages) rest))%nat.
Proof.
  induction rest as [|fieldDef rest IH]; intros i; simpl; [lia|].
  specialize (IH (S i)). unfold created.
  destruct (on_page totalPages fieldDef); simpl; [|exact IH].
  destruct (snd (run_calls env i 0 _ [])); simpl; lia.
Qed.

End FormCreatorRun.

Section FormCreatorTheorem.

Import JS Async Logic FormCreator.
Local Open Scope Z_scope.

(** X22. Form fields fail one by one, not as a job. Take any run with
    one file and at least one field in which the library and the
    document load, nothing is cancelled and the final save resolves.
    Whatever form calls throw, the job succeeds; [fieldsCreated] counts
    exactly the fields whose page exists and whose calls all went
    through, so fields on a page the document does not have are skipped
    without an error and the count never exceeds the number of fields on
    existing pages. *)
Theorem form_fields_fail_separately (env : Env) (input : ProcessInput)
    (file : File) (totalPages : nat) (s : St) :
  files input = [file] ->
  fields (formOptions input) <> [] ->
  loadPdfLib env = None ->
  arrayBuffer env = None ->
  load env = inr totalPages ->
  getForm env = None ->
  (forall k, cancelled env k = false) ->
  save env = None ->
  exists r,
    snd (run (process env input) s) = Returned (Success r)
    /\ fieldsCreated r
       = created_count env totalPages 0 (fields (formOptions input))
    /\ (fieldsCreated r
        <= length (List.filter (on_page totalPages)
                     (fields (formOptions input))))%nat
    /\ filename r = replace_first ".pdf" "_form.pdf" (Async.name file).
Proof.
  intros Hfiles Hfields Hlib Hbuf Hload Hform Hcancel Hsave.
  apply (wp_run (process env input)
           (fun _ c =>
              exists r,
                c = Returned (Success r)
                /\ fieldsCreated r
                   = created_count env totalPages 0
                       (fields (formOptions input))
                /\ (fieldsCreated r
                    <= length (List.filter (on_page totalPages)
                                 (fields (formOptions input))))%nat
                /\ filename r
                   = replace_first ".pdf" "_form.pdf" (Async.name file))).
  unfold process. apply wp_bind, wp_reset. intros s0 _ _ _ _.
  rewrite Hfiles.
  destruct (length (fields (formOptions input)) =? 0)%nat eqn:Hlen.
  { exfalso. apply Nat.eqb_eq in Hlen.
    apply Hfields, length_zero_iff_nil, Hlen. }
  apply wp_try_catch. unfold process_try.
  apply wp_bind, wp_updateProgress. intros s1 _ _ _ _.
  rewrite Hlib. apply wp_bind. unfold wp at 1, await_, ret.
  apply wp_bind, wp_updateProgress. intros s2 _ _ _ _.
  rewrite Hbuf. apply wp_bind. unfold wp at 1, await_, ret.
  rewrite Hload. apply wp_bind. unfold wp at 1, await, ret.
  rewrite Hform. apply wp_bind. unfold wp at 1, await_, ret.
  apply wp_bind, wp_updateProgress. intros s3 _ _ _ _.
  apply wp_bind.
  eapply wp_mono;
    [apply (field_loop_run env Hcancel totalPages _
              (fields (formOptions input)) 0%nat [] 0%nat s3)
    | | intros ? ? [] | intros ? ? []].
  intros out s4 Hout. simpl in Hout.
  apply wp_bind, wp_updateProgress. intros s5 _ _ _ _.
  rewrite Hsave. apply wp_bind. unfold wp at 1, await_, ret.
  apply wp_bind, wp_updateProgress. intros s6 _ _ _ _.
  unfold wp, ret. eexists. split; [reflexivity|]. simpl.
  split; [exact Hout|]. split; [|reflexivity].
  rewrite Hout. apply created_count_bound.
Qed.

Lemma form_fields_fail_separately_duplicate :
  exists r,
    snd (run (process FormExamples.duplicate_refused FormExamples.form_input)
             fresh)
    = Returned (Success r)
    /\ fieldsCreated r = 2%nat.
Proof.
  destruct (form_fields_fail_separately FormExamples.duplicate_refused
              FormExamples.form_input Examples.pdf_file 2 fresh)
    as [r [Hrun [Hcount _]]].
  - reflexivity.
  - discriminate.
  - reflexivity.
  - reflexivity.
  - reflexivity.
  - reflexivity.
  - intros k. reflexivity.
  - reflexivity.
  - exists r. split; [exact Hrun|]. rewrite Hcount. reflexivity.
Defined.

End FormCreatorTheorem.


Section NeverRejects.

Import Async Logic.

Context {O : Type}.

(** A [try] whose handler only builds a failure outcome never throws. *)
Lemma wp_try_catch_total {A} (body : M O A) (handler : thrown -> M O A) s :
  (forall e s', exists a, handler e s' = (s', Val a)) ->
  wp (try_catch body handler) (fun _ _ => True) (fun _ _ => True)
     (fun _ _ => False) s.
Proof.
  intros Hh. unfold wp, try_catch.
  destruct (body s) as [s' [a|o|e]]; try exact I.
  destruct (Hh e s') as [a ->]. exact I.
Qed.

End NeverRejects.

Section NeverRejectsTheorem.

Import Async Logic.

(** X23. The promise returned by [process] of the split, text-colour,
    background, image-to-PDF, remove-annotations and form-creator
    processors never rejects: whatever the input is and whatever the
    collaborators throw, [process] resolves with a success or failure
    outcome. (The OCR processor is not in this list: its handler awaits
    [terminate()].) *)
Theorem process_never_rejects (s : St) :
  (forall env input,
      exists o, snd (run (SplitPDF.process env input) s) = Returned o)
  /\ (forall env input,
        exists o, snd (run (TextColor.process env input) s) = Returned o)
  /\ (forall env input,
        exists o,
          snd (run (BackgroundColor.process env input) s) = Returned o)
  /\ (forall env input,
        exists o,
          snd (run (ImageToPDFProcessor.process env input) s) = Returned o)
  /\ (forall env input,
        exists o,
          snd (run (RemoveAnnotations.process env input) s) = Returned o)
  /\ (forall env input,
        exists o, snd (run (FormCreator.process env input) s) = Returned o).
Proof.
  assert (Hrun : forall (O : Type) (m : M O O),
             wp m (fun _ _ => True) (fun _ _ => True) (fun _ _ => False) s ->
             exists o, snd (run m s) = Returned o).
  { intros O m H.
    apply (wp_run m (fun _ c => exists o, c = Returned o)).
    eapply wp_mono; [exact H| | |]; cbv beta.
    - intros o s' _. exists o. reflexivity.
    - intros o s' _. exists o. reflexivity.
    - intros e s' []. }
  repeat split; intros env input; apply Hrun.
  - unfold SplitPDF.process. apply wp_bind. unfold wp at 1, reset.
    destruct (SplitPDF.files input) as [|file [|file' more]]; try exact I.
    destruct (length _ =? 0)%nat; [exact I|].
    apply wp_try_catch_total. intros e s'. eexists. reflexivity.
  - unfold TextColor.process. apply wp_bind. unfold wp at 1, reset.
    destruct (TextColor.files input) as [|file [|file' more]]; try exact I.
    apply wp_try_catch_total. intros e s'. eexists. reflexivity.
  - unfold BackgroundColor.process. apply wp_bind. unfold wp at 1, reset.
    destruct (BackgroundColor.files input) as [|file [|file' more]];
      try exact I.
    apply wp_try_catch_total. intros e s'. eexists. reflexivity.
  - unfold ImageToPDFProcessor.process. apply wp_bind. unfold wp at 1, reset.
    destruct (length _ <? 1)%nat; [exact I|].
    destruct (List.find _ _); [exact I|].
    apply wp_try_catch_total. intros e s'. eexists. reflexivity.
  - unfold RemoveAnnotations.process. apply wp_bind. unfold wp at 1, reset.
    destruct (RemoveAnnotations.files input) as [|file [|file' more]];
      try exact I.
    apply wp_try_catch_total. intros e s'. eexists. reflexivity.
  - unfold FormCreator.process. apply wp_bind. unfold wp at 1, reset.
    destruct (FormCreator.files input) as [|file [|file' more]]; try exact I.
    destruct (length _ =? 0)%nat; [exact I|].
    apply wp_try_catch_total. intros e s'. eexists. reflexivity.
Qed.

End NeverRejectsTheorem.


Section OCRRejects.

Import JS Async Logic OCR.

Variable env : Env.

Hypothesis terminate_rejects : forall k, exists e, terminate env k = Some e.

Lemma terminateTesseract_throws (QV : unit -> St -> Prop)
    (QR : Output -> St -> Prop) (QE : thrown -> St -> Prop) (s : St) :
  tesseractWorker s <> None ->
  (forall e s', tesseractWorker s' <> None -> QE e s') ->
  wp (terminateTesseract env) QV QR QE s.
Proof.
  intros Hs HE. cbv [wp terminateTesseract bind get put await_ throw ret].
  destruct (tesseractWorker s) eqn:W; [|contradiction].
  destruct (terminate_rejects (terminate_calls s)) as [e ->].
  apply HE. simpl. discriminate.
Qed.

(** With a live session and a worker that cannot be shut down, the
    page loop ends normally or throws, and the session stays live. *)
Lemma page_loop_keeps_worker (T : nat) (p : Q) :
  forall rest i acc s,
    tesseractWorker s <> None ->
    wp (page_loop env T p i rest acc)
       (fun _ s' => tesseractWorker s' <> None)
       (fun _ _ => False)
       (fun _ s' => tesseractWorker s' <> None) s.
Proof.
  induction rest as [|pageNum rest IH]; intros i acc s Hs.
  - simpl. unfold wp, ret. exact Hs.
  - simpl page_loop. apply wp_bind, wp_checkCancelled.
    intros c s1 _ _ W1 _ _.
    assert (Hs1 : tesseractWorker s1 <> None) by congruence.
    destruct c.
    + apply wp_bind, terminateTesseract_throws; [exact Hs1|auto].
    + apply wp_bind, wp_updateProgress. intros s2 _ W2 _ _.
      assert (Hs2 : tesseractWorker s2 <> None) by congruence.
      apply wp_bind.
      destruct (ocr_or_marker_run env i pageNum acc s2) as [entry [Hrun _]].
      unfold wp at 1. rewrite Hrun. cbv beta iota.
      apply (IH (S i) _ s2 Hs2).
Qed.

End OCRRejects.

Section OCRRejectsTheorem.

Import JS Async Logic OCR.

(** X24. The promise of the OCR processor can reject. Once the
    Tesseract session has been created (one PDF file, the library loads,
    the first cancellation poll is clear, [createWorker] resolves), if
    every [terminate()] call rejects then [process] rejects, on every
    path: the clean-up in each exit path throws into the handler, and
    the handler's own [terminate()] call throws out of [process]. *)
Theorem ocr_rejects_when_terminate_keeps_failing (env : Env)
    (input : ProcessInput) (file : File) (s : St) :
  files input = [file] ->
  is_pdf file = true ->
  loadPdfjs env = None ->
  cancelled env 0 = false ->
  createWorker env = None ->
  (forall k, exists e, terminate env k = Some e) ->
  exists e, snd (run (process env input) s) = Rejected e.
Proof.
  intros Hfiles Hpdf Hload Hcancel Hworker Hterm.
  apply (wp_run (process env input) (fun _ c => exists e, c = Rejected e)).
  unfold process. apply wp_bind. unfold wp at 1, reset.
  match goal with |- wp _ _ _ _ ?s0 => set (s0' := s0) end.
  assert (P0 : polls s0' = 0%nat) by reflexivity. clearbody s0'.
  rewrite Hfiles, Hpdf. simpl negb. cbv iota.
  apply wp_try_catch.
  apply wp_mono with (QV := fun _ _ => False) (QR := fun _ _ => False)
                     (QE := fun _ s' => tesseractWorker s' <> None).
  2:{ intros o s' []. }
  2:{ intros o s' []. }
  2:{ intros e s' Hs'. apply wp_bind.
      apply (terminateTesseract_throws env Hterm); [exact Hs'|].
      intros e' s'' _. exists e'. reflexivity. }
  unfold process_try.
  apply wp_bind. unfold wp at 1, updateProgress.
  rewrite Hload. apply wp_bind. unfold wp at 1, await_, ret.
  apply wp_bind. unfold wp at 1, checkCancelled. cbn [polls].
  rewrite P0, Hcancel.
  apply wp_bind. unfold wp at 1, updateProgress.
  apply wp_bind, initializeTesseract_resolves; [exact Hworker|intros s4 L4].
  apply wp_bind, wp_updateProgress. intros s5 _ W5 _ _.
  assert (L5 : tesseractWorker s5 <> None) by congruence.
  apply wp_bind, wp_await; [intros totalPages _|intros e _; exact L5].
  destruct (length _ =? 0)%nat.
  { apply wp_bind, (terminateTesseract_throws env Hterm); [exact L5|auto]. }
  apply wp_bind, wp_updateProgress. intros s6 _ W6 _ _.
  assert (L6 : tesseractWorker s6 <> None) by congruence.
  apply wp_bind.
  eapply wp_mono;
    [apply (page_loop_keeps_worker env Hterm totalPages _ _ 0%nat [] s6 L6)
    | | auto | auto].
  intros textResults s7 L7.
  apply wp_bind, (terminateTesseract_throws env Hterm); [exact L7|auto].
Qed.

Lemma ocr_rejects_when_terminate_keeps_failing_3 :
  exists e,
    snd (run (process OCRExamples.ocr_terminate_always_rejects
                Examples.ocr_input) fresh)
    = Rejected e.
Proof.
  apply (ocr_rejects_when_terminate_keeps_failing
           OCRExamples.ocr_terminate_always_rejects Examples.ocr_input
           Examples.pdf_file fresh).
  - reflexivity.
  - reflexivity.
  - reflexivity.
  - reflexivity.
  - reflexivity.
  - intros k. eexists. reflexivity.
Defined.

End OCRRejectsTheorem.


Section LoopShares.

Import Async Logic.
Local Open Scope Q_scope.

(** The share [w * i / n] of a span [w] grows with [i] and stays within
    the span while [i <= n]. *)
Lemma ratio_mono (w : Q) (i j n : nat) :
  0 <= w -> (i <= j)%nat ->
  w * inject_Z (Z.of_nat i) / inject_Z (Z.of_nat n)
  <= w * inject_Z (Z.of_nat j) / inject_Z (Z.of_nat n).
Proof.
  intros Hw Hij. unfold Qdiv. apply Qmult_le_compat_r.
  - pose proof (inject_nat_le i j Hij). pose proof (inject_nat_nonneg i). nra.
  - apply Qinv_le_0_compat, inject_nat_nonneg.
Qed.

Lemma ratio_bound (w : Q) (i n : nat) :
  0 <= w -> (i <= n)%nat ->
  w * inject_Z (Z.of_nat i) / inject_Z (Z.of_nat n) <= w.
Proof.
  intros Hw Hin. destruct n as [|n].
  - replace i with 0%nat by lia. change (inject_Z (Z.of_nat 0)) with 0.
    assert (E : w * 0 / 0 == 0) by (unfold Qdiv; ring).
    rewrite E. exact Hw.
  - eapply Qle_trans; [apply (ratio_mono w i (S n) (S n) Hw Hin)|].
    apply Qle_lteq. right. field. intros H.
    change 0 with (inject_Z 0) in H.
    apply (proj1 (inject_Z_injective _ _)) in H. lia.
Qed.

Lemma ratio_nonneg (w : Q) (i n : nat) :
  0 <= w -> 0 <= w * inject_Z (Z.of_nat i) / inject_Z (Z.of_nat n).
Proof.
  intros Hw. unfold Qdiv. apply Qmult_le_0_compat.
  - apply Qmult_le_0_compat; [exact Hw|apply inject_nat_nonneg].
  - apply Qinv_le_0_compat, inject_nat_nonneg.
Qed.

End LoopShares.

Section TextColorProgress.

Import JS Async Logic TextColor.
Local Open Scope Q_scope.

Variable env : Env.

Lemma textcolor_page_loop_progress (textOptions : TextColorOptions)
    (pdfjsDoc : list SourcePage) (count : nat) :
  forall rest i acc b s,
    tracked b s ->
    (i + length rest = count)%nat ->
    b <= 15 + 75 * inject_Z (Z.of_nat i) / inject_Z (Z.of_nat count) ->
    wp (page_loop env textOptions pdfjsDoc count i rest acc)
       (fun _ s' => tracked 90 s')
       (fun _ s' => progress_ok (emitted s') /\ faithful s')
       (fun _ s' => progress_ok (emitted s') /\ faithful s') s.
Proof.
  induction rest as [|pageNum rest IH]; intros i acc b s Ht Hcount Hb.
  - simpl. unfold wp, ret.
    apply (tracked_weaken b 90); [exact Ht| |discriminate].
    pose proof (ratio_bound 75 i count ltac:(discriminate) ltac:(lia)). lra.
  - simpl page_loop. simpl length in Hcount.
    apply wp_bind, (wp_checkCancelled_tracked b); [exact Ht|].
    intros c s1 Ht1.
    destruct c; [exact (tracked_ok _ _ Ht1)|].
    set (v := 15 + 75 * (inject_Z (Z.of_nat i) / inject_Z (Z.of_nat count))).
    assert (Ev : v == 15 + 75 * inject_Z (Z.of_nat i)
                           / inject_Z (Z.of_nat count))
      by (subst v; unfold Qdiv; ring).
    pose proof (ratio_bound 75 i count ltac:(discriminate) ltac:(lia)) as Hi.
    pose proof (ratio_mono 75 i (S i) count ltac:(discriminate) ltac:(lia))
      as Hnext.
    apply wp_bind, (wp_updateProgress_tracked b); [exact Ht1|lra|lra|].
    intros s2 Ht2.
    apply wp_bind, wp_await;
      [intros page _|intros e _; exact (tracked_ok _ _ Ht2)].
    apply wp_bind, wp_await_;
      [intros _|intros e _; exact (tracked_ok _ _ Ht2)].
    apply (IH (S i) _ v s2 Ht2); [lia|lra].
Qed.

Lemma textcolor_process_progress (input : ProcessInput) (s : St) :
  wp (process env input)
     (fun _ s' => progress_ok (emitted s') /\ faithful s')
     (fun _ s' => progress_ok (emitted s') /\ faithful s')
     (fun _ s' => progress_ok (emitted s') /\ faithful s') s.
Proof.
  unfold process. apply wp_bind, wp_reset_tracked. intros s0 T0.
  pose proof (tracked_ok _ _ T0) as P0.
  destruct (files input) as [|file [|file' more]]; try exact P0.
  apply wp_try_catch.
  apply wp_mono with
    (QV := fun _ s' => progress_ok (emitted s') /\ faithful s')
    (QR := fun _ s' => progress_ok (emitted s') /\ faithful s')
    (QE := fun _ s' => progress_ok (emitted s') /\ faithful s'); auto.
  unfold process_try.
  apply wp_bind, (wp_updateProgress_tracked 0 5);
    [exact T0|discriminate|discriminate|intros s1 T1].
  apply wp_bind, wp_await_; [intros _|intros e _; exact (tracked_ok _ _ T1)].
  apply wp_bind, (wp_updateProgress_tracked 5 10);
    [exact T1|discriminate|discriminate|intros s2 T2].
  apply wp_bind, wp_await;
    [intros pdfjsDoc _|intros e _; exact (tracked_ok _ _ T2)].
  apply wp_bind, (wp_updateProgress_tracked 10 15);
    [exact T2|discriminate|discriminate|intros s3 T3].
  apply wp_bind.
  eapply wp_mono;
    [apply (textcolor_page_loop_progress (options input) pdfjsDoc _
              (select_pages (options input) (length pdfjsDoc)) 0%nat [] 15
              s3 T3)
    | | auto | auto].
  - reflexivity.
  - pose proof (ratio_nonneg 75 0
                  (length (select_pages (options input) (length pdfjsDoc)))
                  ltac:(discriminate)). lra.
  - intros newPdf s4 T4.
    apply wp_bind, (wp_updateProgress_tracked 90 95);
      [exact T4|discriminate|discriminate|intros s5 T5].
    apply wp_bind, wp_await_; [intros _|intros e _; exact (tracked_ok _ _ T5)].
    apply wp_bind, (wp_updateProgress_tracked 95 100);
      [exact T5|discriminate|discriminate|intros s6 T6].
    exact (tracked_ok _ _ T6).
Qed.

End TextColorProgress.

Section BackgroundProgress.

Import JS Async Logic BackgroundColor.
Local Open Scope Q_scope.

Variable env : Env.

Lemma background_page_loop_progress (pagesToProcess : list Z)
    (totalPages : nat) :
  forall rest i acc b s,
    tracked b s ->
    (i + length rest = totalPages)%nat ->
    b <= 40 + 50 * inject_Z (Z.of_nat i) / inject_Z (Z.of_nat totalPages) ->
    wp (page_loop env pagesToProcess totalPages i rest acc)
       (fun _ s' => tracked 90 s')
       (fun _ s' => progress_ok (emitted s') /\ faithful s')
       (fun _ s' => progress_ok (emitted s') /\ faithful s') s.
Proof.
  induction rest as [|[width height] rest IH]; intros i acc b s Ht Hcount Hb.
  - simpl. unfold wp, ret.
    apply (tracked_weaken b 90); [exact Ht| |discriminate].
    pose proof (ratio_bound 50 i totalPages ltac:(discriminate) ltac:(lia)).
    lra.
  - simpl page_loop. simpl length in Hcount.
    apply wp_bind, (wp_checkCancelled_tracked b); [exact Ht|].
    intros c s1 Ht1.
    destruct c; [exact (tracked_ok _ _ Ht1)|].
    set (v := 40 + 50 * (inject_Z (Z.of_nat i) + 1)
                   / inject_Z (Z.of_nat totalPages)).
    assert (Ev : v == 40 + 50 * inject_Z (Z.of_nat (S i))
                           / inject_Z (Z.of_nat totalPages))
      by (subst v; rewrite inject_nat_succ; reflexivity).
    pose proof (ratio_bound 50 (S i) totalPages ltac:(discriminate)
                  ltac:(lia)) as Hi.
    pose proof (ratio_mono 50 i (S i) totalPages ltac:(discriminate)
                  ltac:(lia)) as Hnext.
    apply wp_bind, (wp_updateProgress_tracked b); [exact Ht1|lra|lra|].
    intros s2 Ht2.
    apply (IH (S i) _ v s2 Ht2); [lia|lra].
Qed.

Lemma background_process_progress (input : ProcessInput) (s : St) :
  wp (process env input)
     (fun _ s' => progress_ok (emitted s') /\ faithful s')
     (fun _ s' => progress_ok (emitted s') /\ faithful s')
     (fun _ s' => progress_ok (emitted s') /\ faithful s') s.
Proof.
  unfold process. apply wp_bind, wp_reset_tracked. intros s0 T0.
  pose proof (tracked_ok _ _ T0) as P0.
  destruct (files input) as [|file [|file' more]]; try exact P0.
  apply wp_try_catch.
  apply wp_mono with
    (QV := fun _ s' => progress_ok (emitted s') /\ faithful s')
    (QR := fun _ s' => progress_ok (emitted s') /\ faithful s')
    (QE := fun _ s' => progress_ok (emitted s') /\ faithful s'); auto.
  unfold process_try.
  apply wp_bind, (wp_updateProgress_tracked 0 10);
    [exact T0|discriminate|discriminate|intros s1 T1].
  apply wp_bind, wp_await_; [intros _|intros e _; exact (tracked_ok _ _ T1)].
  apply wp_bind, (wp_updateProgress_tracked 10 20);
    [exact T1|discriminate|discriminate|intros s2 T2].
  apply wp_bind, wp_await;
    [intros sourcePages _|intros e _; exact (tracked_ok _ _ T2)].
  apply wp_bind, (wp_updateProgress_tracked 20 30);
    [exact T2|discriminate|discriminate|intros s3 T3].
  apply wp_bind, wp_await_; [intros _|intros e _; exact (tracked_ok _ _ T3)].
  apply wp_bind, (wp_updateProgress_tracked 30 40);
    [exact T3|discriminate|discriminate|intros s4 T4].
  apply wp_bind.
  eapply wp_mono;
    [apply (background_page_loop_progress _ (length sourcePages)
              sourcePages 0%nat [] 40 s4 T4)
    | | auto | auto].
  - reflexivity.
  - pose proof (ratio_nonneg 50 0 (length sourcePages) ltac:(discriminate)).
    lra.
  - intros newPdf s5 T5.
    apply wp_bind, (wp_updateProgress_tracked 90 95);
      [exact T5|discriminate|discriminate|intros s6 T6].
    apply wp_bind, wp_await_; [intros _|intros e _; exact (tracked_ok _ _ T6)].
    apply wp_bind, (wp_updateProgress_tracked 95 100);
      [exact T6|discriminate|discriminate|intros s7 T7].
    exact (tracked_ok _ _ T7).
Qed.

End BackgroundProgress.


Section RemoveAnnotationsProgress.

Import JS Async Logic RemoveAnnotations.
Local Open Scope Q_scope.

Variable env : Env.

Lemma remove_page_loop_progress (removeOptions : RemoveAnnotationsOptions)
    (count : nat) :
  forall rest i pdf removedCount b s,
    tracked b s ->
    (i + length rest = count)%nat ->
    b <= 30 + 60 * inject_Z (Z.of_nat i) / inject_Z (Z.of_nat count) ->
    wp (page_loop env removeOptions count i rest pdf removedCount)
       (fun _ s' => tracked 90 s')
       (fun _ s' => progress_ok (emitted s') /\ faithful s')
       (fun _ s' => progress_ok (emitted s') /\ faithful s') s.
Proof.
  induction rest as [|q rest IH];
    intros i pdf removedCount b s Ht Hcount Hb.
  - simpl. unfold wp, ret.
    apply (tracked_weaken b 90); [exact Ht| |discriminate].
    pose proof (ratio_bound 60 i count ltac:(discriminate) ltac:(lia)). lra.
  - simpl page_loop. simpl length in Hcount.
    apply wp_bind, (wp_checkCancelled_tracked b); [exact Ht|].
    intros c s1 Ht1.
    destruct c; [exact (tracked_ok _ _ Ht1)|].
    apply wp_bind, wp_await;
      [intros annots _|intros e _; exact (tracked_ok _ _ Ht1)].
    destruct (match annots with
              | Some _ =>
                  if removeAll removeOptions
                  then (delete_Annots pdf q, S removedCount)
                  else (delete_Annots pdf q, S removedCount)
              | None => (pdf, removedCount)
              end) as [pdf' removedCount'].
    set (v := 30 + 60 * (inject_Z (Z.of_nat i) + 1)
                   / inject_Z (Z.of_nat count)).
    assert (Ev : v == 30 + 60 * inject_Z (Z.of_nat (S i))
                           / inject_Z (Z.of_nat count))
      by (subst v; rewrite inject_nat_succ; reflexivity).
    pose proof (ratio_bound 60 (S i) count ltac:(discriminate) ltac:(lia))
      as Hi.
    pose proof (ratio_mono 60 i (S i) count ltac:(discriminate) ltac:(lia))
      as Hnext.
    apply wp_bind, (wp_updateProgress_tracked b); [exact Ht1|lra|lra|].
    intros s2 Ht2.
    apply (IH (S i) _ _ v s2 Ht2); [lia|lra].
Qed.

Lemma remove_process_progress (input : ProcessInput) (s : St) :
  wp (process env input)
     (fun _ s' => progress_ok (emitted s') /\ faithful s')
     (fun _ s' => progress_ok (emitted s') /\ faithful s')
     (fun _ s' => progress_ok (emitted s') /\ faithful s') s.
Proof.
  unfold process. apply wp_bind, wp_reset_tracked. intros s0 T0.
  pose proof (tracked_ok _ _ T0) as P0.
  destruct (files input) as [|file [|file' more]]; try exact P0.
  apply wp_try_catch.
  apply wp_mono with
    (QV := fun _ s' => progress_ok (emitted s') /\ faithful s')
    (QR := fun _ s' => progress_ok (emitted s') /\ faithful s')
    (QE := fun _ s' => progress_ok (emitted s') /\ faithful s'); auto.
  unfold process_try.
  apply wp_bind, (wp_updateProgress_tracked 0 10);
    [exact T0|discriminate|discriminate|intros s1 T1].
  apply wp_bind, wp_await_; [intros _|intros e _; exact (tracked_ok _ _ T1)].
  apply wp_bind, (wp_updateProgress_tracked 10 20);
    [exact T1|discriminate|discriminate|intros s2 T2].
  apply wp_bind, wp_await_; [intros _|intros e _; exact (tracked_ok _ _ T2)].
  apply wp_bind, wp_await;
    [intros pdf _|intros e _; exact (tracked_ok _ _ T2)].
  apply wp_bind, (wp_updateProgress_tracked 20 30);
    [exact T2|discriminate|discriminate|intros s3 T3].
  apply wp_bind.
  eapply wp_mono;
    [apply (remove_page_loop_progress (options input) _
              (select_pages (options input) (length pdf)) 0%nat pdf 0%nat 30
              s3 T3)
    | | auto | auto].
  - reflexivity.
  - pose proof (ratio_nonneg 60 0
                  (length (select_pages (options input) (length pdf)))
                  ltac:(discriminate)). lra.
  - intros out s4 T4.
    apply wp_bind, (wp_updateProgress_tracked 90 95);
      [exact T4|discriminate|discriminate|intros s5 T5].
    apply wp_bind, wp_await_; [intros _|intros e _; exact (tracked_ok _ _ T5)].
    apply wp_bind, (wp_updateProgress_tracked 95 100);
      [exact T5|discriminate|discriminate|intros s6 T6].
    exact (tracked_ok _ _ T6).
Qed.

End RemoveAnnotationsProgress.

Section FormCreatorProgress.

Import JS Async Logic FormCreator.
Local Open Scope Q_scope.

Variable env : Env.

Lemma field_loop_progress (totalPages count : nat) :
  forall rest i form createdCount b s,
    tracked b s ->
    (i + length rest = count)%nat ->
    b <= 30 + 60 * inject_Z (Z.of_nat i) / inject_Z (Z.of_nat count) ->
    wp (field_loop env totalPages count i rest form createdCount)
       (fun _ s' => tracked 90 s')
       (fun _ s' => progress_ok (emitted s') /\ faithful s')
       (fun _ s' => progress_ok (emitted s') /\ faithful s') s.
Proof.
  induction rest as [|fieldDef rest IH];
    intros i form createdCount b s Ht Hcount Hb.
  - simpl. unfold wp, ret.
    apply (tracked_weaken b 90); [exact Ht| |discriminate].
    pose proof (ratio_bound 60 i count ltac:(discriminate) ltac:(lia)). lra.
  - simpl field_loop. simpl length in Hcount.
    apply wp_bind, (wp_checkCancelled_tracked b); [exact Ht|].
    intros c s1 Ht1.
    destruct c; [exact (tracked_ok _ _ Ht1)|].
    pose proof (ratio_bound 60 (S i) count ltac:(discriminate) ltac:(lia))
      as Hi.
    pose proof (ratio_mono 60 i (S i) count ltac:(discriminate) ltac:(lia))
      as Hnext.
    destruct ((pageNumber fieldDef - 1 <? 0)%Z
              || (Z.of_nat totalPages <=? pageNumber fieldDef - 1)%Z).
    { apply (IH (S i) _ _ b s1 Ht1); [lia|lra]. }
    destruct (match run_calls env i 0
                      (field_calls fieldDef (pageNumber fieldDef - 1)) form
              with
              | (form', None) => (form', S createdCount)
              | (form', Some _) => (form', createdCount)
              end) as [form' createdCount'].
    set (v := 30 + 60 * (inject_Z (Z.of_nat i) + 1)
                   / inject_Z (Z.of_nat count)).
    assert (Ev : v == 30 + 60 * inject_Z (Z.of_nat (S i))
                           / inject_Z (Z.of_nat count))
      by (subst v; rewrite inject_nat_succ; reflexivity).
    apply wp_bind, (wp_updateProgress_tracked b); [exact Ht1|lra|lra|].
    intros s2 Ht2.
    apply (IH (S i) _ _ v s2 Ht2); [lia|lra].
Qed.

Lemma form_process_progress (input : ProcessInput) (s : St) :
  wp (process env input)
     (fun _ s' => progress_ok (emitted s') /\ faithful s')
     (fun _ s' => progress_ok (emitted s') /\ faithful s')
     (fun _ s' => progress_ok (emitted s') /\ faithful s') s.
Proof.
  unfold process. apply wp_bind, wp_reset_tracked. intros s0 T0.
  pose proof (tracked_ok _ _ T0) as P0.
  destruct (files input) as [|file [|file' more]]; try exact P0.
  destruct (length (fields (formOptions input)) =? 0)%nat; [exact P0|].
  apply wp_try_catch.
  apply wp_mono with
    (QV := fun _ s' => progress_ok (emitted s') /\ faithful s')
    (QR := fun _ s' => progress_ok (emitted s') /\ faithful s')
    (QE := fun _ s' => progress_ok (emitted s') /\ faithful s'); auto.
  unfold process_try.
  apply wp_bind, (wp_updateProgress_tracked 0 10);
    [exact T0|discriminate|discriminate|intros s1 T1].
  apply wp_bind, wp_await_; [intros _|intros e _; exact (tracked_ok _ _ T1)].
  apply wp_bind, (wp_updateProgress_tracked 10 20);
    [exact T1|discriminate|discriminate|intros s2 T2].
  apply wp_bind, wp_await_; [intros _|intros e _; exact (tracked_ok _ _ T2)].
  apply wp_bind, wp_await;
    [intros totalPages _|intros e _; exact (tracked_ok _ _ T2)].
  apply wp_bind, wp_await_; [intros _|intros e _; exact (tracked_ok _ _ T2)].
  apply wp_bind, (wp_updateProgress_tracked 20 30);
    [exact T2|discriminate|discriminate|intros s3 T3].
  apply wp_bind.
  eapply wp_mono;
    [apply (field_loop_progress totalPages _ (fields (formOptions input))
              0%nat [] 0%nat 30 s3 T3)
    | | auto | auto].
  - reflexivity.
  - pose proof (ratio_nonneg 60 0 (length (fields (formOptions input)))
                  ltac:(discriminate)). lra.
  - intros out s4 T4.
    apply wp_bind, (wp_updateProgress_tracked 90 95);
      [exact T4|discriminate|discriminate|intros s5 T5].
    apply wp_bind, wp_await_; [intros _|intros e _; exact (tracked_ok _ _ T5)].
    apply wp_bind, (wp_updateProgress_tracked 95 100);
      [exact T5|discriminate|discriminate|intros s6 T6].
    exact (tracked_ok _ _ T6).
Qed.

End FormCreatorProgress.


Section ImageJobProgress.

Import JS Async Logic ImageToPDF ImageToPDFProcessor.
Local Open Scope Q_scope.

Variable env : Env.

Lemma file_loop_progress (options : ImageToPDFOptions) (p : Q) :
  0 <= p ->
  forall rest i acc b s,
    tracked b s ->
    b <= 10 + inject_Z (Z.of_nat i) * p ->
    10 + inject_Z (Z.of_nat (i + length rest)) * p <= 100 ->
    wp (file_loop env options p i rest acc)
       (fun _ s' =>
          tracked (10 + inject_Z (Z.of_nat (i + length rest)) * p) s')
       (fun _ s' => progress_ok (emitted s') /\ faithful s')
       (fun _ s' => progress_ok (emitted s') /\ faithful s') s.
Proof.
  intros Hp. induction rest as [|file rest IH]; intros i acc b s Ht Hb Hend.
  - simpl. unfold wp, ret. rewrite Nat.add_0_r in *.
    eapply tracked_weaken; eassumption.
  - simpl file_loop.
    apply wp_bind, (wp_checkCancelled_tracked b); [exact Ht|].
    intros c s1 Ht1.
    destruct c; [exact (tracked_ok _ _ Ht1)|].
    assert (Hstep : 10 + inject_Z (Z.of_nat i) * p
                    <= 10 + inject_Z (Z.of_nat (i + length (file :: rest))) * p).
    { apply Qplus_le_r, Qmult_le_compat_r; [|exact Hp].
      apply inject_nat_le. lia. }
    apply wp_bind, (wp_updateProgress_tracked b); [exact Ht1|exact Hb| |].
    { eapply Qle_trans; eassumption. }
    intros s2 Ht2.
    apply wp_bind, wp_try_catch. unfold addImageToDocument.
    apply wp_bind, wp_await_;
      [intros _|intros e _; exact (tracked_ok _ _ Ht2)].
    apply wp_bind, wp_await;
      [intros image _|intros e _; exact (tracked_ok _ _ Ht2)].
    unfold wp at 1, ret.
    simpl length in *.
    replace (i + S (length rest))%nat
      with (S i + length rest)%nat in * by lia.
    apply (IH (S i) _ _ s2 Ht2); [|exact Hend].
    rewrite inject_nat_succ. lra.
Qed.

Lemma image_process_progress (input : ProcessInput) (s : St) :
  wp (process env input)
     (fun _ s' => progress_ok (emitted s') /\ faithful s')
     (fun _ s' => progress_ok (emitted s') /\ faithful s')
     (fun _ s' => progress_ok (emitted s') /\ faithful s') s.
Proof.
  unfold process. apply wp_bind, wp_reset_tracked. intros s0 T0.
  pose proof (tracked_ok _ _ T0) as P0.
  destruct (length (files input) <? 1)%nat eqn:Hlen; [exact P0|].
  apply Nat.ltb_ge in Hlen.
  destruct (List.find _ (files input)); [exact P0|].
  apply wp_try_catch.
  apply wp_mono with
    (QV := fun _ s' => progress_ok (emitted s') /\ faithful s')
    (QR := fun _ s' => progress_ok (emitted s') /\ faithful s')
    (QE := fun _ s' => progress_ok (emitted s') /\ faithful s'); auto.
  unfold process_try.
  apply wp_bind, (wp_updateProgress_tracked 0 5);
    [exact T0|discriminate|discriminate|intros s1 T1].
  apply wp_bind, wp_await_; [intros _|intros e _; exact (tracked_ok _ _ T1)].
  apply wp_bind, (wp_checkCancelled_tracked 5); [exact T1|intros c s2 T2].
  destruct c; [exact (tracked_ok _ _ T2)|].
  apply wp_bind, (wp_updateProgress_tracked 5 10);
    [exact T2|discriminate|discriminate|intros s3 T3].
  apply wp_bind, wp_await_; [intros _|intros e _; exact (tracked_ok _ _ T3)].
  set (n := length (files input)) in *.
  set (p := 80 / inject_Z (Z.of_nat n)).
  assert (Hp : 0 <= p) by (apply share_nonneg; discriminate).
  assert (Hn : inject_Z (Z.of_nat n) * p == 80)
    by (apply share_total; lia).
  apply wp_bind.
  eapply wp_mono;
    [apply (file_loop_progress (options input) p Hp (files input) 0%nat
              [] 10 s3 T3)
    | | auto | auto].
  - simpl. rewrite Qmult_0_l. discriminate.
  - simpl. fold n. rewrite Hn. discriminate.
  - intros pdfDoc s4 T4. simpl in T4. fold n in T4.
    apply (tracked_weaken _ 95) in T4; [|rewrite Hn; discriminate|discriminate].
    apply wp_bind, (wp_updateProgress_tracked 95 95);
      [exact T4|discriminate|discriminate|intros s5 T5].
    apply wp_bind, wp_await_; [intros _|intros e _; exact (tracked_ok _ _ T5)].
    apply wp_bind, (wp_updateProgress_tracked 95 100);
      [exact T5|discriminate|discriminate|intros s6 T6].
    exact (tracked_ok _ _ T6).
Qed.

End ImageJobProgress.

Section MoreProgressTheorem.

Import Async Logic.

(** X25. The progress contract also holds for the other five
    processors. In one run of the text-colour, background, image-to-PDF,
    remove-annotations or form-creator processor, for every input and
    however the collaborators behave, the percentages handed to the
    progress callback are non-decreasing and never above 100, and each
    is the value the processor passed to [updateProgress], unclamped. *)
Theorem progress_contract_other_processors
    (tenv : TextColor.Env) (tinput : TextColor.ProcessInput)
    (benv : BackgroundColor.Env) (binput : BackgroundColor.ProcessInput)
    (ienv : ImageToPDFProcessor.Env) (iinput : ImageToPDFProcessor.ProcessInput)
    (renv : RemoveAnnotations.Env) (rinput : RemoveAnnotations.ProcessInput)
    (fenv : FormCreator.Env) (finput : FormCreator.ProcessInput) (s : St) :
  let ends :=
    [fst (run (TextColor.process tenv tinput) s);
     fst (run (BackgroundColor.process benv binput) s);
     fst (run (ImageToPDFProcessor.process ienv iinput) s);
     fst (run (RemoveAnnotations.process renv rinput) s);
     fst (run (FormCreator.process fenv finput) s)] in
  Forall (fun s' => progress_ok (emitted s') /\ faithful s') ends.
Proof.
  intros ends. subst ends.
  constructor;
    [|constructor; [|constructor; [|constructor; [|constructor;
                                                     [|constructor]]]]].
  - apply (wp_run (TextColor.process tenv tinput)
             (fun s' _ => progress_ok (emitted s') /\ faithful s')).
    apply textcolor_process_progress.
  - apply (wp_run (BackgroundColor.process benv binput)
             (fun s' _ => progress_ok (emitted s') /\ faithful s')).
    apply background_process_progress.
  - apply (wp_run (ImageToPDFProcessor.process ienv iinput)
             (fun s' _ => progress_ok (emitted s') /\ faithful s')).
    apply image_process_progress.
  - apply (wp_run (RemoveAnnotations.process renv rinput)
             (fun s' _ => progress_ok (emitted s') /\ faithful s')).
    apply remove_process_progress.
  - apply (wp_run (FormCreator.process fenv finput)
             (fun s' _ => progress_ok (emitted s') /\ faithful s')).
    apply form_process_progress.
Qed.

End MoreProgressTheorem.


Section OCRNoPages.

Import JS Async Logic OCR.
Local Open Scope Z_scope.

Lemma terminateTesseract_clears (env : Env) (QV : unit -> St -> Prop)
    (QR : Output -> St -> Prop) (QE : thrown -> St -> Prop) (s : St) :
  (forall k, terminate env k = None) ->
  (forall s', tesseractWorker s' = None -> QV tt s') ->
  wp (terminateTesseract env) QV QR QE s.
Proof.
  intros Hterm HV. cbv [wp terminateTesseract bind get put await_ throw ret].
  destruct (tesseractWorker s) eqn:W; [rewrite Hterm|]; apply HV;
    [reflexivity|exact W].
Qed.

Lemma select_pages_none (ocrOptions : OCROptions) (totalPages : nat) :
  Forall (fun p => p < 1 \/ Z.of_nat totalPages < p) (pages ocrOptions) ->
  (pages ocrOptions = [] -> totalPages = 0%nat) ->
  select_pages ocrOptions totalPages = [].
Proof.
  intros Hout Hempty. unfold select_pages.
  assert (Hfilter : List.filter
                      (fun p => (1 <=? p) && (p <=? Z.of_nat totalPages))
                      (pages ocrOptions) = []).
  { clear Hempty.
    induction (pages ocrOptions) as [|q qs IH]; [reflexivity|].
    inversion Hout as [|? ? Hq Hqs]; subst. cbv beta in Hq. simpl.
    destruct (Z.leb_spec 1 q), (Z.leb_spec q (Z.of_nat totalPages));
      simpl; try exact (IH Hqs); lia. }
  rewrite Hfilter.
  destruct (pages ocrOptions) as [|p ps]; [|reflexivity].
  simpl. rewrite (Hempty eq_refl). reflexivity.
Qed.

(** X26. An OCR job with nothing to recognise is refused after the
    session has been opened and is cleaned up. When the job gets as far
    as loading the document and every listed page number lies outside
    [1 .. page count] (or no page is listed and the document has no
    pages), it returns [INVALID_PAGE_RANGE] with the document's page
    count in the details, and the worker reference is null afterwards,
    provided [terminate()] resolves. Out-of-range numbers are an error
    only when they leave nothing to do. *)
Theorem ocr_no_valid_pages (env : Env) (input : ProcessInput) (file : File)
    (totalPages : nat) (s : St) :
  files input = [file] ->
  is_pdf file = true ->
  loadPdfjs env = None ->
  cancelled env 0 = false ->
  createWorker env = None ->
  getDocument env = inr totalPages ->
  (forall k, terminate env k = None) ->
  Forall (fun p => p < 1 \/ Z.of_nat totalPages < p)
         (pages (options input)) ->
  (pages (options input) = [] -> totalPages = 0%nat) ->
  snd (run (process env input) s)
  = Returned (Failure INVALID_PAGE_RANGE "No valid pages to OCR."
                (Some ("PDF has " ++ show (Z.of_nat totalPages)
                       ++ " pages.")%string))
  /\ tesseractWorker (fst (run (process env input) s)) = None.
Proof.
  intros Hfiles Hpdf Hload Hcancel Hworker Hdoc Hterm Hout Hempty.
  apply (wp_run (process env input)
           (fun s' c =>
              c = Returned (Failure INVALID_PAGE_RANGE "No valid pages to OCR."
                              (Some ("PDF has " ++ show (Z.of_nat totalPages)
                                     ++ " pages.")%string))
              /\ tesseractWorker s' = None)).
  unfold process. apply wp_bind. unfold wp at 1, reset.
  match goal with |- wp _ _ _ _ ?s0 => set (s0' := s0) end.
  assert (P0 : polls s0' = 0%nat) by reflexivity. clearbody s0'.
  rewrite Hfiles, Hpdf. simpl negb. cbv iota.
  apply wp_try_catch. unfold process_try.
  apply wp_bind. unfold wp at 1, updateProgress.
  rewrite Hload. apply wp_bind. unfold wp at 1, await_, ret.
  apply wp_bind. unfold wp at 1, checkCancelled. cbn [polls].
  rewrite P0, Hcancel.
  apply wp_bind. unfold wp at 1, updateProgress.
  apply wp_bind, initializeTesseract_resolves; [exact Hworker|intros s4 L4].
  apply wp_bind, wp_updateProgress. intros s5 _ W5 _ _.
  rewrite Hdoc. apply wp_bind. unfold wp at 1, await, ret.
  rewrite (select_pages_none _ _ Hout Hempty). simpl length. simpl Nat.eqb.
  cbv iota.
  apply wp_bind, terminateTesseract_clears; [exact Hterm|intros s6 W6].
  unfold wp, return_. split; [reflexivity|exact W6].
Qed.

Lemma ocr_no_valid_pages_4_5 :
  snd (run (process Examples.ocr_page2_fails
              (Examples.ocr_input_pages [4; 5])) fresh)
  = Returned (Failure INVALID_PAGE_RANGE "No valid pages to OCR."
                (Some "PDF has 3 pages."%string))
  /\ tesseractWorker (fst (run (process Examples.ocr_page2_fails
                                  (Examples.ocr_input_pages [4; 5])) fresh))
     = None.
Proof.
  apply (ocr_no_valid_pages Examples.ocr_page2_fails
           (Examples.ocr_input_pages [4; 5]) Examples.pdf_file 3 fresh).
  - reflexivity.
  - reflexivity.
  - reflexivity.
  - reflexivity.
  - reflexivity.
  - reflexivity.
  - intros k. reflexivity.
  - repeat constructor; right; reflexivity.
  - discriminate.
Defined.

End OCRNoPages.


Section OCRSearchable.

Import JS Async Logic OCR Compare.

Lemma agree_refl {O A} (r : St * res O A) : agree r r.
Proof. destruct r as [s [a|o|e]]; split; simpl; auto. Qed.

Lemma bind_agree {O A1 A2 B} (m1 : M O A1) (m2 : M O A2)
    (k1 : A1 -> M O B) (k2 : A2 -> M O B) (s : St) :
  agree (m1 s) (m2 s) ->
  (forall a1 a2 s', k1 a1 s' = k2 a2 s') ->
  bind m1 k1 s = bind m2 k2 s.
Proof.
  intros [Hs Hr] Hk. unfold bind.
  destruct (m1 s) as [s1 [a1|o1|e1]], (m2 s) as [s2 [a2|o2|e2]];
    simpl in *; subst; try contradiction; auto.
Qed.

Lemma agree_bind_same {O A B1 B2} (m : M O A)
    (k1 : A -> M O B1) (k2 : A -> M O B2) (s : St) :
  (forall a s', agree (k1 a s') (k2 a s')) ->
  agree (bind m k1 s) (bind m k2 s).
Proof.
  intros Hk. unfold bind. destruct (m s) as [s' [a|o|e]];
    [apply Hk|split; reflexivity|split; reflexivity].
Qed.

Lemma agree_bind {O A1 A2 B1 B2} (m1 : M O A1) (m2 : M O A2)
    (k1 : A1 -> M O B1) (k2 : A2 -> M O B2) (s : St) :
  agree (m1 s) (m2 s) ->
  (forall a1 a2 s', agree (k1 a1 s') (k2 a2 s')) ->
  agree (bind m1 k1 s) (bind m2 k2 s).
Proof.
  intros [Hs Hr] Hk. unfold bind.
  destruct (m1 s) as [s1 [a1|o1|e1]], (m2 s) as [s2 [a2|o2|e2]];
    simpl in *; subst; try contradiction; try (split; reflexivity).
  apply Hk.
Qed.

Variable env : Env.
Variables f g : nat -> Z -> thrown + string.

(** The page loop under two recognition engines: the entries differ, the
    state and the way the loop ends do not. *)
Lemma page_loop_agree (T : nat) (p : Q) :
  forall rest i acc1 acc2 s,
    agree (page_loop (with_recognize env f) T p i rest acc1 s)
          (page_loop (with_recognize env g) T p i rest acc2 s).
Proof.
  induction rest as [|pageNum rest IH]; intros i acc1 acc2 s.
  - simpl. split; simpl; auto.
  - simpl page_loop.
    apply (agree_bind_same (checkCancelled (cancelled env))).
    intros c s1. destruct c; [exact (agree_refl _)|].
    apply agree_bind_same. intros u s2.
    apply agree_bind; [|intros a1 a2 s3; apply IH].
    destruct (ocr_or_marker_run (with_recognize env f) i pageNum acc1 s2)
      as [e1 [-> _]].
    destruct (ocr_or_marker_run (with_recognize env g) i pageNum acc2 s2)
      as [e2 [-> _]].
    split; simpl; auto.
Qed.

End OCRSearchable.

Section OCRSearchableTheorem.

Import JS Async Logic OCR Compare.

(** X27. In the searchable-PDF format the recognised text does not
    reach the output. Two runs that differ only in what the recognition
    engine returns or throws for the pages end with the same outcome,
    the same blob, name and page count, and the same progress: the blob
    is the original document saved again with new metadata. *)
Theorem ocr_searchable_ignores_text (env : Env)
    (f g : nat -> Z -> thrown + string) (input : ProcessInput) (s : St) :
  outputFormat (options input) = searchable_pdf ->
  run (process (with_recognize env f) input) s
  = run (process (with_recognize env g) input) s.
Proof.
  intros Hfmt. unfold run.
  assert (E : process (with_recognize env f) input s
              = process (with_recognize env g) input s);
    [|rewrite E; reflexivity].
  unfold process. apply bind_ext. intros u s0.
  destruct (files input) as [|file [|file' more]]; try reflexivity.
  destruct (negb (is_pdf file)); [reflexivity|].
  apply (try_catch_ext
           (process_try (with_recognize env f) file (options input))
           (process_try (with_recognize env g) file (options input))).
  intros s1. unfold process_try.
  apply bind_ext; intros ? ?.
  apply (bind_ext (await_ (loadPdfjs env))); intros ? ?.
  apply (bind_ext (checkCancelled (cancelled env))); intros c ?.
  destruct c; [reflexivity|].
  apply bind_ext; intros ? ?.
  apply (bind_ext (initializeTesseract env (languages (options input))));
    intros ? ?.
  apply bind_ext; intros ? ?.
  apply (bind_ext (await (getDocument env))); intros totalPages ?.
  cbv zeta.
  destruct (length (select_pages (options input) totalPages) =? 0)%nat;
    [reflexivity|].
  apply bind_ext; intros ? ?.
  apply bind_agree; [apply page_loop_agree|].
  intros textResults1 textResults2 s'. rewrite Hfmt. reflexivity.
Qed.

Lemma ocr_searchable_ignores_text_page2 :
  let input :=
    {| files := [Examples.pdf_file];
       options := {| languages := [eng]; scale := 2; pages := [];
                     outputFormat := searchable_pdf;
                     preserveLayout := false |} |} in
  run (process (with_recognize Examples.ocr_page2_fails
                  (fun _ _ => inr "recognised text"%string)) input) fresh
  = run (process (with_recognize Examples.ocr_page2_fails
                    (fun _ _ => inl (ErrorObj "no engine"))) input) fresh.
Proof.
  intros input.
  apply (ocr_searchable_ignores_text Examples.ocr_page2_fails).
  reflexivity.
Defined.

End OCRSearchableTheorem.


Section SplitLoadFailure.

Import JS Async Logic Split SplitPDF.
Local Open Scope string_scope.

(** X28. What a split job reports when the document does not load. With
    one file and at least one range, the library loaded and no
    cancellation, a load error whose message contains [encrypt] (in
    exactly this spelling) gives [PDF_ENCRYPTED] with a fixed message;
    any other error, and any thrown value that is not an [Error], gives
    [PROCESSING_FAILED] with the error's message, or [Unknown error], as
    details. No range is looked at in either case. *)
Theorem split_load_failure (env : Env) (input : ProcessInput) (file : File)
    (error : thrown) (s : St) :
  files input = [file] ->
  ranges (options input) <> [] ->
  loadPdfLib env = None ->
  cancelled env 0 = false ->
  arrayBuffer env = None ->
  load env = inl error ->
  snd (run (process env input) s)
  = Returned
      (if match error with
          | ErrorObj m => includes_str "encrypt" m
          | NonError => false
          end
       then Failure PDF_ENCRYPTED "The PDF file is encrypted."
              (Some "Please decrypt the file before splitting.")
       else Failure PROCESSING_FAILED "Failed to split PDF file."
              (Some (message_of error))).
Proof.
  intros Hfiles Hranges Hlib Hcancel Hbuf Hload.
  apply (wp_run (process env input)
           (fun _ c =>
              c = Returned
                    (if match error with
                        | ErrorObj m => includes_str "encrypt" m
                        | NonError => false
                        end
                     then Failure PDF_ENCRYPTED "The PDF file is encrypted."
                            (Some "Please decrypt the file before splitting.")
                     else Failure PROCESSING_FAILED "Failed to split PDF file."
                            (Some (message_of error))))).
  unfold process. apply wp_bind. unfold wp at 1, reset.
  match goal with |- wp _ _ _ _ ?s0 => set (s0' := s0) end.
  assert (P0 : polls s0' = 0%nat) by reflexivity. clearbody s0'.
  rewrite Hfiles.
  destruct (length (ranges (options input)) =? 0)%nat eqn:Hlen.
  { exfalso. apply Nat.eqb_eq in Hlen.
    apply Hranges, length_zero_iff_nil, Hlen. }
  apply wp_try_catch. unfold process_try.
  apply wp_bind. unfold wp at 1, updateProgress.
  rewrite Hlib. apply wp_bind. unfold wp at 1, await_, ret.
  apply wp_bind. unfold wp at 1, checkCancelled. cbn [polls].
  rewrite P0, Hcancel.
  apply wp_bind. unfold wp at 1, updateProgress.
  rewrite Hbuf. apply wp_bind. unfold wp at 1, await_, ret.
  rewrite Hload. apply wp_bind, wp_try_catch.
  unfold wp at 1, await, throw.
  destruct error as [m|]; [destruct (includes_str "encrypt" m)|];
    reflexivity.
Qed.

Lemma split_load_failure_encrypted :
  snd (run (process SplitLoadExamples.encrypted_document
              (SplitExamples.split_input [{| start := 1; end_ := 2 |}]))
           fresh)
  = Returned (Failure PDF_ENCRYPTED "The PDF file is encrypted."
                (Some "Please decrypt the file before splitting."%string)).
Proof.
  apply (split_load_failure SplitLoadExamples.encrypted_document
           (SplitExamples.split_input [{| start := 1; end_ := 2 |}])
           (Build_File "doc.pdf" "application/pdf")
           (ErrorObj "Input document to `PDFDocument.load` is encrypted.")
           fresh).
  - reflexivity.
  - discriminate.
  - reflexivity.
  - reflexivity.
  - reflexivity.
  - reflexivity.
Defined.

End SplitLoadFailure.

Section OutputNames.

Import JS Async Logic.
Local Open Scope string_scope.

Lemma replace_first_absent (pat rep s : string) :
  includes_str pat s = false -> replace_first pat rep s = s.
Proof.
  induction s as [|c s IH]; intros H.
  - simpl in H. apply orb_false_iff in H as [H _].
    simpl. rewrite H. reflexivity.
  - simpl in H. apply orb_false_iff in H as [H Hs].
    simpl. simpl in H. rewrite H, (IH Hs). reflexivity.
Qed.

Lemma replace_first_pdf (base rest rep : string) :
  includes "." base = false ->
  replace_first ".pdf" rep (base ++ ".pdf" ++ rest) = base ++ rep ++ rest.
Proof.
  induction base as [|c base IH]; intros H.
  - reflexivity.
  - simpl in H. apply orb_false_iff in H as [Hc Hb].
    change ((String c base) ++ ".pdf" ++ rest)
      with (String c (base ++ ".pdf" ++ rest)).
    cbn [replace_first startsWith].
    rewrite Ascii.eqb_sym, Hc. cbn [andb]. rewrite (IH Hb). reflexivity.
Qed.

(** The name a job gives its output when it succeeds. *)
Lemma textcolor_process_filename (env : TextColor.Env)
    (input : TextColor.ProcessInput) (s : St) :
  wp (TextColor.process env input)
     (fun o _ => forall r, o = Success r ->
        exists file, TextColor.files input = [file]
          /\ TextColor.filename r
             = replace_first ".pdf" "_textcolor.pdf" (name file))
     (fun o _ => forall r, o <> Success r)
     (fun _ _ => True) s.
Proof.
  unfold TextColor.process. apply wp_bind, wp_reset. intros s0 _ _ _ _.
  destruct (TextColor.files input) as [|file [|file' more]];
    try (intros r Hr; discriminate Hr).
  apply wp_try_catch.
  eapply wp_mono with (QE := fun _ _ => True);
    [|intros o s' H; exact H|intros o s' H; exact H|].
  2:{ intros e s' _ r Hr. discriminate Hr. }
  unfold TextColor.process_try.
  apply wp_bind, wp_updateProgress. intros s1 _ _ _ _.
  apply wp_bind, wp_await_; [intros _|auto].
  apply wp_bind, wp_updateProgress. intros s2 _ _ _ _.
  apply wp_bind, wp_await; [intros pdfjsDoc _|auto].
  apply wp_bind, wp_updateProgress. intros s3 _ _ _ _.
  apply wp_bind.
  eapply wp_mono;
    [apply (textcolor_page_loop_pages env (TextColor.options input) pdfjsDoc)
    | |intros o s' H; exact H|auto].
  intros newPdf s4 _.
  apply wp_bind, wp_updateProgress. intros s5 _ _ _ _.
  apply wp_bind, wp_await_; [intros _|auto].
  apply wp_bind, wp_updateProgress. intros s6 _ _ _ _.
  unfold wp, ret. intros r Hr. injection Hr as <-.
  exists file. split; reflexivity.
Qed.

Lemma background_process_filename (env : BackgroundColor.Env)
    (input : BackgroundColor.ProcessInput) (s : St) :
  wp (BackgroundColor.process env input)
     (fun o _ => forall r, o = Success r ->
        exists file, BackgroundColor.files input = [file]
          /\ BackgroundColor.filename r
             = replace_first ".pdf" "_background.pdf" (name file))
     (fun o _ => forall r, o <> Success r)
     (fun _ _ => True) s.
Proof.
  unfold BackgroundColor.process. apply wp_bind, wp_reset.
  intros s0 _ _ _ _.
  destruct (BackgroundColor.files input) as [|file [|file' more]];
    try (intros r Hr; discriminate Hr).
  apply wp_try_catch.
  eapply wp_mono with (QE := fun _ _ => True);
    [|intros o s' H; exact H|intros o s' H; exact H|].
  2:{ intros e s' _ r Hr. discriminate Hr. }
  unfold BackgroundColor.process_try.
  apply wp_bind, wp_updateProgress. intros s1 _ _ _ _.
  apply wp_bind, wp_await_; [intros _|auto].
  apply wp_bind, wp_updateProgress. intros s2 _ _ _ _.
  apply wp_bind, wp_await; [intros sourcePages _|auto].
  apply wp_bind, wp_updateProgress. intros s3 _ _ _ _.
  apply wp_bind, wp_await_; [intros _|auto].
  apply wp_bind, wp_updateProgress. intros s4 _ _ _ _.
  apply wp_bind.
  eapply wp_mono;
    [apply (background_page_loop_pages env)
    | |intros o s' H; exact H|auto].
  intros newPdf s5 _.
  apply wp_bind, wp_updateProgress. intros s6 _ _ _ _.
  apply wp_bind, wp_await_; [intros _|auto].
  apply wp_bind, wp_updateProgress. intros s7 _ _ _ _.
  unfold wp, ret. intros r Hr. injection Hr as <-.
  exists file. split; reflexivity.
Qed.

Lemma remove_process_filename (env : RemoveAnnotations.Env)
    (input : RemoveAnnotations.ProcessInput) (s : St) :
  wp (RemoveAnnotations.process env input)
     (fun o _ => forall r, o = Success r ->
        exists file, RemoveAnnotations.files input = [file]
          /\ RemoveAnnotations.filename r
             = replace_first ".pdf" "_no_annotations.pdf" (name file))
     (fun o _ => forall r, o <> Success r)
     (fun _ _ => True) s.
Proof.
  unfold RemoveAnnotations.process. apply wp_bind, wp_reset.
  intros s0 _ _ _ _.
  destruct (RemoveAnnotations.files input) as [|file [|file' more]];
    try (intros r Hr; discriminate Hr).
  apply wp_try_catch.
  eapply wp_mono with (QE := fun _ _ => True);
    [|intros o s' H; exact H|intros o s' H; exact H|].
  2:{ intros e s' _ r Hr. discriminate Hr. }
  unfold RemoveAnnotations.process_try.
  apply wp_bind, wp_updateProgress. intros s1 _ _ _ _.
  apply wp_bind, wp_await_; [intros _|auto].
  apply wp_bind, wp_updateProgress. intros s2 _ _ _ _.
  apply wp_bind, wp_await_; [intros _|auto].
  apply wp_bind, wp_await; [intros pdf _|auto].
  apply wp_bind, wp_updateProgress. intros s3 _ _ _ _.
  apply wp_bind.
  eapply wp_mono;
    [apply (remove_page_loop_strips env)
    | |intros o s' H; exact H|auto].
  intros out s4 _.
  apply wp_bind, wp_updateProgress. intros s5 _ _ _ _.
  apply wp_bind, wp_await_; [intros _|auto].
  apply wp_bind, wp_updateProgress. intros s6 _ _ _ _.
  unfold wp, ret. intros r Hr. injection Hr as <-.
  exists file. split; reflexivity.
Qed.

Lemma field_loop_no_success (env : FormCreator.Env) (totalPages count : nat) :
  forall rest i form createdCount s,
    wp (FormCreator.field_loop env totalPages count i rest form createdCount)
       (fun _ _ => True)
       (fun o _ => forall r, o <> Success r)
       (fun _ _ => True) s.
Proof.
  induction rest as [|fieldDef rest IH]; intros i form createdCount s.
  - exact I.
  - simpl FormCreator.field_loop. apply wp_bind, wp_checkCancelled.
    intros c s1 _ _ _ _ _.
    destruct c; [intros r; discriminate|].
    destruct (_ || _); [apply IH|].
    destruct (match FormCreator.run_calls env i 0 _ form with
              | (form', None) => (form', S createdCount)
              | (form', Some _) => (form', createdCount)
              end) as [form' createdCount'].
    apply wp_bind, wp_updateProgress. intros s2 _ _ _ _. apply IH.
Qed.

Lemma form_process_filename (env : FormCreator.Env)
    (input : FormCreator.ProcessInput) (s : St) :
  wp (FormCreator.process env input)
     (fun o _ => forall r, o = Success r ->
        exists file, FormCreator.files input = [file]
          /\ FormCreator.filename r
             = replace_first ".pdf" "_form.pdf" (name file))
     (fun o _ => forall r, o <> Success r)
     (fun _ _ => True) s.
Proof.
  unfold FormCreator.process. apply wp_bind, wp_reset.
  intros s0 _ _ _ _.
  destruct (FormCreator.files input) as [|file [|file' more]];
    try (intros r Hr; discriminate Hr).
  destruct (length _ =? 0)%nat; [intros r Hr; discriminate Hr|].
  apply wp_try_catch.
  eapply wp_mono with (QE := fun _ _ => True);
    [|intros o s' H; exact H|intros o s' H; exact H|].
  2:{ intros e s' _ r Hr. discriminate Hr. }
  unfold FormCreator.process_try.
  apply wp_bind, wp_updateProgress. intros s1 _ _ _ _.
  apply wp_bind, wp_await_; [intros _|auto].
  apply wp_bind, wp_updateProgress. intros s2 _ _ _ _.
  apply wp_bind, wp_await_; [intros _|auto].
  apply wp_bind, wp_await; [intros totalPages _|auto].
  apply wp_bind, wp_await_; [intros _|auto].
  apply wp_bind, wp_updateProgress. intros s3 _ _ _ _.
  apply wp_bind.
  eapply wp_mono;
    [apply (field_loop_no_success env)
    | |intros o s' H; exact H|auto].
  intros out s4 _.
  apply wp_bind, wp_updateProgress. intros s5 _ _ _ _.
  apply wp_bind, wp_await_; [intros _|auto].
  apply wp_bind, wp_updateProgress. intros s6 _ _ _ _.
  unfold wp, ret. intros r Hr. injection Hr as <-.
  exists file. split; reflexivity.
Qed.

End OutputNames.


Section OutputNamesTheorem.

Import JS Async Logic.
Local Open Scope string_scope.

Lemma success_of_wp {O R : Type} (inj : R -> O) (m : M O O)
    (P : R -> Prop) (s : St) (r : R) :
  wp m (fun o _ => forall r, o = inj r -> P r)
       (fun o _ => forall r, o <> inj r)
       (fun _ _ => True) s ->
  snd (run m s) = Returned (inj r) -> P r.
Proof.
  intros H Hrun. unfold wp in H. unfold run in Hrun.
  destruct (m s) as [s' [o|o|e]]; simpl in Hrun.
  - injection Hrun as ->. apply H. reflexivity.
  - injection Hrun as ->. exfalso. exact (H r eq_refl).
  - discriminate Hrun.
Qed.

(** X30. How the text-colour, background, remove-annotations and
    form-creator jobs name their output. The suffix is put in place of
    the first [.pdf] of the input's name, in lower case only: a name
    [base.pdf...] whose [base] has no dot becomes [base<suffix>...],
    and a name that does not contain [.pdf] at all (an upper-case
    [.PDF], or no extension) is returned unchanged, so that the output
    carries the very name of the input. *)
Theorem output_name_from_input_name (file : File) (s : St) :
  let named (suffix result : string) :=
    (includes_str ".pdf" (name file) = false -> result = name file)
    /\ (forall base rest,
          name file = base ++ ".pdf" ++ rest ->
          includes "." base = false ->
          result = base ++ suffix ++ rest) in
  (forall env input r,
      TextColor.files input = [file] ->
      snd (run (TextColor.process env input) s) = Returned (Success r) ->
      named "_textcolor.pdf" (TextColor.filename r))
  /\ (forall env input r,
        BackgroundColor.files input = [file] ->
        snd (run (BackgroundColor.process env input) s)
        = Returned (Success r) ->
        named "_background.pdf" (BackgroundColor.filename r))
  /\ (forall env input r,
        RemoveAnnotations.files input = [file] ->
        snd (run (RemoveAnnotations.process env input) s)
        = Returned (Success r) ->
        named "_no_annotations.pdf" (RemoveAnnotations.filename r))
  /\ (forall env input r,
        FormCreator.files input = [file] ->
        snd (run (FormCreator.process env input) s) = Returned (Success r) ->
        named "_form.pdf" (FormCreator.filename r)).
Proof.
  intros named.
  assert (Hnamed : forall suffix,
             named suffix (replace_first ".pdf" suffix (name file))).
  { intros suffix. split.
    - apply replace_first_absent.
    - intros base rest -> Hbase. apply replace_first_pdf. exact Hbase. }
  split; [|split; [|split]]; intros env input r Hfiles Hrun.
  - destruct (success_of_wp Success _ _ s r
                (textcolor_process_filename env input s) Hrun)
      as [file' [Hf ->]].
    rewrite Hfiles in Hf. injection Hf as <-. apply Hnamed.
  - destruct (success_of_wp Success _ _ s r
                (background_process_filename env input s) Hrun)
      as [file' [Hf ->]].
    rewrite Hfiles in Hf. injection Hf as <-. apply Hnamed.
  - destruct (success_of_wp Success _ _ s r
                (remove_process_filename env input s) Hrun)
      as [file' [Hf ->]].
    rewrite Hfiles in Hf. injection Hf as <-. apply Hnamed.
  - destruct (success_of_wp Success _ _ s r
                (form_process_filename env input s) Hrun)
      as [file' [Hf ->]].
    rewrite Hfiles in Hf. injection Hf as <-. apply Hnamed.
Qed.

Lemma output_name_from_input_name_scan :
  exists r,
    snd (run (BackgroundColor.process Examples.background_env
                (Examples.background_input [1; 5])) fresh)
    = Returned (Success r)
    /\ BackgroundColor.filename r = "scan_background.pdf".
Proof.
  pose (c := snd (run (BackgroundColor.process Examples.background_env
                         (Examples.background_input [1; 5])) fresh)).
  assert (Hc : snd (run (BackgroundColor.process Examples.background_env
                           (Examples.background_input [1; 5])) fresh) = c)
    by reflexivity.
  vm_compute in c. subst c.
  match type of Hc with
  | _ = Returned (Success ?r) =>
      exists r; split; [exact Hc|];
      destruct (output_name_from_input_name Examples.pdf_file fresh)
        as (_ & Hbackground & _);
      destruct (Hbackground Examples.background_env
                  (Examples.background_input [1; 5]) r eq_refl Hc)
        as [_ Hpdf];
      exact (Hpdf "scan" EmptyString eq_refl eq_refl)
  end.
Defined.

End OutputNamesTheorem.
